(** * DP multi-timing bandwidth checker: timing generator, link capacity,
      aggregation, calculator and the import/export contract of
      [src/src/MyApp.tsx].

    The file has two parts: the program, function by function, with the
    algorithms of the specification beside it (modules [Spec]); then the
    properties.

    Numbers.  The program is given twice.  Module [Binary64], the second half
    of the definitions, is the program on the doubles it computes with
    ([PrimFloat.float]: IEEE 754 binary64, round to nearest, ties to even,
    with both zeros, the infinities and NaN): the timing generator, [Number]
    of a string, the aggregation, the import handler and the transitions of
    the state.  The properties of the generator, of the fit decision and of
    the import are stated there.  The first half gives the same functions,
    and the calculator, the chart and the export, on exact numbers: a
    rational, or one of NaN, +Infinity and -Infinity, with no rounding, no
    overflow and a single zero.  It serves the properties that are algebra on
    the values (idempotence of a recomputation, the round trip of a row, the
    order of a clamped percentage), which do not depend on the rounding.

    Values.  The import handler works on the value [JSON.parse] returns
    ([jsval]); its coercions [Number], [String] and [Boolean] follow
    ECMAScript, and throw a TypeError on an object that has an own [toString]
    property.  A string is the sequence of the bytes of its UTF-8 encoding.
    The text a host prints for a number is a parameter (class [Host]).
    Objects have no identity: [===] between two objects is false, and the
    transitions say separately what [updateTiming] and [removeTiming] do for
    a row whose [id] is an object.

    State.  [App] keeps its state in React hooks; a handler is a function on
    the record [AppState] that may throw, and keeps the updates made before a
    throw. *)

From Stdlib Require Import Floats.
From Stdlib Require Import NArith ZArith QArith Qround Qabs Qreduction Qpower.
From Stdlib Require Import List String Ascii DecimalString Bool Lia Lqa Permutation.
Import ListNotations.

(* ===================================================================== *)
(** ** JavaScript numbers *)
(* ===================================================================== *)

Inductive num : Type :=
| NaN
| PInf
| NInf
| Fin (q : Q).

Declare Scope js_scope.
Delimit Scope js_scope with J.
Bind Scope js_scope with num.

(** Finite values are kept in lowest terms, so that two results with the same
    mathematical value are the same term. *)
Definition fin (q : Q) : num := Fin (Qred q).

(** A numeric literal of the source. *)
Definition lit (q : Q) : num := fin q.

Definition ofZ (z : Z) : num := Fin (z # 1).

(** The sign of a number that is not NaN ([Eq] for zero). *)
Definition nsign (a : num) : comparison :=
  match a with
  | NaN => Eq
  | PInf => Gt
  | NInf => Lt
  | Fin q => (q ?= 0)%Q
  end.

Definition sign_mul (s t : comparison) : comparison :=
  match s, t with
  | Eq, _ | _, Eq => Eq
  | Gt, Gt | Lt, Lt => Gt
  | Gt, Lt | Lt, Gt => Lt
  end.

(** +Infinity, -Infinity, or NaN for the product 0 * Infinity. *)
Definition inf_of_sign (s : comparison) : num :=
  match s with
  | Gt => PInf
  | Lt => NInf
  | Eq => NaN
  end.

Definition nneg (a : num) : num :=
  match a with
  | NaN => NaN
  | PInf => NInf
  | NInf => PInf
  | Fin q => fin (- q)
  end.

Definition nadd (a b : num) : num :=
  match a, b with
  | NaN, _ | _, NaN => NaN
  | PInf, NInf | NInf, PInf => NaN
  | PInf, _ | _, PInf => PInf
  | NInf, _ | _, NInf => NInf
  | Fin x, Fin y => fin (x + y)
  end.

Definition nsub (a b : num) : num :=
  match a, b with
  | NaN, _ | _, NaN => NaN
  | PInf, PInf | NInf, NInf => NaN
  | PInf, _ | _, NInf => PInf
  | NInf, _ | _, PInf => NInf
  | Fin x, Fin y => fin (x - y)
  end.

Definition nmul (a b : num) : num :=
  match a, b with
  | NaN, _ | _, NaN => NaN
  | Fin x, Fin y => fin (x * y)
  | _, _ => inf_of_sign (sign_mul (nsign a) (nsign b))
  end.

(** Division.  A finite value divided by zero is an infinity of the sign of
    the dividend (the zero is +0), and 0 / 0 is NaN. *)
Definition ndiv (a b : num) : num :=
  match a, b with
  | NaN, _ | _, NaN => NaN
  | Fin x, Fin y =>
      if Qeq_bool y 0 then inf_of_sign (x ?= 0)%Q else fin (x / y)
  | Fin _, _ => Fin 0
  | _, Fin y => if Qeq_bool y 0 then a else inf_of_sign (sign_mul (nsign a) (y ?= 0)%Q)
  | _, _ => NaN
  end.

(** [a < b], [a <= b] and [a === b] on numbers: false as soon as one side is
    NaN. *)
Definition nltb (a b : num) : bool :=
  match a, b with
  | NaN, _ | _, NaN => false
  | _, NInf => false
  | NInf, _ => true
  | PInf, _ => false
  | _, PInf => true
  | Fin x, Fin y => match (x ?= y)%Q with Lt => true | _ => false end
  end.

Definition neqb (a b : num) : bool :=
  match a, b with
  | PInf, PInf | NInf, NInf => true
  | Fin x, Fin y => Qeq_bool x y
  | _, _ => false
  end.

Definition nleb (a b : num) : bool := nltb a b || neqb a b.

Definition ngtb (a b : num) : bool := nltb b a.

Infix "+" := nadd : js_scope.
Infix "-" := nsub : js_scope.
Infix "*" := nmul : js_scope.
Infix "/" := ndiv : js_scope.
Infix "<?" := nltb (at level 70, no associativity) : js_scope.
Infix "<=?" := nleb (at level 70, no associativity) : js_scope.
Infix ">?" := ngtb (at level 70, no associativity) : js_scope.
Infix "===" := neqb (at level 70, no associativity) : js_scope.

(** [Math.floor], [Math.round] (ties go up), [Math.max], [Math.min]. *)
Definition Math_floor (a : num) : num :=
  match a with
  | Fin q => ofZ (Qfloor q)
  | _ => a
  end.

Definition Math_round (a : num) : num :=
  match a with
  | Fin q => ofZ (Qfloor (q + (1 # 2)))
  | _ => a
  end.

Definition Math_max (a b : num) : num :=
  match a, b with
  | NaN, _ | _, NaN => NaN
  | _, _ => if nltb a b then b else a
  end.

Definition Math_min (a b : num) : num :=
  match a, b with
  | NaN, _ | _, NaN => NaN
  | _, _ => if nltb b a then b else a
  end.

Definition Number_isFinite (a : num) : bool :=
  match a with
  | Fin _ => true
  | _ => false
  end.

(** Truthiness of a number: NaN and zero are falsy. *)
Definition num_truthy (a : num) : bool :=
  match a with
  | NaN => false
  | Fin q => negb (Qeq_bool q 0)
  | _ => true
  end.

(** [a || b] on numbers. *)
Definition num_or (a b : num) : num := if num_truthy a then a else b.

(* ===================================================================== *)
(** ** Predicates on numbers *)
(* ===================================================================== *)

(** [hasVal a x]: the number [a] is finite, of value [x]. *)
Definition hasVal (a : num) (x : Q) : Prop :=
  match a with
  | Fin q => (q == x)%Q
  | _ => False
  end.

(** Results of the arithmetic are in lowest terms. *)
Definition canonical (a : num) : Prop :=
  match a with
  | Fin q => Qred q = q
  | _ => True
  end.

(** Whole numbers: the integers and the three special values; these are the
    numbers [Math.round] leaves alone. *)
Inductive whole : num -> Prop :=
| whole_NaN : whole NaN
| whole_PInf : whole PInf
| whole_NInf : whole NInf
| whole_ofZ (z : Z) : whole (ofZ z).

(* ===================================================================== *)
(** ** The CVT timing generator: [calculateCvtTiming] *)
(* ===================================================================== *)

Local Open Scope js_scope.

Definition CVT_CELL_GRAN : num := lit 8.
Definition CVT_HSYNC_PERCENT : num := lit 0.08.
Definition CVT_MIN_V_PORCH : num := lit 3.
Definition CVT_MIN_VSYNC_BP : num := lit 550.
Definition CVT_MIN_V_BPORCH : num := lit 6.
Definition CVT_MARGIN_PERCENT : num := lit 1.8.
Definition CVT_C_PRIME : num := lit 30.
Definition CVT_M_PRIME : num := lit 300.

(** [type CvtKind] and [type CvtProfile = Exclude<CvtKind, "manual">]. *)
Inductive CvtKind : Type := manual | kind_cvt | kind_cvt_rb | kind_cvt_rb2.
Inductive CvtProfile : Type := cvt | cvt_rb | cvt_rb2.

Record CvtTimingResult : Type := mkCvtTimingResult {
  pixelClockMHz : num;
  hTotal : num;
  vTotal : num;
  hBlank : num;
  vBlank : num;
  hFront : num;
  hSync : num;
  hBack : num;
  vFront : num;
  vSync : num;
  vBack : num;
}.

Record ClockParams : Type := mkClockParams {
  clockStep : num;
  clockStepInv : num;
  rbHBlank : num;
  rbHSync : num;
  rbMinVBlank : num;
  rbVFrontPorch : num;
  refreshMultiplier : num;
}.

Definition clockParams (reducedBlanking : CvtProfile) (videoOptimized : bool)
  : ClockParams :=
  match reducedBlanking with
  | cvt =>
      mkClockParams (lit 0.25) (lit 4) (lit 160) (lit 32) (lit 460) (lit 3) (lit 1)
  | cvt_rb =>
      mkClockParams (lit 0.25) (lit 4) (lit 160) (lit 32) (lit 460) (lit 3) (lit 1)
  | cvt_rb2 =>
      mkClockParams (lit 0.001) (lit 1000) (lit 80) (lit 32) (lit 460) (lit 1)
        (if videoOptimized then lit 1000 / lit 1001 else lit 1)
  end.

Definition aspectCandidates : list (string * num) :=
  [ ("4:3", lit 4 / lit 3);
    ("16:9", lit 16 / lit 9);
    ("16:10", lit 16 / lit 10);
    ("5:4", lit 5 / lit 4);
    ("15:9", lit 15 / lit 9);
    ("43:18", lit 43 / lit 18);
    ("64:27", lit 64 / lit 27);
    ("12:5", lit 12 / lit 5) ]%string.

(** The test of [aspectCandidates.find]. *)
Definition aspectMatches (cellGran verPixels hPixelsRounded : num)
    (c : string * num) : bool :=
  (cellGran * Math_round (verPixels * snd c / cellGran)) === hPixelsRounded.

(** [aspectCandidates.find(...)?.[0] ?? "Unknown"]. *)
Definition aspectRatio (cellGran verPixels hPixelsRounded : num) : string :=
  match find (aspectMatches cellGran verPixels hPixelsRounded) aspectCandidates with
  | Some c => fst c
  | None => "Unknown"
  end.

Definition vSyncRounded (reducedBlanking : CvtProfile) (aspect : string) : num :=
  match reducedBlanking with
  | cvt_rb2 => lit 8
  | _ =>
      if String.eqb aspect "4:3" then lit 4
      else if String.eqb aspect "16:9" then lit 5
      else if String.eqb aspect "16:10" then lit 6
      else if String.eqb aspect "5:4" then lit 7
      else if String.eqb aspect "15:9" then lit 7
      else lit 10
  end.

(** The arm [if (reducedBlanking === "cvt")] of [calculateCvtTiming]. *)
Definition standardArm (cp : ClockParams)
    (cellGran fieldRateRequired totalActivePixels vLinesRounded
     topMargin bottomMargin interlaceFactor vSyncRounded : num)
  : CvtTimingResult :=
  let hPeriodEst :=
    ((lit 1 / fieldRateRequired) - CVT_MIN_VSYNC_BP / lit 1000000)
    / (vLinesRounded + (lit 2 * topMargin) + CVT_MIN_V_PORCH + interlaceFactor)
    * lit 1000000 in
  let vSyncBackPorch0 := Math_floor (CVT_MIN_VSYNC_BP / hPeriodEst) + lit 1 in
  let vSyncBackPorch :=
    if vSyncBackPorch0 <? (vSyncRounded + CVT_MIN_V_BPORCH)
    then vSyncRounded + CVT_MIN_V_BPORCH
    else vSyncBackPorch0 in
  let vBlank := vSyncBackPorch + CVT_MIN_V_PORCH in
  let vFrontPorch := CVT_MIN_V_PORCH in
  let vBackPorch := vSyncBackPorch - vSyncRounded in
  let totalVLines :=
    vLinesRounded + topMargin + bottomMargin + vSyncBackPorch
    + interlaceFactor + CVT_MIN_V_PORCH in
  let idealDutyCycle := CVT_C_PRIME - (CVT_M_PRIME * hPeriodEst / lit 1000) in
  let minDutyCycle := lit 20 in
  let hBlank :=
    if idealDutyCycle <? minDutyCycle
    then Math_floor (totalActivePixels * minDutyCycle / (lit 100 - minDutyCycle)
                     / (lit 2 * cellGran)) * (lit 2 * cellGran)
    else Math_floor (totalActivePixels * idealDutyCycle / (lit 100 - idealDutyCycle)
                     / (lit 2 * cellGran)) * (lit 2 * cellGran) in
  let totalPixels := totalActivePixels + hBlank in
  let hSync := Math_floor (CVT_HSYNC_PERCENT * totalPixels / cellGran) * cellGran in
  let hBackPorch := hBlank / lit 2 in
  let hFrontPorch := hBlank - hSync - hBackPorch in
  let pixelClockMHz :=
    clockStep cp * Math_floor (totalPixels / hPeriodEst / clockStep cp) in
  mkCvtTimingResult pixelClockMHz
    (Math_round totalPixels) (Math_round totalVLines)
    (Math_round hBlank) (Math_round vBlank)
    (Math_round hFrontPorch) (Math_round hSync) (Math_round hBackPorch)
    (Math_round vFrontPorch) (Math_round vSyncRounded) (Math_round vBackPorch).

(** The [else] arm of [calculateCvtTiming]: the reduced-blanking profiles. *)
Definition reducedArm (reducedBlanking : CvtProfile) (cp : ClockParams)
    (fieldRateRequired totalActivePixels vLinesRounded
     topMargin bottomMargin interlaceFactor vSyncRounded : num)
  : CvtTimingResult :=
  let hPeriodEst :=
    ((lit 1000000 / fieldRateRequired) - rbMinVBlank cp)
    / (vLinesRounded + topMargin + bottomMargin) in
  let hBlank := rbHBlank cp in
  let vbiLines := Math_floor (rbMinVBlank cp / hPeriodEst) + lit 1 in
  let rbMinVbi := rbVFrontPorch cp + vSyncRounded + CVT_MIN_V_BPORCH in
  let activeVbiLines := if vbiLines <? rbMinVbi then rbMinVbi else vbiLines in
  let vBlank := activeVbiLines in
  let totalVLines :=
    activeVbiLines + vLinesRounded + topMargin + bottomMargin + interlaceFactor in
  let totalPixels := totalActivePixels + rbHBlank cp in
  let pixelClockMHz :=
    Math_floor (fieldRateRequired * totalVLines * totalPixels * clockStepInv cp
                / lit 1000000)
    * refreshMultiplier cp / clockStepInv cp in
  match reducedBlanking with
  | cvt_rb2 =>
      let vFrontPorch := activeVbiLines - vSyncRounded - lit 6 in
      let vBackPorch := lit 6 in
      let hSync := rbHSync cp in
      let hBackPorch := lit 40 in
      let hFrontPorch := hBlank - hSync - hBackPorch in
      mkCvtTimingResult pixelClockMHz
        (Math_round totalPixels) (Math_round totalVLines)
        (Math_round hBlank) (Math_round vBlank)
        (Math_round hFrontPorch) (Math_round hSync) (Math_round hBackPorch)
        (Math_round vFrontPorch) (Math_round vSyncRounded) (Math_round vBackPorch)
  | _ =>
      let vFrontPorch := lit 3 in
      let vBackPorch := activeVbiLines - vFrontPorch - vSyncRounded in
      let hSync := rbHSync cp in
      let hBackPorch := lit 80 in
      let hFrontPorch := hBlank - hSync - hBackPorch in
      mkCvtTimingResult pixelClockMHz
        (Math_round totalPixels) (Math_round totalVLines)
        (Math_round hBlank) (Math_round vBlank)
        (Math_round hFrontPorch) (Math_round hSync) (Math_round hBackPorch)
        (Math_round vFrontPorch) (Math_round vSyncRounded) (Math_round vBackPorch)
  end.

Definition calculateCvtTiming (hActive vActive refreshHz : num)
    (reducedBlanking : CvtProfile) (margins interlaced videoOptimized : bool)
  : CvtTimingResult :=
  let cp := clockParams reducedBlanking videoOptimized in
  let cellGran := Math_floor CVT_CELL_GRAN in
  let fieldRateRequired := if interlaced then refreshHz * lit 2 else refreshHz in
  let hPixelsRounded := Math_floor (hActive / cellGran) * cellGran in
  let leftMargin :=
    if margins
    then Math_floor ((hPixelsRounded * CVT_MARGIN_PERCENT / lit 100) / cellGran) * cellGran
    else lit 0 in
  let totalActivePixels := hPixelsRounded + leftMargin * lit 2 in
  let vLinesRounded :=
    if interlaced then Math_floor (vActive / lit 2) else Math_floor vActive in
  let topMargin :=
    if margins then Math_floor (vLinesRounded * CVT_MARGIN_PERCENT / lit 100) else lit 0 in
  let bottomMargin := topMargin in
  let interlaceFactor := if interlaced then lit 0.5 else lit 0 in
  let verPixels := if interlaced then lit 2 * vLinesRounded else vLinesRounded in
  let aspect := aspectRatio cellGran verPixels hPixelsRounded in
  let vSyncRounded := vSyncRounded reducedBlanking aspect in
  match reducedBlanking with
  | cvt =>
      standardArm cp cellGran fieldRateRequired totalActivePixels vLinesRounded
        topMargin bottomMargin interlaceFactor vSyncRounded
  | _ =>
      reducedArm reducedBlanking cp fieldRateRequired totalActivePixels vLinesRounded
        topMargin bottomMargin interlaceFactor vSyncRounded
  end.

(** [DEFAULT_PRESET_TIMING]: 3840x2160 at 144 Hz with the RB2 profile. *)
Definition DEFAULT_PRESET_TIMING : CvtTimingResult :=
  calculateCvtTiming (lit 3840) (lit 2160) (lit 144) cvt_rb2 false false false.

(* ===================================================================== *)
(** ** Order and sums of exact numbers *)
(* ===================================================================== *)

Module Spec.

(** The order of the numbers: NaN is comparable with nothing. *)
Definition num_le (a b : num) : Prop :=
  match a, b with
  | NaN, _ | _, NaN => False
  | NInf, _ | _, PInf => True
  | PInf, _ | _, NInf => False
  | Fin x, Fin y => (x <= y)%Q
  end.

(** [total_required]: the sum of the selected rates. *)
Definition totalRequired (rates : list num) : num := fold_right nadd (lit 0) rates.

End Spec.

(* ===================================================================== *)
(** ** JavaScript values and coercions *)
(* ===================================================================== *)

Local Open Scope string_scope.

#[local] Unset Elimination Schemes.

(** The values the import handler meets: what [JSON.parse] returns, and
    [undefined] for an absent property. *)
Inductive jsval : Type :=
| VUndef
| VNull
| VBool (b : bool)
| VNum (n : num)
| VStr (s : string)
| VArr (items : list jsval)
| VObj (fields : list (string * jsval)).

#[local] Set Elimination Schemes.

(** *** [Number(string)]

    The StringToNumber grammar of ECMAScript: optional white space around an
    empty string (0), a signed decimal literal with optional fraction and
    exponent, a signed [Infinity], or an unsigned hexadecimal, octal or binary
    integer; anything else is NaN.  A string is the list of the bytes of its
    UTF-8 encoding, so a white space character is one to three bytes. *)

(** The white space and line terminators of ECMAScript, as UTF-8 codes:
    TAB, LF, VT, FF, CR, SP, U+00A0, U+1680, U+2000 to U+200A, U+2028,
    U+2029, U+202F, U+205F, U+3000 and U+FEFF. *)
Definition whiteSpaceCodes : list (list nat) :=
  [ [9]; [10]; [11]; [12]; [13]; [32]; [194; 160]; [225; 154; 128];
    [226; 128; 128]; [226; 128; 129]; [226; 128; 130]; [226; 128; 131];
    [226; 128; 132]; [226; 128; 133]; [226; 128; 134]; [226; 128; 135];
    [226; 128; 136]; [226; 128; 137]; [226; 128; 138];
    [226; 128; 168]; [226; 128; 169]; [226; 128; 175]; [226; 129; 159];
    [227; 128; 128]; [239; 187; 191] ]%nat.

(** [s] without the leading codes [p], if it starts with them. *)
Fixpoint stripCodes (p : list nat) (s : list ascii) : option (list ascii) :=
  match p with
  | [] => Some s
  | c :: p' =>
      match s with
      | a :: s' => if Nat.eqb (nat_of_ascii a) c then stripCodes p' s' else None
      | [] => None
      end
  end.

(** [s] without its first character, if that is one of [codes]. *)
Fixpoint stripOne (codes : list (list nat)) (s : list ascii) : option (list ascii) :=
  match codes with
  | [] => None
  | p :: rest =>
      match stripCodes p s with
      | Some r => Some r
      | None => stripOne rest s
      end
  end.

Fixpoint dropWhile (codes : list (list nat)) (fuel : nat) (s : list ascii)
  : list ascii :=
  match fuel with
  | O => s
  | S fuel' =>
      match stripOne codes s with
      | Some r => dropWhile codes fuel' r
      | None => s
      end
  end.

Definition dropWhiteSpace (s : list ascii) : list ascii :=
  dropWhile whiteSpaceCodes (List.length s) s.

(** White space at the end is white space, byte-reversed, at the start of
    the reversed string. *)
Definition trimWhiteSpace (s : list ascii) : list ascii :=
  let r := rev (dropWhiteSpace s) in
  rev (dropWhile (map (@rev nat) whiteSpaceCodes) (List.length r) r).

(** The value of a digit in the given radix. *)
Definition digitValue (radix : N) (c : ascii) : option N :=
  let n := N_of_ascii c in
  let d :=
    if (48 <=? n)%N && (n <=? 57)%N then Some (n - 48)%N
    else if (97 <=? n)%N && (n <=? 102)%N then Some (n - 87)%N
    else if (65 <=? n)%N && (n <=? 70)%N then Some (n - 55)%N
    else None in
  match d with
  | Some v => if (v <? radix)%N then Some v else None
  | None => None
  end.

(** Reads the longest run of digits: its value, its length, and the rest. *)
Fixpoint readDigits (radix : N) (s : list ascii) (acc : N) (len : nat)
  : N * nat * list ascii :=
  match s with
  | c :: r =>
      match digitValue radix c with
      | Some d => readDigits radix r (acc * radix + d)%N (S len)
      | None => (acc, len, s)
      end
  | [] => (acc, len, [])
  end.

Definition isChar (c : ascii) (a b : string) : bool :=
  (String c EmptyString =? a) || (String c EmptyString =? b).

(** A run of digits in the radix and nothing else. *)
Definition radixLiteral (radix : N) (s : list ascii) : num :=
  match readDigits radix s 0 0 with
  | (n, S _, []) => ofZ (Z.of_N n)
  | _ => NaN
  end.

(** The exponent part, if any: [e] or [E], an optional sign, digits. *)
Definition readExponent (s : list ascii) : option Z :=
  match s with
  | [] => Some 0%Z
  | c :: r =>
      if isChar c "e" "E" then
        let '(neg, r') :=
          match r with
          | d :: r' =>
              if isChar d "-" "-" then (true, r')
              else if isChar d "+" "+" then (false, r')
              else (false, r)
          | [] => (false, r)
          end in
        match readDigits 10 r' 0 0 with
        | (n, S _, []) => Some (if neg then - Z.of_N n else Z.of_N n)%Z
        | _ => None
        end
      else None
  end.

(** An unsigned decimal literal; [None] when the text is not one. *)
Definition unsignedDecimal (s : list ascii) : option Q :=
  let '(ip, ilen, r1) := readDigits 10 s 0 0 in
  let '(fp, flen, r2) :=
    match r1 with
    | c :: r =>
        if isChar c "." "." then readDigits 10 r 0 0 else (0%N, 0%nat, r1)
    | [] => (0%N, 0%nat, r1)
    end in
  if (Nat.eqb ilen 0 && Nat.eqb flen 0)%bool then None
  else
    match readExponent r2 with
    | Some e =>
        Some ((inject_Z (Z.of_N ip)
               + inject_Z (Z.of_N fp) / Qpower 10 (Z.of_nat flen))
              * Qpower 10 e)%Q
    | None => None
    end.

Definition infinityText : list ascii := list_ascii_of_string "Infinity".

Definition list_ascii_eqb (a b : list ascii) : bool :=
  String.eqb (string_of_list_ascii a) (string_of_list_ascii b).

Definition unsignedNumeric (s : list ascii) : option num :=
  if list_ascii_eqb s infinityText then Some PInf
  else option_map fin (unsignedDecimal s).

Definition StringToNumber (text : string) : num :=
  let s := trimWhiteSpace (list_ascii_of_string text) in
  match s with
  | [] => lit 0
  | c :: r =>
      match r with
      | x :: digits =>
          if isChar c "0" "0" && isChar x "x" "X" then radixLiteral 16 digits
          else if isChar c "0" "0" && isChar x "o" "O" then radixLiteral 8 digits
          else if isChar c "0" "0" && isChar x "b" "B" then radixLiteral 2 digits
          else if isChar c "-" "-" then
                 match unsignedNumeric r with Some n => nneg n | None => NaN end
          else if isChar c "+" "+" then
                 match unsignedNumeric r with Some n => n | None => NaN end
          else match unsignedNumeric s with Some n => n | None => NaN end
      | [] => match unsignedNumeric s with Some n => n | None => NaN end
      end
  end.


(** [Boolean(v)]. *)
Definition ToBoolean (v : jsval) : bool :=
  match v with
  | VUndef | VNull => false
  | VBool b => b
  | VNum n => num_truthy n
  | VStr s => negb (s =? "")
  | VArr _ | VObj _ => true
  end.


(** [a || b] and [a ?? b]. *)
Definition js_or (a b : jsval) : jsval := if ToBoolean a then a else b.

Definition nullish (a b : jsval) : jsval :=
  match a with
  | VUndef | VNull => b
  | _ => a
  end.

(** [a === b].  Objects and arrays are compared by identity in JavaScript;
    the model has no identity, and treats two of them as different. *)
Definition StrictEquals (a b : jsval) : bool :=
  match a, b with
  | VUndef, VUndef | VNull, VNull => true
  | VBool x, VBool y => Bool.eqb x y
  | VNum x, VNum y => x === y
  | VStr x, VStr y => x =? y
  | _, _ => false
  end.


Fixpoint lookup (key : string) (fields : list (string * jsval)) : jsval :=
  match fields with
  | [] => VUndef
  | (k, v) :: rest => if k =? key then v else lookup key rest
  end.

(** [null] and [undefined]: the values a property read throws on. *)
Definition isNullish (v : jsval) : bool :=
  match v with
  | VUndef | VNull => true
  | _ => false
  end.

(** The outcome of an expression that may throw. *)
Inductive outcome (A : Type) : Type :=
| Ok (a : A)
| Thrown.
Arguments Ok {A} a.
Arguments Thrown {A}.

(** Sequencing: the first throw ends the evaluation. *)
Definition andThen {A B : Type} (o : outcome A) (k : A -> outcome B) : outcome B :=
  match o with
  | Ok a => k a
  | Thrown => Thrown
  end.

Declare Scope outcome_scope.
Delimit Scope outcome_scope with outcome.
Notation "x <- c ;; k" := (andThen c (fun x => k))
  (at level 61, c at next level, right associativity) : outcome_scope.

(** The value of an expression that did not throw; [d] stands for one that
    did. *)
Definition valueOr {A : Type} (d : A) (o : outcome A) : A :=
  match o with
  | Ok a => a
  | Thrown => d
  end.

(** [key] is an own property of the object. *)
Definition hasOwn (key : string) (fields : list (string * jsval)) : bool :=
  existsb (fun kv => fst kv =? key) fields.

(** [v.key], for the property names the handler reads: a TypeError on
    [null] and [undefined], the own property of an object, and [undefined]
    on everything else. *)
Definition getProp (v : jsval) (key : string) : outcome jsval :=
  match v with
  | VUndef | VNull => Thrown
  | VObj fields => Ok (lookup key fields)
  | _ => Ok VUndef
  end.

(* ===================================================================== *)
(** ** Link, colour and bandwidth tables *)
(* ===================================================================== *)

(** [type Coding = "8b10b" | "128b132b"]; the state holds the string. *)
Definition codingEfficiency (coding : string) : num :=
  if coding =? "8b10b" then lit 0.8 else lit 128 / lit 132.

Definition clamp (n lo hi : num) : num := Math_max lo (Math_min hi n).

(** [DP_PRESETS], without the display labels. *)
Record Preset : Type := mkPreset {
  preset_id : string;
  preset_rate : num;
  preset_coding : string;
  preset_lanes : num;
}.

Definition DP_PRESETS : list Preset :=
  [ mkPreset "custom" (lit 8.1) "8b10b" (lit 4);
    mkPreset "dp20_uhbr20" (lit 20.0) "128b132b" (lit 4);
    mkPreset "dp20_uhbr13_5" (lit 13.5) "128b132b" (lit 4);
    mkPreset "dp20_uhbr10" (lit 10.0) "128b132b" (lit 4);
    mkPreset "dp13_hbr3" (lit 8.1) "8b10b" (lit 4);
    mkPreset "dp12_hbr2" (lit 5.4) "8b10b" (lit 4);
    mkPreset "dp12_hbr" (lit 2.7) "8b10b" (lit 4);
    mkPreset "dp11_rbr" (lit 1.62) "8b10b" (lit 4) ].

Definition DP_PRESETS_0 : Preset := mkPreset "custom" (lit 8.1) "8b10b" (lit 4).

(** [DP_PRESETS.find(p => p.id === presetId) || DP_PRESETS[0]]. *)
Definition presetOf (presetId : string) : Preset :=
  match find (fun p => preset_id p =? presetId) DP_PRESETS with
  | Some p => p
  | None => DP_PRESETS_0
  end.

(** [COLOR_FORMATS]: the factor of each own key. *)
Definition COLOR_FORMATS : list (string * num) :=
  [ ("rgb", lit 3); ("yuv444", lit 3); ("yuv422", lit 2); ("yuv420", lit 1.5) ].

(** The property names every object inherits from [Object.prototype]; the
    [in] operator finds them too. *)
Definition ObjectPrototypeKeys : list string :=
  [ "constructor"; "hasOwnProperty"; "isPrototypeOf"; "propertyIsEnumerable";
    "toLocaleString"; "toString"; "valueOf"; "__proto__";
    "__defineGetter__"; "__defineSetter__"; "__lookupGetter__"; "__lookupSetter__" ].

Definition ownColorFormat (key : string) : option num :=
  option_map snd (find (fun e => fst e =? key) COLOR_FORMATS).

(** [key in COLOR_FORMATS]. *)
Definition inColorFormats (key : string) : bool :=
  match ownColorFormat key with
  | Some _ => true
  | None => existsb (String.eqb key) ObjectPrototypeKeys
  end.

Definition DEFAULT_BPC : num := lit 8.
Definition DEFAULT_COLOR_FORMAT : string := "rgb".

(** [(COLOR_FORMATS[key] ?? COLOR_FORMATS[DEFAULT_COLOR_FORMAT]).factor] as a
    number: the factor of an own key, the factor of RGB for a key that is
    absent, and NaN for an inherited member, which has no [factor]. *)
Definition formatFactor (key : string) : num :=
  match ownColorFormat key with
  | Some f => f
  | None => if inColorFormats key then NaN else lit 3
  end.

Definition LANE_OPTIONS : list num := [lit 1; lit 2; lit 4].

(** [LANE_OPTIONS.includes(n)]. *)
Definition laneIncluded (n : num) : bool := existsb (fun o => o === n) LANE_OPTIONS.

(** [LANE_OPTIONS[LANE_OPTIONS.length - 1]]. *)
Definition lastLaneOption : num := last LANE_OPTIONS NaN.

Definition pixelClockMHzFromTotals
    (h v hz hFront hSync hBack vFront vSync vBack : num) : num :=
  let hTotal := h + hFront + hSync + hBack in
  let vTotal := v + vFront + vSync + vBack in
  (hTotal * vTotal * hz) / lit 1e6.

Definition streamGbpsFromClock (clockMHz bpp : num) : num :=
  (clockMHz * lit 1e6 * bpp) / lit 1e9.

Definition utilColor (fits : bool) (marginPct : num) : string :=
  if negb fits then "bg-red-500"
  else if (marginPct <? lit 10)%J then "bg-amber-400"
  else "bg-emerald-500".

(* ===================================================================== *)
(** ** Application state *)
(* ===================================================================== *)

(** [interface TimingRow].  An optional field is [None] (or [VUndef]) when
    it is [undefined]; [id], [cvtKind] and [dscRatio] hold whatever value the
    import handler stored. *)
Module TimingRow.
Record t : Type := mk {
  id : jsval;
  label : string;
  peakBw : string;
  peakBwDsc : string;
  useDsc : bool;
  calcOpen : option bool;
  modeIndex : option num;
  cvtKind : jsval;
  h : option num;
  v : option num;
  hz : option num;
  hFront : option num;
  hSync : option num;
  hBack : option num;
  vFront : option num;
  vSync : option num;
  vBack : option num;
  bpp : option num;
  dscRatio : jsval;
  bpc : option num;
  colorFormat : option string;
  pixelClock : option num;
}.
End TimingRow.

Record AppState : Type := mkAppState {
  timings : list TimingRow.t;
  presetId : string;
  lanes : num;
  rate : num;
  coding : string;
}.

(* ===================================================================== *)
(** ** Aggregation: the derived values of [App] *)
(* ===================================================================== *)

(** A row of [parsed]: the timing with its two rates as numbers. *)
Record ParsedRow : Type := mkParsedRow {
  row : TimingRow.t;
  peak : num;
  peakDsc : num;
}.

(** [{ ...t, peak: Number(t.peakBw)||0, peakDsc: Number(t.peakBwDsc)||0 }]. *)
Definition parseRow (t : TimingRow.t) : ParsedRow :=
  mkParsedRow t
    (num_or (StringToNumber (TimingRow.peakBw t)) (lit 0))
    (num_or (StringToNumber (TimingRow.peakBwDsc t)) (lit 0)).

Definition parsed (timings : list TimingRow.t) : list ParsedRow := map parseRow timings.

(** [t.useDsc ? t.peakDsc : t.peak]. *)
Definition selectedRate (p : ParsedRow) : num :=
  if TimingRow.useDsc (row p) then peakDsc p else peak p.

(** A stream slot with the given rate texts and toggle, and no calculator
    field set. *)
Definition slot (peakBw peakBwDsc : string) (useDsc : bool) : TimingRow.t :=
  TimingRow.mk (VStr "slot") "Timing" peakBw peakBwDsc useDsc
    None None VUndef None None None None None None None None None
    None VUndef None None None.


Definition eff (st : AppState) : num := codingEfficiency (coding st).
Definition rawCapacityGbps (st : AppState) : num := rate st * lanes st.
Definition payloadCapacityGbps (st : AppState) : num := rawCapacityGbps st * eff st.

Definition totalGbps (st : AppState) : num :=
  fold_left (fun s t => s + selectedRate t) (parsed (timings st)) (lit 0).

Definition fits (st : AppState) : bool :=
  (totalGbps st <=? payloadCapacityGbps st + lit 1e-9)%J.

Definition margin (st : AppState) : num := payloadCapacityGbps st - totalGbps st.

Definition marginPct (st : AppState) : num :=
  if (payloadCapacityGbps st >? lit 0)%J
  then (margin st / payloadCapacityGbps st) * lit 100
  else lit 0.

Definition utilPct (st : AppState) : num :=
  clamp ((totalGbps st / Math_max (payloadCapacityGbps st) (lit 1e-6)) * lit 100)
    (lit 0) (lit 100).

Definition barColor (st : AppState) : string := utilColor (fits st) (marginPct st).

(* ===================================================================== *)
(** ** Export: the JSON value [exportJson] writes *)
(* ===================================================================== *)

(** [JSON.stringify] writes a number that is not finite as [null], drops a
    property whose value is [undefined], and writes [undefined] inside an
    array as [null]; reading the text back with [JSON.parse] gives the value
    below. *)
Definition jsonNumber (n : num) : jsval :=
  if Number_isFinite n then VNum n else VNull.

Fixpoint jsonValue (v : jsval) : jsval :=
  match v with
  | VNum n => jsonNumber n
  | VArr items =>
      VArr (map (fun e => match e with
                          | VUndef => VNull
                          | _ => jsonValue e
                          end) items)
  | VObj fields =>
      VObj ((fix props (l : list (string * jsval)) : list (string * jsval) :=
               match l with
               | [] => []
               | (k, VUndef) :: r => props r
               | (k, x) :: r => (k, jsonValue x) :: props r
               end) fields)
  | _ => v
  end.

Definition numProp (name : string) (o : option num) : list (string * jsval) :=
  match o with
  | Some n => [(name, jsonNumber n)]
  | None => []
  end.

Definition boolProp (name : string) (o : option bool) : list (string * jsval) :=
  match o with
  | Some b => [(name, VBool b)]
  | None => []
  end.

Definition strProp (name : string) (o : option string) : list (string * jsval) :=
  match o with
  | Some s => [(name, VStr s)]
  | None => []
  end.

Definition valProp (name : string) (v : jsval) : list (string * jsval) :=
  match v with
  | VUndef => []
  | _ => [(name, jsonValue v)]
  end.

(** One element of [parsed.map(({id,label,peakBw,peakBwDsc,useDsc,...rest}) =>
    ({id,label,peakBw,peakBwDsc,useDsc,...rest}))]. *)
Definition exportRow (p : ParsedRow) : jsval :=
  let t := row p in
  VObj (valProp "id" (TimingRow.id t)
        ++ [("label", VStr (TimingRow.label t));
            ("peakBw", VStr (TimingRow.peakBw t));
            ("peakBwDsc", VStr (TimingRow.peakBwDsc t));
            ("useDsc", VBool (TimingRow.useDsc t))]
        ++ boolProp "calcOpen" (TimingRow.calcOpen t)
        ++ numProp "modeIndex" (TimingRow.modeIndex t)
        ++ valProp "cvtKind" (TimingRow.cvtKind t)
        ++ numProp "h" (TimingRow.h t)
        ++ numProp "v" (TimingRow.v t)
        ++ numProp "hz" (TimingRow.hz t)
        ++ numProp "hFront" (TimingRow.hFront t)
        ++ numProp "hSync" (TimingRow.hSync t)
        ++ numProp "hBack" (TimingRow.hBack t)
        ++ numProp "vFront" (TimingRow.vFront t)
        ++ numProp "vSync" (TimingRow.vSync t)
        ++ numProp "vBack" (TimingRow.vBack t)
        ++ numProp "bpp" (TimingRow.bpp t)
        ++ valProp "dscRatio" (TimingRow.dscRatio t)
        ++ numProp "bpc" (TimingRow.bpc t)
        ++ strProp "colorFormat" (TimingRow.colorFormat t)
        ++ numProp "pixelClock" (TimingRow.pixelClock t)
        ++ [("peak", jsonNumber (peak p)); ("peakDsc", jsonNumber (peakDsc p))]).

(** [{ timings: ..., transport: {rate, lanes, coding, eff}, presetId }]. *)
Definition exportJson (st : AppState) : jsval :=
  VObj [ ("timings", VArr (map exportRow (parsed (timings st))));
         ("transport",
          VObj [ ("rate", jsonNumber (rate st));
                 ("lanes", jsonNumber (lanes st));
                 ("coding", VStr (coding st));
                 ("eff", jsonNumber (eff st)) ]);
         ("presetId", VStr (presetId st)) ].

(* ===================================================================== *)
(** ** State updates with exceptions *)
(* ===================================================================== *)

(** A handler threads the application state and may throw; the updates made
    before a throw stay made. *)
Definition M (A : Type) : Type := AppState -> outcome A * AppState.

Definition ret {A : Type} (a : A) : M A := fun st => (Ok a, st).

Definition bind {A B : Type} (c : M A) (k : A -> M B) : M B :=
  fun st =>
    match c st with
    | (Ok a, st') => k a st'
    | (Thrown, st') => (Thrown, st')
    end.

Definition lift {A : Type} (o : outcome A) : M A := fun st => (o, st).

Declare Scope handler_scope.
Delimit Scope handler_scope with handler.
Notation "x <- c ;; k" := (bind c (fun x => k))
  (at level 61, c at next level, right associativity) : handler_scope.
Notation "c ;; k" := (bind c (fun _ => k))
  (at level 61, right associativity) : handler_scope.

Definition setTimings (ts : list TimingRow.t) : M unit :=
  fun st => (Ok tt, mkAppState ts (presetId st) (lanes st) (rate st) (coding st)).

Definition setPresetId (p : string) : M unit :=
  fun st => (Ok tt, mkAppState (timings st) p (lanes st) (rate st) (coding st)).

Definition setLanes (n : num) : M unit :=
  fun st => (Ok tt, mkAppState (timings st) (presetId st) n (rate st) (coding st)).

Definition setRate (n : num) : M unit :=
  fun st => (Ok tt, mkAppState (timings st) (presetId st) (lanes st) n (coding st)).

Definition setCoding (c : string) : M unit :=
  fun st => (Ok tt, mkAppState (timings st) (presetId st) (lanes st) (rate st) c).

(** [React.useEffect(() => { setRate(preset.rate); setCoding(preset.coding);
    setLanes(preset.lanes); }, [presetId])]: the effect itself, and its run
    after an update that changed [presetId]. *)
Definition presetEffect (st : AppState) : AppState :=
  let p := presetOf (presetId st) in
  mkAppState (timings st) (presetId st) (preset_lanes p) (preset_rate p) (preset_coding p).

Definition settle (before after : AppState) : AppState :=
  if presetId before =? presetId after then after else presetEffect after.

(** [Number.prototype.toString], the one built-in the model leaves open: the
    text the host prints for a number. *)
Class Host : Type := { NumberToString : num -> string }.

Section Host.

Context {host : Host}.

(** [String(v)].  An object is converted by the [toString] it has or
    inherits, then by [valueOf]: a plain object prints [[object Object]], and
    an object with an own [toString] property, which no JSON value can make a
    function, is a TypeError.  An array prints its elements joined by
    commas, [null] and [undefined] as nothing, and throws when an element
    does. *)
Fixpoint ToString (v : jsval) : outcome string :=
  match v with
  | VUndef => Ok "undefined"
  | VNull => Ok "null"
  | VBool true => Ok "true"
  | VBool false => Ok "false"
  | VNum n => Ok (NumberToString n)
  | VStr s => Ok s
  | VArr items =>
      match
        (fix join (l : list jsval) : outcome (list string) :=
           match l with
           | [] => Ok []
           | e :: r =>
               match
                 match e with
                 | VUndef | VNull => Ok ""
                 | _ => ToString e
                 end
               with
               | Thrown => Thrown
               | Ok s =>
                   match join r with
                   | Thrown => Thrown
                   | Ok ss => Ok (s :: ss)
                   end
               end
           end) items
      with
      | Thrown => Thrown
      | Ok texts => Ok (String.concat "," texts)
      end
  | VObj fields => if hasOwn "toString" fields then Thrown else Ok "[object Object]"
  end.

(** [Number(v)]: an object or an array is converted to a string first, and
    throws when that does. *)
Definition ToNumber (v : jsval) : outcome num :=
  match v with
  | VUndef => Ok NaN
  | VNull => Ok (lit 0)
  | VBool true => Ok (lit 1)
  | VBool false => Ok (lit 0)
  | VNum n => Ok n
  | VStr s => Ok (StringToNumber s)
  | VArr _ | VObj _ =>
      match ToString v with
      | Ok s => Ok (StringToNumber s)
      | Thrown => Thrown
      end
  end.

(** The values [Number], [String] and the comparisons convert without a
    TypeError. *)
Definition coercible (v : jsval) : bool :=
  match ToString v with
  | Ok _ => true
  | Thrown => false
  end.

(** The number of a value that is coercible; NaN stands for the TypeError of
    one that is not. *)
Definition numberOf (v : jsval) : num := valueOr NaN (ToNumber v).

(** [t.dscRatio && t.dscRatio > 0 ? t.dscRatio : 3], the ratio [onChooseMode]
    and [computeAndFill] divide by, for a [dscRatio] that is coercible;
    [dscRatio > 0] compares [Number(dscRatio)]. *)
Definition dscRatioOrDefault (dscRatio : jsval) : jsval :=
  if ToBoolean dscRatio && (numberOf dscRatio >? lit 0)%J then dscRatio else VNum (lit 3).

(** [emptyTiming(i)] at the time [now] of [Date.now()]. *)
Definition emptyTiming (now : num) (i : nat) : TimingRow.t :=
  let index := ofZ (Z.of_nat i) in
  TimingRow.mk
    (VStr (NumberToString now ++ "_" ++ NumberToString index))
    ("Timing " ++ NumberToString (index + lit 1))
    "" "" true
    (Some false) (Some (lit 0)) (VStr "cvt_rb2")
    (Some (lit 3840)) (Some (lit 2160)) (Some (lit 144))
    (Some (hFront DEFAULT_PRESET_TIMING)) (Some (hSync DEFAULT_PRESET_TIMING))
    (Some (hBack DEFAULT_PRESET_TIMING))
    (Some (vFront DEFAULT_PRESET_TIMING)) (Some (vSync DEFAULT_PRESET_TIMING))
    (Some (vBack DEFAULT_PRESET_TIMING))
    (Some (DEFAULT_BPC * formatFactor DEFAULT_COLOR_FORMAT))
    (VNum (lit 3)) (Some DEFAULT_BPC) (Some DEFAULT_COLOR_FORMAT)
    (Some (pixelClockMHz DEFAULT_PRESET_TIMING)).

(** The state [App] starts in. *)
Definition initialState (now : num) : AppState :=
  let preset := presetOf "dp13_hbr3" in
  mkAppState [emptyTiming now 0] "dp13_hbr3"
    (preset_lanes preset) (preset_rate preset) (preset_coding preset).

(** [updateTiming]: [patch] is the merge [{...t, ...patch}]. *)
Definition updateTiming (id : jsval) (patch : TimingRow.t -> TimingRow.t) : M unit :=
  fun st =>
    setTimings
      (map (fun t => if StrictEquals (TimingRow.id t) id then patch t else t) (timings st))
      st.

Definition addTiming (now : num) : M unit :=
  fun st =>
    if (List.length (timings st) <? 4)%nat
    then setTimings (timings st ++ [emptyTiming now (List.length (timings st))]) st
    else ret tt st.

Definition removeTiming (id : jsval) : M unit :=
  fun st =>
    setTimings (filter (fun t => negb (StrictEquals (TimingRow.id t) id)) (timings st)) st.

(** *** Import *)

(** A property of a timing entry that is known not to be [null]. *)
Definition field (t : jsval) (key : string) : jsval :=
  match getProp t key with
  | Ok x => x
  | Thrown => VUndef
  end.

(** [Number.isFinite(n) ? n : undefined]. *)
Definition finiteOrUndefined (n : num) : option num :=
  if Number_isFinite n then Some n else None.

(** The callback of [j.timings.map]: one restored row.  Every property read
    of [t] throws when [t] is [null]; the first one, [t.colorFormat], is the
    read that does.  Each [Number(...)] and [String(...)] throws when its
    argument is not coercible. *)
Definition restoreRow (now : num) (t : jsval) (i : nat) : outcome TimingRow.t :=
  (colorFormat <- getProp t "colorFormat" ;;
   let importedFormat :=
     match colorFormat with
     | VStr s => if inColorFormats s then s else DEFAULT_COLOR_FORMAT
     | _ => DEFAULT_COLOR_FORMAT
     end in
   rawBpc <- ToNumber (field t "bpc") ;;
   let bpc :=
     if Number_isFinite rawBpc && (rawBpc >? lit 0)%J then rawBpc else DEFAULT_BPC in
   rawBpp <- ToNumber (field t "bpp") ;;
   let bpp :=
     if Number_isFinite rawBpp && (rawBpp >? lit 0)%J
     then rawBpp else bpc * formatFactor importedFormat in
   h <- ToNumber (field t "h") ;;
   v <- ToNumber (field t "v") ;;
   hz <- ToNumber (field t "hz") ;;
   hFront <- ToNumber (field t "hFront") ;;
   hSync <- ToNumber (field t "hSync") ;;
   hBack <- ToNumber (field t "hBack") ;;
   vFront <- ToNumber (field t "vFront") ;;
   vSync <- ToNumber (field t "vSync") ;;
   vBack <- ToNumber (field t "vBack") ;;
   let hasTotals :=
     forallb Number_isFinite [h; v; hz; hFront; hSync; hBack; vFront; vSync; vBack] in
   rawPixelClock <- ToNumber (field t "pixelClock") ;;
   let computedPixelClock :=
     if hasTotals
     then Some (pixelClockMHzFromTotals h v hz hFront hSync hBack vFront vSync vBack)
     else None in
   let pixelClock :=
     if Number_isFinite rawPixelClock && (rawPixelClock >? lit 0)%J
     then Some rawPixelClock else computedPixelClock in
   let index := ofZ (Z.of_nat i) in
   label <- ToString (nullish (field t "label")
                        (VStr ("Timing " ++ NumberToString (index + lit 1)))) ;;
   peakBw <- ToString (nullish (field t "peakBw") (VStr "")) ;;
   peakBwDsc <- ToString (nullish (field t "peakBwDsc") (VStr "")) ;;
   Ok (TimingRow.mk
         (js_or (field t "id")
            (VStr (NumberToString now ++ "_" ++ NumberToString index)))
         label peakBw peakBwDsc
         (ToBoolean (field t "useDsc"))
         (Some (ToBoolean (field t "calcOpen")))
         (match field t "modeIndex" with
          | VNum n => Some n
          | _ => Some (lit 0)
          end)
         (js_or (field t "cvtKind") (VStr "cvt_rb2"))
         (finiteOrUndefined h) (finiteOrUndefined v) (finiteOrUndefined hz)
         (finiteOrUndefined hFront) (finiteOrUndefined hSync) (finiteOrUndefined hBack)
         (finiteOrUndefined vFront) (finiteOrUndefined vSync) (finiteOrUndefined vBack)
         (Some bpp)
         (field t "dscRatio")
         (Some bpc)
         (Some importedFormat)
         pixelClock))%outcome.

(** [items.map((t, i) => ...)], from index [i] on: the first entry that
    throws ends the map. *)
Fixpoint restoreRows (now : num) (items : list jsval) (i : nat)
  : outcome (list TimingRow.t) :=
  match items with
  | [] => Ok []
  | t :: rest =>
      match restoreRow now t i with
      | Thrown => Thrown
      | Ok r =>
          match restoreRows now rest (S i) with
          | Thrown => Thrown
          | Ok rs => Ok (r :: rs)
          end
      end
  end.

(** The lane count an imported [transport.lanes] selects. *)
Definition laneOption (importedLanes : num) : num :=
  if laneIncluded importedLanes then importedLanes else lastLaneOption.

(** The body of the [try] block of [r.onload], given the outcome of
    [JSON.parse(String(r.result||"{}"))].  [Number(j.transport.rate)] and
    [Number(j.transport.lanes)] are evaluated after [setTimings], and the
    latter after [setRate]: a throw there leaves those updates made. *)
Definition onloadBody (now : num) (parseResult : outcome jsval) : M unit :=
  (fun render =>
     (j <- lift parseResult ;;
      jTimings <- lift (getProp j "timings") ;;
      (match jTimings with
       | VArr items =>
           restored <- lift (restoreRows now items 0) ;;
           let restored := firstn 4 restored in
           setTimings (match restored with
                       | [] => [emptyTiming now 0]
                       | _ => restored
                       end)
       | _ => ret tt
       end) ;;
      transport <- lift (getProp j "transport") ;;
      (if ToBoolean transport
       then
         importedRate <- lift (ToNumber (field transport "rate")) ;;
         setRate (num_or importedRate (rate render)) ;;
         importedLanes <- lift (ToNumber (field transport "lanes")) ;;
         setLanes (laneOption importedLanes) ;;
         setCoding (if StrictEquals (field transport "coding") (VStr "8b10b")
                    then "8b10b" else "128b/132b")
       else ret tt) ;;
      jPresetId <- lift (getProp j "presetId") ;;
      match jPresetId with
      | VStr s => setPresetId s
      | _ => ret tt
      end)%handler render).

(** [r.onload]: the [try] block, and [alert("Invalid JSON file.")] when it
    throws.  The result is the state after the handler and the alerts shown. *)
Definition onImport (now : num) (parseResult : outcome jsval) (st : AppState)
  : AppState * list string :=
  match onloadBody now parseResult st with
  | (Ok _, st') => (st', [])
  | (Thrown, st') => (st', ["Invalid JSON file."])
  end.

(** *** What an import does, section by section *)

(** The properties of a timing entry the callback converts with [Number] or
    [String]. *)
Definition coercedFields : list string :=
  [ "bpc"; "bpp"; "h"; "v"; "hz"; "hFront"; "hSync"; "hBack"; "vFront"; "vSync";
    "vBack"; "pixelClock"; "label"; "peakBw"; "peakBwDsc" ].

(** A timing entry the callback throws on: [null], or an entry with a
    converted property that is not coercible. *)
Definition malformedEntry (t : jsval) : bool :=
  isNullish t || existsb (fun key => negb (coercible (field t key))) coercedFields.

(** Where the handler stops. *)
Inductive ImportEnd : Type :=
| RejectedWhole      (* a throw before the first update *)
| StoppedAtRate      (* [Number(j.transport.rate)] throws, after [setTimings] *)
| StoppedAtLanes     (* [Number(j.transport.lanes)] throws, after [setRate] *)
| Applied.           (* no throw *)

Definition importEnd (parseResult : outcome jsval) : ImportEnd :=
  match parseResult with
  | Thrown => RejectedWhole
  | Ok j =>
      if isNullish j then RejectedWhole
      else if match field j "timings" with
              | VArr items => existsb malformedEntry items
              | _ => false
              end
      then RejectedWhole
      else
        let transport := field j "transport" in
        if ToBoolean transport && negb (coercible (field transport "rate"))
        then StoppedAtRate
        else if ToBoolean transport && negb (coercible (field transport "lanes"))
        then StoppedAtLanes
        else Applied
  end.

(** The alerts of an import that ends in [e]. *)
Definition alertsOf (e : ImportEnd) : list string :=
  match e with
  | Applied => []
  | _ => ["Invalid JSON file."]
  end.


(** The timings an import with well-formed entries stores: the first four
    restored rows of a [timings] array, one empty timing for an empty array,
    and the rows as they were when [timings] is no array. *)
Definition importedTimings (now : num) (j : jsval) (st : AppState)
  : list TimingRow.t :=
  match field j "timings" with
  | VArr items =>
      match restoreRows now items 0 with
      | Ok restored =>
          match firstn 4 restored with
          | [] => [emptyTiming now 0]
          | kept => kept
          end
      | Thrown => timings st
      end
  | _ => timings st
  end.

(** The rate a truthy [transport] sets: [Number(j.transport.rate) || rate]. *)
Definition importedRate (j : jsval) (st : AppState) : num :=
  num_or (numberOf (field (field j "transport") "rate")) (rate st).

(** The state after an import that did not throw: each of [timings],
    [transport] and [presetId] is applied when the payload has it, and left
    alone otherwise. *)
Definition importedState (now : num) (j : jsval) (st : AppState) : AppState :=
  let transport := field j "transport" in
  mkAppState
    (importedTimings now j st)
    (match field j "presetId" with
     | VStr s => s
     | _ => presetId st
     end)
    (if ToBoolean transport
     then laneOption (numberOf (field transport "lanes"))
     else lanes st)
    (if ToBoolean transport then importedRate j st else rate st)
    (if ToBoolean transport
     then (if StrictEquals (field transport "coding") (VStr "8b10b")
           then "8b10b" else "128b/132b")
     else coding st).

(** The state a throwing import leaves: nothing changed, the timings
    stored, or the timings and the rate stored. *)
Definition stoppedState (now : num) (j : jsval) (st : AppState) (e : ImportEnd)
  : AppState :=
  match e with
  | RejectedWhole => st
  | StoppedAtRate =>
      mkAppState (importedTimings now j st) (presetId st) (lanes st) (rate st)
        (coding st)
  | StoppedAtLanes =>
      mkAppState (importedTimings now j st) (presetId st) (lanes st)
        (importedRate j st) (coding st)
  | Applied => importedState now j st
  end.


(** *** Round trip *)

(** A numeric field a state exports as it is: unset, or a finite number. *)
Definition finiteOrUnset (o : option num) : Prop :=
  match o with
  | Some n => Number_isFinite n = true
  | None => True
  end.

(** A row as the interface types it: a generation profile that is a
    non-empty string, and finite numbers for the timing fields that are set. *)
Definition wellTyped (r : TimingRow.t) : Prop :=
  (exists k : string, TimingRow.cvtKind r = VStr k /\ k <> "")
  /\ finiteOrUnset (TimingRow.h r) /\ finiteOrUnset (TimingRow.v r)
  /\ finiteOrUnset (TimingRow.hz r)
  /\ finiteOrUnset (TimingRow.hFront r) /\ finiteOrUnset (TimingRow.hSync r)
  /\ finiteOrUnset (TimingRow.hBack r)
  /\ finiteOrUnset (TimingRow.vFront r) /\ finiteOrUnset (TimingRow.vSync r)
  /\ finiteOrUnset (TimingRow.vBack r).

(** The fields the round trip is to reproduce: profile, active resolution
    and refresh, the six blanking fields, and the selected rates. *)
Definition sameTiming (a b : TimingRow.t) : Prop :=
  TimingRow.cvtKind a = TimingRow.cvtKind b
  /\ TimingRow.h a = TimingRow.h b /\ TimingRow.v a = TimingRow.v b
  /\ TimingRow.hz a = TimingRow.hz b
  /\ TimingRow.hFront a = TimingRow.hFront b /\ TimingRow.hSync a = TimingRow.hSync b
  /\ TimingRow.hBack a = TimingRow.hBack b
  /\ TimingRow.vFront a = TimingRow.vFront b /\ TimingRow.vSync a = TimingRow.vSync b
  /\ TimingRow.vBack a = TimingRow.vBack b
  /\ TimingRow.peakBw a = TimingRow.peakBw b
  /\ TimingRow.peakBwDsc a = TimingRow.peakBwDsc b
  /\ TimingRow.useDsc a = TimingRow.useDsc b.

(** *** The transitions of the application *)


End Host.

(* ===================================================================== *)
(** ** A host for the examples *)
(* ===================================================================== *)

(** [Number.prototype.toString] on the integers a session meets (time stamps
    and row indices), in decimal; the special values by name.  On any other
    number the text is the fraction in lowest terms, which stands for the
    digits a host prints. *)
Definition integerText (n : num) : string :=
  match n with
  | NaN => "NaN"
  | PInf => "Infinity"
  | NInf => "-Infinity"
  | Fin q =>
      let r := Qred q in
      match Qden r with
      | xH => NilZero.string_of_int (Z.to_int (Qnum r))
      | d => NilZero.string_of_int (Z.to_int (Qnum r)) ++ "/"
             ++ NilZero.string_of_int (Z.to_int (Zpos d))
      end
  end.

Definition integerHost : Host := {| NumberToString := integerText |}.

(* ===================================================================== *)
(** ** The calculator: [onChooseMode] and [computeAndFill] *)
(* ===================================================================== *)

(** [PREDEFINED_MODES], without the display labels. *)
Record PredefinedMode : Type := mkPredefinedMode {
  mode_h : num;
  mode_v : num;
  mode_hz : num;
}.

Definition PREDEFINED_MODES : list PredefinedMode :=
  [ mkPredefinedMode (lit 1920) (lit 1080) (lit 60);
    mkPredefinedMode (lit 1920) (lit 1080) (lit 144);
    mkPredefinedMode (lit 2560) (lit 1440) (lit 60);
    mkPredefinedMode (lit 2560) (lit 1440) (lit 144);
    mkPredefinedMode (lit 3440) (lit 1440) (lit 144);
    mkPredefinedMode (lit 3840) (lit 2160) (lit 60);
    mkPredefinedMode (lit 3840) (lit 2160) (lit 120);
    mkPredefinedMode (lit 3840) (lit 2160) (lit 144);
    mkPredefinedMode (lit 3840) (lit 2160) (lit 240);
    mkPredefinedMode (lit 5120) (lit 1440) (lit 120) ].

(** [PREDEFINED_MODES[modeIdx]]: the element at an index that is a whole
    number within the array, [undefined] (here [None]) at any other number. *)
Definition modeAt (modeIdx : num) : option PredefinedMode :=
  match modeIdx with
  | Fin q =>
      if Qeq_bool q (inject_Z (Qfloor q)) && (0 <=? Qfloor q)%Z
      then nth_error PREDEFINED_MODES (Z.to_nat (Qfloor q))
      else None
  | _ => None
  end.

(** [Number(o)] and [o ?? d] for an optional numeric field. *)
Definition optNumber (o : option num) : num :=
  match o with
  | Some n => n
  | None => NaN
  end.

Definition orElse (o : option num) (d : num) : num :=
  match o with
  | Some n => n
  | None => d
  end.

(** [t.colorFormat || DEFAULT_COLOR_FORMAT]. *)
Definition colorFormatOrDefault (o : option string) : string :=
  match o with
  | Some s => if s =? "" then DEFAULT_COLOR_FORMAT else s
  | None => DEFAULT_COLOR_FORMAT
  end.

(** The patches of the inputs H, V and Hz, [updateTiming(t.id, {h: n})] and
    its two twins, applied together; and the patch [{modeIndex: i}]. *)
Definition withActive (h v hz : num) (r : TimingRow.t) : TimingRow.t :=
  TimingRow.mk (TimingRow.id r) (TimingRow.label r) (TimingRow.peakBw r)
    (TimingRow.peakBwDsc r) (TimingRow.useDsc r) (TimingRow.calcOpen r)
    (TimingRow.modeIndex r) (TimingRow.cvtKind r) (Some h) (Some v) (Some hz)
    (TimingRow.hFront r) (TimingRow.hSync r) (TimingRow.hBack r)
    (TimingRow.vFront r) (TimingRow.vSync r) (TimingRow.vBack r)
    (TimingRow.bpp r) (TimingRow.dscRatio r) (TimingRow.bpc r)
    (TimingRow.colorFormat r) (TimingRow.pixelClock r).

Definition withModeIndex (i : num) (r : TimingRow.t) : TimingRow.t :=
  TimingRow.mk (TimingRow.id r) (TimingRow.label r) (TimingRow.peakBw r)
    (TimingRow.peakBwDsc r) (TimingRow.useDsc r) (TimingRow.calcOpen r)
    (Some i) (TimingRow.cvtKind r) (TimingRow.h r) (TimingRow.v r) (TimingRow.hz r)
    (TimingRow.hFront r) (TimingRow.hSync r) (TimingRow.hBack r)
    (TimingRow.vFront r) (TimingRow.vSync r) (TimingRow.vBack r)
    (TimingRow.bpp r) (TimingRow.dscRatio r) (TimingRow.bpc r)
    (TimingRow.colorFormat r) (TimingRow.pixelClock r).

(** The patch [{cvtKind: next}]. *)
Definition withKind (next : string) (r : TimingRow.t) : TimingRow.t :=
  TimingRow.mk (TimingRow.id r) (TimingRow.label r) (TimingRow.peakBw r)
    (TimingRow.peakBwDsc r) (TimingRow.useDsc r) (TimingRow.calcOpen r)
    (TimingRow.modeIndex r) (VStr next) (TimingRow.h r) (TimingRow.v r) (TimingRow.hz r)
    (TimingRow.hFront r) (TimingRow.hSync r) (TimingRow.hBack r)
    (TimingRow.vFront r) (TimingRow.vSync r) (TimingRow.vBack r)
    (TimingRow.bpp r) (TimingRow.dscRatio r) (TimingRow.bpc r)
    (TimingRow.colorFormat r) (TimingRow.pixelClock r).

(** *** The generator at the type its callers use

    [onChooseMode] and [computeAndFill] pass [kind as CvtProfile], where
    [kind] is whatever value the row's [cvtKind] holds.  [profileParams] is
    the case the [switch] takes ([default] with [cvt_rb2]); [profileLayout]
    is the arm the tests [reducedBlanking === "cvt"] and
    [reducedBlanking === "cvt_rb2"] select. *)
Definition profileParams (reducedBlanking : jsval) : CvtProfile :=
  if StrictEquals reducedBlanking (VStr "cvt") then cvt
  else if StrictEquals reducedBlanking (VStr "cvt_rb") then cvt_rb
  else cvt_rb2.

Definition profileLayout (reducedBlanking : jsval) : CvtProfile :=
  if StrictEquals reducedBlanking (VStr "cvt") then cvt
  else if StrictEquals reducedBlanking (VStr "cvt_rb2") then cvt_rb2
  else cvt_rb.

Definition calculateCvtTimingOf (reducedBlanking : jsval)
    (hActive vActive refreshHz : num) (margins interlaced videoOptimized : bool)
  : CvtTimingResult :=
  let cp := clockParams (profileParams reducedBlanking) videoOptimized in
  let cellGran := Math_floor CVT_CELL_GRAN in
  let fieldRateRequired := if interlaced then refreshHz * lit 2 else refreshHz in
  let hPixelsRounded := Math_floor (hActive / cellGran) * cellGran in
  let leftMargin :=
    if margins
    then Math_floor ((hPixelsRounded * CVT_MARGIN_PERCENT / lit 100) / cellGran) * cellGran
    else lit 0 in
  let totalActivePixels := hPixelsRounded + leftMargin * lit 2 in
  let vLinesRounded :=
    if interlaced then Math_floor (vActive / lit 2) else Math_floor vActive in
  let topMargin :=
    if margins then Math_floor (vLinesRounded * CVT_MARGIN_PERCENT / lit 100) else lit 0 in
  let bottomMargin := topMargin in
  let interlaceFactor := if interlaced then lit 0.5 else lit 0 in
  let verPixels := if interlaced then lit 2 * vLinesRounded else vLinesRounded in
  let aspect := aspectRatio cellGran verPixels hPixelsRounded in
  let vSyncRounded := vSyncRounded (profileLayout reducedBlanking) aspect in
  match profileLayout reducedBlanking with
  | cvt =>
      standardArm cp cellGran fieldRateRequired totalActivePixels vLinesRounded
        topMargin bottomMargin interlaceFactor vSyncRounded
  | layout =>
      reducedArm layout cp fieldRateRequired totalActivePixels vLinesRounded
        topMargin bottomMargin interlaceFactor vSyncRounded
  end.

(** The pixel depth agrees with the row's own bits per component and colour
    format: [bpp = (bpc || 8) * factor]. *)
Definition depthConsistent (r : TimingRow.t) : Prop :=
  TimingRow.bpp r
  = Some (num_or (optNumber (TimingRow.bpc r)) DEFAULT_BPC
          * formatFactor (colorFormatOrDefault (TimingRow.colorFormat r))).

(** *** The values a timing card shows *)

(** [(t.hFront??0)+(t.hSync??0)+(t.hBack??0)] and its vertical twin. *)
Definition shownHBlank (t : TimingRow.t) : num :=
  orElse (TimingRow.hFront t) (lit 0) + orElse (TimingRow.hSync t) (lit 0)
  + orElse (TimingRow.hBack t) (lit 0).

Definition shownVBlank (t : TimingRow.t) : num :=
  orElse (TimingRow.vFront t) (lit 0) + orElse (TimingRow.vSync t) (lit 0)
  + orElse (TimingRow.vBack t) (lit 0).

(** [derivedPixelClock]: the stored clock, or the clock of the stored totals
    when the active size and the refresh rate are positive. *)
Definition derivedPixelClock (t : TimingRow.t) : option num :=
  let activeH := num_or (optNumber (TimingRow.h t)) (lit 0) in
  let activeV := num_or (optNumber (TimingRow.v t)) (lit 0) in
  let refreshValue := num_or (optNumber (TimingRow.hz t)) (lit 0) in
  let frontPorchH := num_or (optNumber (TimingRow.hFront t)) (lit 0) in
  let syncWidthH := num_or (optNumber (TimingRow.hSync t)) (lit 0) in
  let backPorchH := num_or (optNumber (TimingRow.hBack t)) (lit 0) in
  let frontPorchV := num_or (optNumber (TimingRow.vFront t)) (lit 0) in
  let syncWidthV := num_or (optNumber (TimingRow.vSync t)) (lit 0) in
  let backPorchV := num_or (optNumber (TimingRow.vBack t)) (lit 0) in
  match TimingRow.pixelClock t with
  | Some pixelClockRaw => Some pixelClockRaw
  | None =>
      if (activeH >? lit 0)%J && (activeV >? lit 0)%J && (refreshValue >? lit 0)%J
      then Some (pixelClockMHzFromTotals activeH activeV refreshValue
                   frontPorchH syncWidthH backPorchH frontPorchV syncWidthV backPorchV)
      else None
  end.

Definition normalizedPixelClock (t : TimingRow.t) : option num :=
  match derivedPixelClock t with
  | Some n => if Number_isFinite n && (n >? lit 0)%J then Some n else None
  | None => None
  end.

(** *** The chart *)

(** A row of [chartRows]. *)
Record ChartRow : Type := mkChartRow {
  name : string;
  selected : num;
  raw : num;
}.

(** [t.label || Timing]: the label when it is not empty.  [Timing] is no
    binding of the module, so evaluating it, for an empty label, is a
    ReferenceError. *)
Definition chartName (label : string) : outcome string :=
  if label =? "" then Thrown else Ok label.

(** [parsed.map(...)]: the first row that throws ends the map. *)
Fixpoint chartRowsOf (rows : list ParsedRow) : outcome (list ChartRow) :=
  match rows with
  | [] => Ok []
  | t :: rest =>
      (name <- chartName (TimingRow.label (row t)) ;;
       rows' <- chartRowsOf rest ;;
       Ok (mkChartRow name (selectedRate t) (peak t) :: rows'))%outcome
  end.

Definition chartRows (st : AppState) : outcome (list ChartRow) :=
  chartRowsOf (parsed (timings st)).

Definition chartData (st : AppState) : outcome (list ChartRow) :=
  (rows <- chartRows st ;;
   Ok (match rows with
       | [] => [mkChartRow "Timing 1" (lit 0) (lit 0)]
       | _ => rows
       end))%outcome.

(** [chartData.reduce((max, row) => Math.max(max, row.selected, row.raw), 0)]. *)
Definition chartPeak (st : AppState) : outcome num :=
  (data <- chartData st ;;
   Ok (fold_left (fun max row => Math_max (Math_max max (selected row)) (raw row))
         data (lit 0)))%outcome.

Definition chartDomainUpper (st : AppState) : outcome num :=
  (peak <- chartPeak st ;;
   Ok (if (peak >? lit 0)%J || (payloadCapacityGbps st >? lit 0)%J
       then Math_max peak (payloadCapacityGbps st) * lit 1.1
       else lit 1))%outcome.

(** *** [Number.prototype.toFixed] *)

Definition digitChar (d : N) : ascii := ascii_of_N (48 + d).

(** The last [f] decimal digits of [n], in front of [acc]. *)
Fixpoint lastDigits (f : nat) (n : N) (acc : list ascii) : list ascii :=
  match f with
  | O => acc
  | S f' => lastDigits f' (n / 10)%N (digitChar (n mod 10)%N :: acc)
  end.

(** The decimal digits of [n], in front of [acc]; [fuel] bounds their
    number. *)
Fixpoint leadDigits (fuel : nat) (n : N) (acc : list ascii) : list ascii :=
  match fuel with
  | O => acc
  | S fuel' =>
      if (n <? 10)%N then digitChar n :: acc
      else leadDigits fuel' (n / 10)%N (digitChar (n mod 10)%N :: acc)
  end.

(** [n] in decimal, without leading zeros ([0] for zero). *)
Definition integerDigits (n : N) : list ascii :=
  leadDigits (S (N.to_nat (N.log2 n))) n [].

(** The digits of [n / 10^f] with [f] decimals: the integer part, and the
    fraction padded with zeros to [f] digits. *)
Definition fixedDigits (f : nat) (n : N) : string :=
  string_of_list_ascii
    (integerDigits (n / 10 ^ N.of_nat f)
     ++ match f with
        | O => []
        | S _ => "."%char :: lastDigits f n []
        end).

(** The integer nearest to [a * 10^f], the larger one of two. *)
Definition scaledNearest (f : nat) (a : Q) : N :=
  Z.to_N (Qfloor (a * inject_Z (10 ^ Z.of_nat f) + (1 # 2))).


Section Calculator.

Context {host : Host}.

(** [x.toFixed(f)] for [f] up to 100: a sign, then the digits of the nearest
    multiple of [10^-f]; the host's text for a number that is not finite or
    is at least [10^21]. *)
Definition toFixed (x : num) (f : nat) : string :=
  match x with
  | Fin q =>
      let s := match (q ?= 0)%Q with Lt => "-" | _ => "" end in
      let a := Qabs q in
      if Qle_bool (inject_Z (10 ^ 21)) a
      then s ++ NumberToString (fin a)
      else s ++ fixedDigits f (scaledNearest f a)
  | _ => NumberToString x
  end.

(** [onChooseMode(t, modeIdx)], from the row [t] of the render it was bound
    in.  Reading [m.h] throws when [modeIdx] is no index of
    [PREDEFINED_MODES]; every path reads it before [updateTiming]. *)
Definition onChooseMode (t : TimingRow.t) (modeIdx : num) : M unit :=
  match modeAt modeIdx with
  | None => lift Thrown
  | Some m =>
      let kind := js_or (TimingRow.cvtKind t) (VStr "cvt_rb2") in
      let bpc := num_or (optNumber (TimingRow.bpc t)) DEFAULT_BPC in
      let colorFormat := colorFormatOrDefault (TimingRow.colorFormat t) in
      let factor := formatFactor colorFormat in
      let ratio := dscRatioOrDefault (TimingRow.dscRatio t) in
      let timingResult :=
        if negb (StrictEquals kind (VStr "manual"))
        then Some (calculateCvtTimingOf kind (mode_h m) (mode_v m) (mode_hz m)
                     false false false)
        else None in
      let hFront :=
        match timingResult with
        | Some r => hFront r
        | None => orElse (TimingRow.hFront t) (lit 8)
        end in
      let hSync :=
        match timingResult with
        | Some r => hSync r
        | None => orElse (TimingRow.hSync t) (lit 32)
        end in
      let hBack :=
        match timingResult with
        | Some r => hBack r
        | None => orElse (TimingRow.hBack t) (lit 120)
        end in
      let vFront :=
        match timingResult with
        | Some r => vFront r
        | None => orElse (TimingRow.vFront t) (lit 3)
        end in
      let vSync :=
        match timingResult with
        | Some r => vSync r
        | None => orElse (TimingRow.vSync t) (lit 6)
        end in
      let vBack :=
        match timingResult with
        | Some r => vBack r
        | None => orElse (TimingRow.vBack t) (lit 9)
        end in
      let pixelClock :=
        match timingResult with
        | Some r => pixelClockMHz r
        | None =>
            pixelClockMHzFromTotals (mode_h m) (mode_v m) (mode_hz m)
              hFront hSync hBack vFront vSync vBack
        end in
      let bpp := bpc * factor in
      let peak := streamGbpsFromClock pixelClock bpp in
      let peakDsc := peak / numberOf ratio in
      updateTiming (TimingRow.id t)
        (fun r =>
           TimingRow.mk (TimingRow.id r) (TimingRow.label r)
             (toFixed peak 4) (toFixed peakDsc 4) (TimingRow.useDsc r)
             (TimingRow.calcOpen r) (Some modeIdx) (TimingRow.cvtKind r)
             (Some (mode_h m)) (Some (mode_v m)) (Some (mode_hz m))
             (Some hFront) (Some hSync) (Some hBack)
             (Some vFront) (Some vSync) (Some vBack)
             (Some bpp) ratio (Some bpc) (Some colorFormat) (Some pixelClock))
  end.

(** The handler of the Generator Select: the patch [{cvtKind: next}], then
    [onChooseMode({...t, cvtKind: next}, t.modeIndex)] when the row has a
    mode index. *)
Definition onGeneratorChange (t : TimingRow.t) (next : string) : M unit :=
  (updateTiming (TimingRow.id t) (withKind next) ;;
   match TimingRow.modeIndex t with
   | Some modeIdx => onChooseMode (withKind next t) modeIdx
   | None => ret tt
   end)%handler.

(** The callback of [computeAndFill] on the row with the given id. *)
Definition recompute (t : TimingRow.t) : TimingRow.t :=
  let h := num_or (optNumber (TimingRow.h t)) (lit 1920) in
  let v := num_or (optNumber (TimingRow.v t)) (lit 1080) in
  let hz := num_or (optNumber (TimingRow.hz t)) (lit 60) in
  let kind := js_or (TimingRow.cvtKind t) (VStr "cvt_rb2") in
  let bpc := num_or (optNumber (TimingRow.bpc t)) DEFAULT_BPC in
  let colorFormat := colorFormatOrDefault (TimingRow.colorFormat t) in
  let factor := formatFactor colorFormat in
  let ratio := dscRatioOrDefault (TimingRow.dscRatio t) in
  let '(hFront, hSync, hBack, vFront, vSync, vBack, pixelClock) :=
    if StrictEquals kind (VStr "manual")
    then
      let hFront := num_or (optNumber (TimingRow.hFront t)) (lit 8) in
      let hSync := num_or (optNumber (TimingRow.hSync t)) (lit 32) in
      let hBack := num_or (optNumber (TimingRow.hBack t)) (lit 120) in
      let vFront := num_or (optNumber (TimingRow.vFront t)) (lit 3) in
      let vSync := num_or (optNumber (TimingRow.vSync t)) (lit 6) in
      let vBack := num_or (optNumber (TimingRow.vBack t)) (lit 9) in
      (hFront, hSync, hBack, vFront, vSync, vBack,
       pixelClockMHzFromTotals h v hz hFront hSync hBack vFront vSync vBack)
    else
      let result := calculateCvtTimingOf kind h v hz false false false in
      (hFront result, hSync result, hBack result,
       vFront result, vSync result, vBack result, pixelClockMHz result) in
  let bpp := bpc * factor in
  let peak := streamGbpsFromClock pixelClock bpp in
  let peakDsc := peak / numberOf ratio in
  TimingRow.mk (TimingRow.id t) (TimingRow.label t)
    (toFixed peak 4) (toFixed peakDsc 4) (TimingRow.useDsc t)
    (TimingRow.calcOpen t) (TimingRow.modeIndex t) (TimingRow.cvtKind t)
    (Some h) (Some v) (Some hz)
    (Some hFront) (Some hSync) (Some hBack)
    (Some vFront) (Some vSync) (Some vBack)
    (Some bpp) ratio (Some bpc) (Some colorFormat) (Some pixelClock).

(** The handlers of the two Selects of the pixel depth: bits per component
    and colour format, given the option chosen. *)
Definition onBpcChange (t : TimingRow.t) (value : string) : M unit :=
  let nextBpc := num_or (StringToNumber value) DEFAULT_BPC in
  let formatKey := colorFormatOrDefault (TimingRow.colorFormat t) in
  let factor := formatFactor formatKey in
  updateTiming (TimingRow.id t)
    (fun r =>
       TimingRow.mk (TimingRow.id r) (TimingRow.label r) (TimingRow.peakBw r)
         (TimingRow.peakBwDsc r) (TimingRow.useDsc r) (TimingRow.calcOpen r)
         (TimingRow.modeIndex r) (TimingRow.cvtKind r)
         (TimingRow.h r) (TimingRow.v r) (TimingRow.hz r)
         (TimingRow.hFront r) (TimingRow.hSync r) (TimingRow.hBack r)
         (TimingRow.vFront r) (TimingRow.vSync r) (TimingRow.vBack r)
         (Some (nextBpc * factor)) (TimingRow.dscRatio r) (Some nextBpc)
         (TimingRow.colorFormat r) (TimingRow.pixelClock r)).

Definition onColorFormatChange (t : TimingRow.t) (value : string) : M unit :=
  let formatKey := value in
  let bpc := num_or (optNumber (TimingRow.bpc t)) DEFAULT_BPC in
  let factor := formatFactor formatKey in
  updateTiming (TimingRow.id t)
    (fun r =>
       TimingRow.mk (TimingRow.id r) (TimingRow.label r) (TimingRow.peakBw r)
         (TimingRow.peakBwDsc r) (TimingRow.useDsc r) (TimingRow.calcOpen r)
         (TimingRow.modeIndex r) (TimingRow.cvtKind r)
         (TimingRow.h r) (TimingRow.v r) (TimingRow.hz r)
         (TimingRow.hFront r) (TimingRow.hSync r) (TimingRow.hBack r)
         (TimingRow.vFront r) (TimingRow.vSync r) (TimingRow.vBack r)
         (Some (bpc * factor)) (TimingRow.dscRatio r) (TimingRow.bpc r)
         (Some formatKey) (TimingRow.pixelClock r)).

Definition computeAndFill (id : jsval) : M unit :=
  fun st =>
    setTimings
      (map (fun t => if negb (StrictEquals (TimingRow.id t) id) then t else recompute t)
         (timings st))
      st.

End Calculator.
(* ===================================================================== *)
(** * The program in binary64 arithmetic *)
(* ===================================================================== *)

(** The timing generator, [Number] of a string and the aggregation once
    more, over the doubles the program computes with ([PrimFloat.float]:
    IEEE 754 binary64, round to nearest, ties to even).  The text follows the
    source as above; a decimal literal stands for the nearest double, as it
    does in JavaScript. *)

Module Binary64.

#[local] Set Warnings "-inexact-float".
Local Open Scope float_scope.

(** ** Numbers *)

(** [m * 2^e] is a whole number. *)
Definition integral (m : positive) (e : Z) : bool :=
  ((0 <=? e)%Z || (Z.land (Zpos m) (Z.ones (- e)) =? 0)%Z)%bool.

(** The double of a whole number below 2^53 in magnitude. *)
Definition ofInteger (z : Z) : float :=
  match z with
  | Z0 => 0
  | Zpos p => of_uint63 (Uint63.of_Z (Zpos p))
  | Zneg p => - of_uint63 (Uint63.of_Z (Zpos p))
  end.

(** [Math.floor]: a whole number, a zero, an infinity and NaN are returned as
    they are; any other double [(-1)^s * m * 2^e] has [e < 0] and a floor
    below 2^53 in magnitude. *)
Definition Math_floor (x : float) : float :=
  match Prim2SF x with
  | S754_finite s m e =>
      if integral m e then x
      else ofInteger (Z.shiftr (cond_Zopp s (Zpos m)) (- e))
  | _ => x
  end.

(** [Math.round]: the nearest whole number, a tie going up; a result that
    is zero keeps the sign of [x]. *)
Definition Math_round (x : float) : float :=
  match Prim2SF x with
  | S754_finite s m e =>
      if integral m e then x
      else
        let z := Z.shiftr (cond_Zopp s (Zpos m) + Z.shiftl 1 (- e - 1)) (- e) in
        if ((z =? 0)%Z && s)%bool then -0 else ofInteger z
  | _ => x
  end.

Definition Number_isFinite (x : float) : bool := negb (is_nan x || is_infinity x).

(** Truthiness of a number: NaN and the two zeros are falsy. *)
Definition num_truthy (x : float) : bool := negb (is_nan x || is_zero x).

(** [a || b] on numbers. *)
Definition num_or (a b : float) : float := if num_truthy a then a else b.

(** The double nearest to the positive rational [n / d], ties to even; past
    the largest double it is [Infinity]. *)
Definition nearestPositive (n d : positive) : float :=
  let l0 := (Z.log2 (Zpos n) - Z.log2 (Zpos d))%Z in
  (* l = floor (log2 (n / d)) *)
  let l :=
    if (if (0 <=? l0)%Z then (Zpos d * 2 ^ l0 <=? Zpos n)%Z
        else (Zpos d <=? Zpos n * 2 ^ (- l0))%Z)
    then l0 else (l0 - 1)%Z in
  (* the exponent of the last place: 53 significant bits, or 2^-1074 *)
  let e := Z.max (l - 52) (-1074) in
  let '(a, b) :=
    if (e <? 0)%Z then (Zpos n * 2 ^ (- e), Zpos d)%Z else (Zpos n, Zpos d * 2 ^ e)%Z in
  let q := (a / b)%Z in
  let r := (a mod b)%Z in
  let m :=
    match (2 * r ?= b)%Z with
    | Lt => q
    | Gt => (q + 1)%Z
    | Eq => if Z.even q then q else (q + 1)%Z
    end in
  Z.ldexp (of_uint63 (Uint63.of_Z m)) e.

Definition ofRational (q : Q) : float :=
  match Qnum q with
  | Z0 => 0
  | Zpos n => nearestPositive n (Qden q)
  | Zneg n => - nearestPositive n (Qden q)
  end.

(** *** [Number(string)] *)

Definition radixLiteral (radix : N) (s : list ascii) : float :=
  match readDigits radix s 0 0 with
  | (n, S _, []) => ofRational (inject_Z (Z.of_N n))
  | _ => nan
  end.

Definition unsignedNumeric (s : list ascii) : option float :=
  if list_ascii_eqb s infinityText then Some infinity
  else option_map ofRational (unsignedDecimal s).

Definition StringToNumber (text : string) : float :=
  let s := trimWhiteSpace (list_ascii_of_string text) in
  match s with
  | [] => 0
  | c :: r =>
      match r with
      | x :: digits =>
          if isChar c "0" "0" && isChar x "x" "X" then radixLiteral 16 digits
          else if isChar c "0" "0" && isChar x "o" "O" then radixLiteral 8 digits
          else if isChar c "0" "0" && isChar x "b" "B" then radixLiteral 2 digits
          else if isChar c "-" "-" then
                 match unsignedNumeric r with Some n => - n | None => nan end
          else if isChar c "+" "+" then
                 match unsignedNumeric r with Some n => n | None => nan end
          else match unsignedNumeric s with Some n => n | None => nan end
      | [] => match unsignedNumeric s with Some n => n | None => nan end
      end
  end.

(** ** The CVT timing generator: [calculateCvtTiming] *)

Definition CVT_CELL_GRAN : float := 8.
Definition CVT_HSYNC_PERCENT : float := 0.08.
Definition CVT_MIN_V_PORCH : float := 3.
Definition CVT_MIN_VSYNC_BP : float := 550.
Definition CVT_MIN_V_BPORCH : float := 6.
Definition CVT_MARGIN_PERCENT : float := 1.8.
Definition CVT_C_PRIME : float := 30.
Definition CVT_M_PRIME : float := 300.

Record CvtTimingResult : Type := mkCvtTimingResult {
  pixelClockMHz : float;
  hTotal : float;
  vTotal : float;
  hBlank : float;
  vBlank : float;
  hFront : float;
  hSync : float;
  hBack : float;
  vFront : float;
  vSync : float;
  vBack : float;
}.

Record ClockParams : Type := mkClockParams {
  clockStep : float;
  clockStepInv : float;
  rbHBlank : float;
  rbHSync : float;
  rbMinVBlank : float;
  rbVFrontPorch : float;
  refreshMultiplier : float;
}.

Definition clockParams (reducedBlanking : CvtProfile) (videoOptimized : bool)
  : ClockParams :=
  match reducedBlanking with
  | cvt => mkClockParams 0.25 4 160 32 460 3 1
  | cvt_rb => mkClockParams 0.25 4 160 32 460 3 1
  | cvt_rb2 =>
      mkClockParams 0.001 1000 80 32 460 1 (if videoOptimized then 1000 / 1001 else 1)
  end.

Definition aspectCandidates : list (string * float) :=
  [ ("4:3", 4 / 3);
    ("16:9", 16 / 9);
    ("16:10", 16 / 10);
    ("5:4", 5 / 4);
    ("15:9", 15 / 9);
    ("43:18", 43 / 18);
    ("64:27", 64 / 27);
    ("12:5", 12 / 5) ]%string.

(** The test of [aspectCandidates.find]. *)
Definition aspectMatches (cellGran verPixels hPixelsRounded : float)
    (c : string * float) : bool :=
  (cellGran * Math_round (verPixels * snd c / cellGran)) =? hPixelsRounded.

(** [aspectCandidates.find(...)?.[0] ?? "Unknown"]. *)
Definition aspectRatio (cellGran verPixels hPixelsRounded : float) : string :=
  match find (aspectMatches cellGran verPixels hPixelsRounded) aspectCandidates with
  | Some c => fst c
  | None => "Unknown"
  end.

Definition vSyncRounded (reducedBlanking : CvtProfile) (aspect : string) : float :=
  match reducedBlanking with
  | cvt_rb2 => 8
  | _ =>
      if String.eqb aspect "4:3" then 4
      else if String.eqb aspect "16:9" then 5
      else if String.eqb aspect "16:10" then 6
      else if String.eqb aspect "5:4" then 7
      else if String.eqb aspect "15:9" then 7
      else 10
  end.

(** The arm [if (reducedBlanking === "cvt")] of [calculateCvtTiming]. *)
Definition standardArm (cp : ClockParams)
    (cellGran fieldRateRequired totalActivePixels vLinesRounded
     topMargin bottomMargin interlaceFactor vSyncRounded : float)
  : CvtTimingResult :=
  let hPeriodEst :=
    ((1 / fieldRateRequired) - CVT_MIN_VSYNC_BP / 1000000)
    / (vLinesRounded + (2 * topMargin) + CVT_MIN_V_PORCH + interlaceFactor)
    * 1000000 in
  let vSyncBackPorch0 := Math_floor (CVT_MIN_VSYNC_BP / hPeriodEst) + 1 in
  let vSyncBackPorch :=
    if vSyncBackPorch0 <? (vSyncRounded + CVT_MIN_V_BPORCH)
    then vSyncRounded + CVT_MIN_V_BPORCH
    else vSyncBackPorch0 in
  let vBlank := vSyncBackPorch + CVT_MIN_V_PORCH in
  let vFrontPorch := CVT_MIN_V_PORCH in
  let vBackPorch := vSyncBackPorch - vSyncRounded in
  let totalVLines :=
    vLinesRounded + topMargin + bottomMargin + vSyncBackPorch
    + interlaceFactor + CVT_MIN_V_PORCH in
  let idealDutyCycle := CVT_C_PRIME - (CVT_M_PRIME * hPeriodEst / 1000) in
  let minDutyCycle := 20 in
  let hBlank :=
    if idealDutyCycle <? minDutyCycle
    then Math_floor (totalActivePixels * minDutyCycle / (100 - minDutyCycle)
                     / (2 * cellGran)) * (2 * cellGran)
    else Math_floor (totalActivePixels * idealDutyCycle / (100 - idealDutyCycle)
                     / (2 * cellGran)) * (2 * cellGran) in
  let totalPixels := totalActivePixels + hBlank in
  let hSync := Math_floor (CVT_HSYNC_PERCENT * totalPixels / cellGran) * cellGran in
  let hBackPorch := hBlank / 2 in
  let hFrontPorch := hBlank - hSync - hBackPorch in
  let pixelClockMHz :=
    clockStep cp * Math_floor (totalPixels / hPeriodEst / clockStep cp) in
  mkCvtTimingResult pixelClockMHz
    (Math_round totalPixels) (Math_round totalVLines)
    (Math_round hBlank) (Math_round vBlank)
    (Math_round hFrontPorch) (Math_round hSync) (Math_round hBackPorch)
    (Math_round vFrontPorch) (Math_round vSyncRounded) (Math_round vBackPorch).

(** The [else] arm of [calculateCvtTiming]: the reduced-blanking profiles. *)
Definition reducedArm (reducedBlanking : CvtProfile) (cp : ClockParams)
    (fieldRateRequired totalActivePixels vLinesRounded
     topMargin bottomMargin interlaceFactor vSyncRounded : float)
  : CvtTimingResult :=
  let hPeriodEst :=
    ((1000000 / fieldRateRequired) - rbMinVBlank cp)
    / (vLinesRounded + topMargin + bottomMargin) in
  let hBlank := rbHBlank cp in
  let vbiLines := Math_floor (rbMinVBlank cp / hPeriodEst) + 1 in
  let rbMinVbi := rbVFrontPorch cp + vSyncRounded + CVT_MIN_V_BPORCH in
  let activeVbiLines := if vbiLines <? rbMinVbi then rbMinVbi else vbiLines in
  let vBlank := activeVbiLines in
  let totalVLines :=
    activeVbiLines + vLinesRounded + topMargin + bottomMargin + interlaceFactor in
  let totalPixels := totalActivePixels + rbHBlank cp in
  let pixelClockMHz :=
    Math_floor (fieldRateRequired * totalVLines * totalPixels * clockStepInv cp
                / 1000000)
    * refreshMultiplier cp / clockStepInv cp in
  match reducedBlanking with
  | cvt_rb2 =>
      let vFrontPorch := activeVbiLines - vSyncRounded - 6 in
      let vBackPorch := 6 in
      let hSync := rbHSync cp in
      let hBackPorch := 40 in
      let hFrontPorch := hBlank - hSync - hBackPorch in
      mkCvtTimingResult pixelClockMHz
        (Math_round totalPixels) (Math_round totalVLines)
        (Math_round hBlank) (Math_round vBlank)
        (Math_round hFrontPorch) (Math_round hSync) (Math_round hBackPorch)
        (Math_round vFrontPorch) (Math_round vSyncRounded) (Math_round vBackPorch)
  | _ =>
      let vFrontPorch := 3 in
      let vBackPorch := activeVbiLines - vFrontPorch - vSyncRounded in
      let hSync := rbHSync cp in
      let hBackPorch := 80 in
      let hFrontPorch := hBlank - hSync - hBackPorch in
      mkCvtTimingResult pixelClockMHz
        (Math_round totalPixels) (Math_round totalVLines)
        (Math_round hBlank) (Math_round vBlank)
        (Math_round hFrontPorch) (Math_round hSync) (Math_round hBackPorch)
        (Math_round vFrontPorch) (Math_round vSyncRounded) (Math_round vBackPorch)
  end.

Definition calculateCvtTiming (hActive vActive refreshHz : float)
    (reducedBlanking : CvtProfile) (margins interlaced videoOptimized : bool)
  : CvtTimingResult :=
  let cp := clockParams reducedBlanking videoOptimized in
  let cellGran := Math_floor CVT_CELL_GRAN in
  let fieldRateRequired := if interlaced then refreshHz * 2 else refreshHz in
  let hPixelsRounded := Math_floor (hActive / cellGran) * cellGran in
  let leftMargin :=
    if margins
    then Math_floor ((hPixelsRounded * CVT_MARGIN_PERCENT / 100) / cellGran) * cellGran
    else 0 in
  let totalActivePixels := hPixelsRounded + leftMargin * 2 in
  let vLinesRounded :=
    if interlaced then Math_floor (vActive / 2) else Math_floor vActive in
  let topMargin :=
    if margins then Math_floor (vLinesRounded * CVT_MARGIN_PERCENT / 100) else 0 in
  let bottomMargin := topMargin in
  let interlaceFactor := if interlaced then 0.5 else 0 in
  let verPixels := if interlaced then 2 * vLinesRounded else vLinesRounded in
  let aspect := aspectRatio cellGran verPixels hPixelsRounded in
  let vSyncRounded := vSyncRounded reducedBlanking aspect in
  match reducedBlanking with
  | cvt =>
      standardArm cp cellGran fieldRateRequired totalActivePixels vLinesRounded
        topMargin bottomMargin interlaceFactor vSyncRounded
  | _ =>
      reducedArm reducedBlanking cp fieldRateRequired totalActivePixels vLinesRounded
        topMargin bottomMargin interlaceFactor vSyncRounded
  end.

(** [DEFAULT_PRESET_TIMING]: 3840x2160 at 144 Hz with the RB2 profile. *)
Definition DEFAULT_PRESET_TIMING : CvtTimingResult :=
  calculateCvtTiming 3840 2160 144 cvt_rb2 false false false.

(** ** The generator in the words of the specification *)

Module Spec.

(** Round [x] down to a multiple of [step]. *)
Definition quantizeDown (step x : float) : float := Math_floor (x / step) * step.

(** [x], but no less than [lo]. *)
Definition flooredAgainst (lo x : float) : float := if x <? lo then lo else x.

(** The ordered aspect-ratio table with the vertical sync width of each
    entry: 4:3, 16:9, 16:10, 5:4, 15:9, 43:18, 64:27, 12:5. *)
Definition syncWidthTable : list (float * float) :=
  [ (4 / 3, 4);
    (16 / 9, 5);
    (16 / 10, 6);
    (5 / 4, 7);
    (15 / 9, 7);
    (43 / 18, 10);
    (64 / 27, 10);
    (12 / 5, 10) ].

(** [round(active_v_lines * ratio / granularity) * granularity ==
    rounded_active_width]. *)
Definition ratioFits (activeVLines roundedWidth ratio : float) : bool :=
  (Math_round (activeVLines * ratio / 8) * 8) =? roundedWidth.

(** First match wins; no match is the Unknown bucket, of width 10. *)
Definition syncWidthByAspect (activeVLines roundedWidth : float) : float :=
  match find (fun e => ratioFits activeVLines roundedWidth (fst e)) syncWidthTable with
  | Some e => snd e
  | None => 10
  end.

Definition syncWidth (profile : CvtProfile) (activeVLines roundedWidth : float) : float :=
  match profile with
  | cvt_rb2 => 8
  | _ => syncWidthByAspect activeVLines roundedWidth
  end.

(** The active width rounded down to the granularity, and the number of
    active lines the aspect test sees. *)
Definition roundedActiveWidth (hActive : float) : float := quantizeDown 8 hActive.

Definition linesPerField (vActive : float) (interlaced : bool) : float :=
  if interlaced then Math_floor (vActive / 2) else Math_floor vActive.

Definition activeVLines (vActive : float) (interlaced : bool) : float :=
  if interlaced then 2 * linesPerField vActive true else linesPerField vActive false.

(** The timing quantities before the final rounding to integers. *)
Record Timing : Type := mkTiming {
  t_pixelClock : float;
  t_totalPixels : float;
  t_totalLines : float;
  t_hBlank : float;
  t_vBlank : float;
  t_hFront : float;
  t_hSync : float;
  t_hBack : float;
  t_vFront : float;
  t_vSync : float;
  t_vBack : float;
}.

(** Porches, sync widths, blanks and totals are rounded to integers; the
    pixel clock keeps its fraction. *)
Definition descriptor (t : Timing) : CvtTimingResult :=
  mkCvtTimingResult (t_pixelClock t)
    (Math_round (t_totalPixels t)) (Math_round (t_totalLines t))
    (Math_round (t_hBlank t)) (Math_round (t_vBlank t))
    (Math_round (t_hFront t)) (Math_round (t_hSync t)) (Math_round (t_hBack t))
    (Math_round (t_vFront t)) (Math_round (t_vSync t)) (Math_round (t_vBack t)).

Definition fieldRate (refreshHz : float) (interlaced : bool) : float :=
  if interlaced then refreshHz * 2 else refreshHz.

Definition interlaceHalfLine (interlaced : bool) : float :=
  if interlaced then 0.5 else 0.

(** Margin per side: 1.8% of the rounded width, rounded to the granularity. *)
Definition sideMargin (margins : bool) (roundedWidth : float) : float :=
  if margins then quantizeDown 8 (roundedWidth * 1.8 / 100) else 0.

Definition totalActivePixels (hActive : float) (margins : bool) : float :=
  roundedActiveWidth hActive + sideMargin margins (roundedActiveWidth hActive) * 2.

(** Margin lines above (and below) the image: 1.8% of the lines of a field. *)
Definition marginLines (margins : bool) (lines : float) : float :=
  if margins then Math_floor (lines * 1.8 / 100) else 0.

(** Standard CVT, step by step, from the active pixels of a line, the lines
    of a field with their margin, the vertical sync width, the field rate
    and the half line of an interlaced field. *)
Definition standardSteps (activePixels lines vMargin vSyncWidth rate halfLine : float)
  : Timing :=
  (* one line's duration, from the 550 us minimum blanking time and the field rate *)
  let lineEstimate :=
    ((1 / rate) - 550 / 1000000)
    / (lines + (2 * vMargin) + 3 + halfLine)
    * 1000000 in
  (* sync + back porch, floored against the sync-width-dependent minimum *)
  let syncBackPorch :=
    flooredAgainst (vSyncWidth + 6) (Math_floor (550 / lineEstimate) + 1) in
  let totalLines := lines + vMargin + vMargin + syncBackPorch + halfLine + 3 in
  (* ideal duty cycle from C' = 30 and M' = 300, clamped to the 20% floor *)
  let dutyCycle := flooredAgainst 20 (30 - (300 * lineEstimate / 1000)) in
  (* horizontal blank, quantized down to twice the granularity *)
  let hBlank := quantizeDown 16 (activePixels * dutyCycle / (100 - dutyCycle)) in
  let totalPixels := activePixels + hBlank in
  let hSync := quantizeDown 8 (0.08 * totalPixels) in
  let hBack := hBlank / 2 in
  mkTiming
    (quantizeDown 0.25 (totalPixels / lineEstimate))
    totalPixels totalLines
    hBlank (syncBackPorch + 3)
    (hBlank - hSync - hBack) hSync hBack
    3 vSyncWidth (syncBackPorch - vSyncWidth).

Definition standardCvt (hActive vActive refreshHz : float) (margins interlaced : bool)
  : Timing :=
  let lines := linesPerField vActive interlaced in
  standardSteps (totalActivePixels hActive margins)
    lines (marginLines margins lines)
    (syncWidthByAspect (activeVLines vActive interlaced) (roundedActiveWidth hActive))
    (fieldRate refreshHz interlaced) (interlaceHalfLine interlaced).

(** Reduced blanking. *)
Definition rbHBlank (profile : CvtProfile) : float :=
  match profile with cvt_rb2 => 80 | _ => 160 end.

(** The clock step of a profile in MHz, and the number of steps in 1 MHz. *)
Definition rbClockStep (profile : CvtProfile) : float :=
  match profile with cvt_rb2 => 0.001 | _ => 0.25 end.

Definition rbStepsPerMHz (profile : CvtProfile) : float :=
  match profile with cvt_rb2 => 1000 | _ => 4 end.

Definition rbVFrontPorch (profile : CvtProfile) : float :=
  match profile with cvt_rb2 => 1 | _ => 3 end.

(** The 1000/1001 multiplier: RB2 with [video_optimized] only. *)
Definition refreshMultiplier (profile : CvtProfile) (videoOptimized : bool) : float :=
  match profile, videoOptimized with
  | cvt_rb2, true => 1000 / 1001
  | _, _ => 1
  end.

(** Blanking lines: the minimum demanded by the 460 us vertical blanking
    time, floored against front porch + sync + 6. *)
Definition rbBlankingLines (profile : CvtProfile)
    (lines vMargin vSyncWidth rate : float) : float :=
  let lineEstimate := ((1000000 / rate) - 460) / (lines + vMargin + vMargin) in
  flooredAgainst (rbVFrontPorch profile + vSyncWidth + 6)
    (Math_floor (460 / lineEstimate) + 1).

(** The whole number of clock steps in field_rate x total_lines x
    total_pixels. *)
Definition clockSteps (profile : CvtProfile) (rate totalLines totalPixels : float)
  : float :=
  Math_floor (rate * totalLines * totalPixels * rbStepsPerMHz profile / 1000000).

(** The pixel clock in MHz: field_rate x total_lines x total_pixels
    quantized down to whole clock steps, scaled by the multiplier. *)
Definition rbPixelClock (profile : CvtProfile) (videoOptimized : bool)
    (rate totalLines totalPixels : float) : float :=
  clockSteps profile rate totalLines totalPixels
  * refreshMultiplier profile videoOptimized / rbStepsPerMHz profile.

Definition reducedSteps (profile : CvtProfile) (videoOptimized : bool)
    (activePixels lines vMargin vSyncWidth rate halfLine : float) : Timing :=
  let blankingLines := rbBlankingLines profile lines vMargin vSyncWidth rate in
  let totalLines := blankingLines + lines + vMargin + vMargin + halfLine in
  let totalPixels := activePixels + rbHBlank profile in
  let hBack := match profile with cvt_rb2 => 40 | _ => 80 end in
  let vFront :=
    match profile with
    | cvt_rb2 => blankingLines - vSyncWidth - 6
    | _ => 3
    end in
  let vBack :=
    match profile with
    | cvt_rb2 => 6
    | _ => blankingLines - 3 - vSyncWidth
    end in
  mkTiming
    (rbPixelClock profile videoOptimized rate totalLines totalPixels)
    totalPixels totalLines
    (rbHBlank profile) blankingLines
    (rbHBlank profile - 32 - hBack) 32 hBack
    vFront vSyncWidth vBack.

Definition reducedBlanking (profile : CvtProfile)
    (hActive vActive refreshHz : float) (margins interlaced videoOptimized : bool)
  : Timing :=
  let lines := linesPerField vActive interlaced in
  reducedSteps profile videoOptimized (totalActivePixels hActive margins)
    lines (marginLines margins lines)
    (syncWidth profile (activeVLines vActive interlaced) (roundedActiveWidth hActive))
    (fieldRate refreshHz interlaced) (interlaceHalfLine interlaced).

(** *** Aggregation *)

(** A finite double as a whole number of units of 2^-1074, the spacing of
    the smallest doubles. *)
Definition units (s : bool) (m : positive) (e : Z) : Z :=
  cond_Zopp s (Zpos m * 2 ^ (e + 1074)).

(** The order of the doubles as real numbers: NaN is comparable with
    nothing, and the two zeros are equal. *)
Definition le (a b : float) : Prop :=
  match Prim2SF a, Prim2SF b with
  | S754_nan, _ | _, S754_nan => False
  | S754_infinity true, _ | _, S754_infinity false => True
  | S754_infinity false, _ | _, S754_infinity true => False
  | S754_zero _, S754_zero _ => True
  | S754_zero _, S754_finite s m e => (0 <= units s m e)%Z
  | S754_finite s m e, S754_zero _ => (units s m e <= 0)%Z
  | S754_finite s m e, S754_finite s' m' e' => (units s m e <= units s' m' e')%Z
  end.

(** [total_required]: the selected rates, added up from the first slot
    on. *)
Definition totalRequired (rates : list float) : float :=
  fold_left (fun s r => s + r) rates 0.

(** [fits = total_required <= payload_capacity + 1e-9]. *)
Definition fitsWithin (total capacity : float) : Prop :=
  le total (capacity + 1e-9).

End Spec.

(** ** Values *)

Local Open Scope string_scope.
Local Open Scope float_scope.

#[local] Unset Elimination Schemes.

(** The values [JSON.parse] returns and the state holds: a number is a
    double. *)
Inductive jsval : Type :=
| VUndef
| VNull
| VBool (b : bool)
| VNum (n : float)
| VStr (s : string)
| VArr (items : list jsval)
| VObj (fields : list (string * jsval)).

#[local] Set Elimination Schemes.

(** [Boolean(v)]. *)
Definition ToBoolean (v : jsval) : bool :=
  match v with
  | VUndef | VNull => false
  | VBool b => b
  | VNum n => num_truthy n
  | VStr s => negb (s =? "")%string
  | VArr _ | VObj _ => true
  end.

(** [a || b] and [a ?? b]. *)
Definition js_or (a b : jsval) : jsval := if ToBoolean a then a else b.

Definition nullish (a b : jsval) : jsval :=
  match a with
  | VUndef | VNull => b
  | _ => a
  end.

(** [a === b] where one side is a primitive.  Two objects are equal when
    they are the same object; the rows that hold an object as their [id] are
    dealt with where [updateTiming] and [removeTiming] are. *)
Definition StrictEquals (a b : jsval) : bool :=
  match a, b with
  | VUndef, VUndef | VNull, VNull => true
  | VBool x, VBool y => Bool.eqb x y
  | VNum x, VNum y => x =? y
  | VStr x, VStr y => (x =? y)%string
  | _, _ => false
  end.

Definition Array_isArray (v : jsval) : bool :=
  match v with
  | VArr _ => true
  | _ => false
  end.

Fixpoint lookup (key : string) (fields : list (string * jsval)) : jsval :=
  match fields with
  | [] => VUndef
  | (k, v) :: rest => if (k =? key)%string then v else lookup key rest
  end.

(** [null] and [undefined]: the values a property read throws on. *)
Definition isNullish (v : jsval) : bool :=
  match v with
  | VUndef | VNull => true
  | _ => false
  end.

(** [key] is an own property of the object. *)
Definition hasOwn (key : string) (fields : list (string * jsval)) : bool :=
  existsb (fun kv => (fst kv =? key)%string) fields.

(** [v.key], for the property names the handler reads: a TypeError on
    [null] and [undefined], the own property of an object, and [undefined]
    on everything else. *)
Definition getProp (v : jsval) (key : string) : outcome jsval :=
  match v with
  | VUndef | VNull => Thrown
  | VObj fields => Ok (lookup key fields)
  | _ => Ok VUndef
  end.

(** A property of a value that is known not to be [null]. *)
Definition field (t : jsval) (key : string) : jsval :=
  match getProp t key with
  | Ok x => x
  | Thrown => VUndef
  end.

(** ** Link and colour tables *)

Definition codingEfficiency (coding : string) : float :=
  if (coding =? "8b10b")%string then 0.8 else 128 / 132.

(** [DP_PRESETS], without the display labels. *)
Record Preset : Type := mkPreset {
  preset_id : string;
  preset_rate : float;
  preset_coding : string;
  preset_lanes : float;
}.

Definition DP_PRESETS : list Preset :=
  [ mkPreset "custom" 8.1 "8b10b" 4;
    mkPreset "dp20_uhbr20" 20.0 "128b132b" 4;
    mkPreset "dp20_uhbr13_5" 13.5 "128b132b" 4;
    mkPreset "dp20_uhbr10" 10.0 "128b132b" 4;
    mkPreset "dp13_hbr3" 8.1 "8b10b" 4;
    mkPreset "dp12_hbr2" 5.4 "8b10b" 4;
    mkPreset "dp12_hbr" 2.7 "8b10b" 4;
    mkPreset "dp11_rbr" 1.62 "8b10b" 4 ].

Definition DP_PRESETS_0 : Preset := mkPreset "custom" 8.1 "8b10b" 4.

(** [DP_PRESETS.find(p => p.id === presetId) || DP_PRESETS[0]]. *)
Definition presetOf (presetId : string) : Preset :=
  match find (fun p => (preset_id p =? presetId)%string) DP_PRESETS with
  | Some p => p
  | None => DP_PRESETS_0
  end.

(** [COLOR_FORMATS]: the factor of each own key. *)
Definition COLOR_FORMATS : list (string * float) :=
  [ ("rgb", 3); ("yuv444", 3); ("yuv422", 2); ("yuv420", 1.5) ].

Definition ownColorFormat (key : string) : option float :=
  option_map snd (find (fun e => (fst e =? key)%string) COLOR_FORMATS).

(** [key in COLOR_FORMATS]: the own keys, and the names every object
    inherits from [Object.prototype]. *)
Definition inColorFormats (key : string) : bool :=
  match ownColorFormat key with
  | Some _ => true
  | None => existsb (String.eqb key) ObjectPrototypeKeys
  end.

Definition DEFAULT_BPC : float := 8.
Definition DEFAULT_COLOR_FORMAT : string := "rgb".

(** [(COLOR_FORMATS[key] ?? COLOR_FORMATS[DEFAULT_COLOR_FORMAT]).factor]: the
    factor of an own key, the factor of RGB for a key that is absent, and
    NaN for an inherited member, which has no [factor]. *)
Definition formatFactor (key : string) : float :=
  match ownColorFormat key with
  | Some f => f
  | None => if inColorFormats key then nan else 3
  end.

Definition LANE_OPTIONS : list float := [1; 2; 4].

(** [LANE_OPTIONS.includes(n)]. *)
Definition laneIncluded (n : float) : bool := existsb (fun o => o =? n) LANE_OPTIONS.

(** [LANE_OPTIONS[LANE_OPTIONS.length - 1]]. *)
Definition lastLaneOption : float := last LANE_OPTIONS nan.

Definition pixelClockMHzFromTotals
    (h v hz hFront hSync hBack vFront vSync vBack : float) : float :=
  let hTotal := h + hFront + hSync + hBack in
  let vTotal := v + vFront + vSync + vBack in
  (hTotal * vTotal * hz) / 1e6.

(** ** Application state *)

(** [interface TimingRow].  An optional field is [None] (or [VUndef]) when
    it is [undefined]; [id], [cvtKind] and [dscRatio] hold whatever value the
    import handler stored. *)
Module TimingRow.
Record t : Type := mk {
  id : jsval;
  label : string;
  peakBw : string;
  peakBwDsc : string;
  useDsc : bool;
  calcOpen : option bool;
  modeIndex : option float;
  cvtKind : jsval;
  h : option float;
  v : option float;
  hz : option float;
  hFront : option float;
  hSync : option float;
  hBack : option float;
  vFront : option float;
  vSync : option float;
  vBack : option float;
  bpp : option float;
  dscRatio : jsval;
  bpc : option float;
  colorFormat : option string;
  pixelClock : option float;
}.
End TimingRow.

(** The hooks of [App]. *)
Record AppState : Type := mkAppState {
  timings : list TimingRow.t;
  presetId : string;
  lanes : float;
  rate : float;
  coding : string;
}.

(** ** Aggregation: the derived values of [App] *)

(** A row of [parsed]: the timing with its two rates as numbers. *)
Record ParsedRow : Type := mkParsedRow {
  row : TimingRow.t;
  peak : float;
  peakDsc : float;
}.

(** [{ ...t, peak: Number(t.peakBw)||0, peakDsc: Number(t.peakBwDsc)||0 }]. *)
Definition parseRow (t : TimingRow.t) : ParsedRow :=
  mkParsedRow t
    (num_or (StringToNumber (TimingRow.peakBw t)) 0)
    (num_or (StringToNumber (TimingRow.peakBwDsc t)) 0).

Definition parsed (timings : list TimingRow.t) : list ParsedRow := map parseRow timings.

(** [t.useDsc ? t.peakDsc : t.peak]. *)
Definition selectedRate (p : ParsedRow) : float :=
  if TimingRow.useDsc (row p) then peakDsc p else peak p.

Definition eff (st : AppState) : float := codingEfficiency (coding st).
Definition rawCapacityGbps (st : AppState) : float := rate st * lanes st.
Definition payloadCapacityGbps (st : AppState) : float := rawCapacityGbps st * eff st.

Definition totalGbps (st : AppState) : float :=
  fold_left (fun s t => s + selectedRate t) (parsed (timings st)) 0.

Definition fits (st : AppState) : bool :=
  totalGbps st <=? payloadCapacityGbps st + 1e-9.

(** A row of [chartRows]. *)
Record ChartRow : Type := mkChartRow {
  name : string;
  selected : float;
  raw : float;
}.

(** [t.label || Timing]: the label when it is not empty.  [Timing] is no
    binding of the module, so evaluating it, for an empty label, is a
    ReferenceError. *)
Definition chartName (label : string) : outcome string :=
  if (label =? "")%string then Thrown else Ok label.

(** [parsed.map(...)]: the first row that throws ends the map, and the
    render with it. *)
Fixpoint chartRowsOf (rows : list ParsedRow) : outcome (list ChartRow) :=
  match rows with
  | [] => Ok []
  | t :: rest =>
      (name <- chartName (TimingRow.label (row t)) ;;
       rows' <- chartRowsOf rest ;;
       Ok (mkChartRow name (selectedRate t) (peak t) :: rows'))%outcome
  end.

Definition chartRows (st : AppState) : outcome (list ChartRow) :=
  chartRowsOf (parsed (timings st)).

(** A stream slot with the given rate texts and toggle, and no calculator
    field set. *)
Definition slot (peakBw peakBwDsc : string) (useDsc : bool) : TimingRow.t :=
  TimingRow.mk (VStr "slot") "Timing" peakBw peakBwDsc useDsc
    None None VUndef None None None None None None None None None
    None VUndef None None None.

(** The text a slot's selected rate is read from. *)
Definition selectedText (t : TimingRow.t) : string :=
  if TimingRow.useDsc t then TimingRow.peakBwDsc t else TimingRow.peakBw t.

Definition withTimings (st : AppState) (ts : list TimingRow.t) : AppState :=
  mkAppState ts (presetId st) (lanes st) (rate st) (coding st).

(** ** State updates with exceptions *)

(** A handler threads the application state and may throw; the updates made
    before a throw stay made. *)
Definition M (A : Type) : Type := AppState -> outcome A * AppState.

Definition ret {A : Type} (a : A) : M A := fun st => (Ok a, st).

Definition bind {A B : Type} (c : M A) (k : A -> M B) : M B :=
  fun st =>
    match c st with
    | (Ok a, st') => k a st'
    | (Thrown, st') => (Thrown, st')
    end.

Definition lift {A : Type} (o : outcome A) : M A := fun st => (o, st).

Declare Scope update_scope.
Delimit Scope update_scope with update.
Notation "x <- c ;; k" := (bind c (fun x => k))
  (at level 61, c at next level, right associativity) : update_scope.
Notation "c ;; k" := (bind c (fun _ => k))
  (at level 61, right associativity) : update_scope.

Definition setTimings (ts : list TimingRow.t) : M unit :=
  fun st => (Ok tt, mkAppState ts (presetId st) (lanes st) (rate st) (coding st)).

Definition setPresetId (p : string) : M unit :=
  fun st => (Ok tt, mkAppState (timings st) p (lanes st) (rate st) (coding st)).

Definition setLanes (n : float) : M unit :=
  fun st => (Ok tt, mkAppState (timings st) (presetId st) n (rate st) (coding st)).

Definition setRate (n : float) : M unit :=
  fun st => (Ok tt, mkAppState (timings st) (presetId st) (lanes st) n (coding st)).

Definition setCoding (c : string) : M unit :=
  fun st => (Ok tt, mkAppState (timings st) (presetId st) (lanes st) (rate st) c).

(** [React.useEffect(() => { setRate(preset.rate); setCoding(preset.coding);
    setLanes(preset.lanes); }, [presetId])]: the effect itself, and its run
    after an update that changed [presetId]. *)
Definition presetEffect (st : AppState) : AppState :=
  let p := presetOf (presetId st) in
  mkAppState (timings st) (presetId st) (preset_lanes p) (preset_rate p) (preset_coding p).

Definition settle (before after : AppState) : AppState :=
  if (presetId before =? presetId after)%string then after else presetEffect after.

(** [Number.prototype.toString], the one built-in the model leaves open: the
    text the host prints for a double. *)
Class Host : Type := { NumberToString : float -> string }.

Section Host.

Context {host : Host}.

(** [String(v)].  An object is converted by the [toString] it has or
    inherits, then by [valueOf]: a plain object prints [[object Object]], and
    an object with an own [toString] property, which no JSON value can make a
    function, is a TypeError.  An array prints its elements joined by
    commas, [null] and [undefined] as nothing, and throws when an element
    does. *)
Fixpoint ToString (v : jsval) : outcome string :=
  match v with
  | VUndef => Ok "undefined"
  | VNull => Ok "null"
  | VBool true => Ok "true"
  | VBool false => Ok "false"
  | VNum n => Ok (NumberToString n)
  | VStr s => Ok s
  | VArr items =>
      match
        (fix join (l : list jsval) : outcome (list string) :=
           match l with
           | [] => Ok []
           | e :: r =>
               match
                 match e with
                 | VUndef | VNull => Ok ""
                 | _ => ToString e
                 end
               with
               | Thrown => Thrown
               | Ok s =>
                   match join r with
                   | Thrown => Thrown
                   | Ok ss => Ok (s :: ss)
                   end
               end
           end) items
      with
      | Thrown => Thrown
      | Ok texts => Ok (String.concat "," texts)
      end
  | VObj fields => if hasOwn "toString" fields then Thrown else Ok "[object Object]"
  end.

(** [Number(v)]: an object or an array is converted to a string first, and
    throws when that does. *)
Definition ToNumber (v : jsval) : outcome float :=
  match v with
  | VUndef => Ok nan
  | VNull => Ok 0
  | VBool true => Ok 1
  | VBool false => Ok 0
  | VNum n => Ok n
  | VStr s => Ok (StringToNumber s)
  | VArr _ | VObj _ =>
      match ToString v with
      | Ok s => Ok (StringToNumber s)
      | Thrown => Thrown
      end
  end.

(** The values [Number] and [String] convert without a TypeError. *)
Definition coercible (v : jsval) : bool :=
  match ToString v with
  | Ok _ => true
  | Thrown => false
  end.

(** The number of a value that is coercible; NaN stands for the TypeError of
    one that is not. *)
Definition numberOf (v : jsval) : float := valueOr nan (ToNumber v).

(** [emptyTiming(i)] at the time [now] of [Date.now()]. *)
Definition emptyTiming (now : float) (i : nat) : TimingRow.t :=
  let index := ofInteger (Z.of_nat i) in
  TimingRow.mk
    (VStr (NumberToString now ++ "_" ++ NumberToString index))
    ("Timing " ++ NumberToString (index + 1))
    "" "" true
    (Some false) (Some 0) (VStr "cvt_rb2")
    (Some 3840) (Some 2160) (Some 144)
    (Some (hFront DEFAULT_PRESET_TIMING)) (Some (hSync DEFAULT_PRESET_TIMING))
    (Some (hBack DEFAULT_PRESET_TIMING))
    (Some (vFront DEFAULT_PRESET_TIMING)) (Some (vSync DEFAULT_PRESET_TIMING))
    (Some (vBack DEFAULT_PRESET_TIMING))
    (Some (DEFAULT_BPC * formatFactor DEFAULT_COLOR_FORMAT))
    (VNum 3) (Some DEFAULT_BPC) (Some DEFAULT_COLOR_FORMAT)
    (Some (pixelClockMHz DEFAULT_PRESET_TIMING)).

(** The state [App] starts in. *)
Definition initialState (now : float) : AppState :=
  let preset := presetOf "dp13_hbr3" in
  mkAppState [emptyTiming now 0] "dp13_hbr3"
    (preset_lanes preset) (preset_rate preset) (preset_coding preset).

(** [updateTiming]: [patch] is the merge [{...t, ...patch}]. *)
Definition updateTiming (id : jsval) (patch : TimingRow.t -> TimingRow.t) : M unit :=
  fun st =>
    setTimings
      (map (fun t => if StrictEquals (TimingRow.id t) id then patch t else t) (timings st))
      st.

Definition addTiming (now : float) : M unit :=
  fun st =>
    if (List.length (timings st) <? 4)%nat
    then setTimings (timings st ++ [emptyTiming now (List.length (timings st))]) st
    else ret tt st.

Definition removeTiming (id : jsval) : M unit :=
  fun st =>
    setTimings (filter (fun t => negb (StrictEquals (TimingRow.id t) id)) (timings st)) st.

(** [updateTiming(t.id, patch)] and [removeTiming(t.id)] for the row [t] at
    position [i] when [t.id] is an object or an array: [===] holds between an
    object and itself only, and the object a row holds was made by
    [JSON.parse] for that row alone, so the row at [i] is the one patched or
    removed. *)
Definition updateRowAt (i : nat) (patch : TimingRow.t -> TimingRow.t) : M unit :=
  fun st =>
    setTimings
      (match nth_error (timings st) i with
       | Some t => firstn i (timings st) ++ patch t :: skipn (S i) (timings st)
       | None => timings st
       end)%list
      st.

Definition removeRowAt (i : nat) : M unit :=
  fun st => setTimings (firstn i (timings st) ++ skipn (S i) (timings st))%list st.

(** *** Import *)

(** [Number.isFinite(n) ? n : undefined]. *)
Definition finiteOrUndefined (n : float) : option float :=
  if Number_isFinite n then Some n else None.

(** The callback of [j.timings.map]: one restored row.  Every property read
    of [t] throws when [t] is [null]; the first one, [t.colorFormat], is the
    read that does.  Each [Number(...)] and [String(...)] throws when its
    argument is not coercible. *)
Definition restoreRow (now : float) (t : jsval) (i : nat) : outcome TimingRow.t :=
  (colorFormat <- getProp t "colorFormat" ;;
   let importedFormat :=
     match colorFormat with
     | VStr s => if inColorFormats s then s else DEFAULT_COLOR_FORMAT
     | _ => DEFAULT_COLOR_FORMAT
     end in
   rawBpc <- ToNumber (field t "bpc") ;;
   let bpc :=
     if (Number_isFinite rawBpc && (0 <? rawBpc))%bool then rawBpc else DEFAULT_BPC in
   rawBpp <- ToNumber (field t "bpp") ;;
   let bpp :=
     if (Number_isFinite rawBpp && (0 <? rawBpp))%bool
     then rawBpp else bpc * formatFactor importedFormat in
   h <- ToNumber (field t "h") ;;
   v <- ToNumber (field t "v") ;;
   hz <- ToNumber (field t "hz") ;;
   hFront <- ToNumber (field t "hFront") ;;
   hSync <- ToNumber (field t "hSync") ;;
   hBack <- ToNumber (field t "hBack") ;;
   vFront <- ToNumber (field t "vFront") ;;
   vSync <- ToNumber (field t "vSync") ;;
   vBack <- ToNumber (field t "vBack") ;;
   let hasTotals :=
     forallb Number_isFinite [h; v; hz; hFront; hSync; hBack; vFront; vSync; vBack] in
   rawPixelClock <- ToNumber (field t "pixelClock") ;;
   let computedPixelClock :=
     if hasTotals
     then Some (pixelClockMHzFromTotals h v hz hFront hSync hBack vFront vSync vBack)
     else None in
   let pixelClock :=
     if (Number_isFinite rawPixelClock && (0 <? rawPixelClock))%bool
     then Some rawPixelClock else computedPixelClock in
   let index := ofInteger (Z.of_nat i) in
   label <- ToString (nullish (field t "label")
                        (VStr ("Timing " ++ NumberToString (index + 1)))) ;;
   peakBw <- ToString (nullish (field t "peakBw") (VStr "")) ;;
   peakBwDsc <- ToString (nullish (field t "peakBwDsc") (VStr "")) ;;
   Ok (TimingRow.mk
         (js_or (field t "id")
            (VStr (NumberToString now ++ "_" ++ NumberToString index)))
         label peakBw peakBwDsc
         (ToBoolean (field t "useDsc"))
         (Some (ToBoolean (field t "calcOpen")))
         (match field t "modeIndex" with
          | VNum n => Some n
          | _ => Some 0
          end)
         (js_or (field t "cvtKind") (VStr "cvt_rb2"))
         (finiteOrUndefined h) (finiteOrUndefined v) (finiteOrUndefined hz)
         (finiteOrUndefined hFront) (finiteOrUndefined hSync) (finiteOrUndefined hBack)
         (finiteOrUndefined vFront) (finiteOrUndefined vSync) (finiteOrUndefined vBack)
         (Some bpp)
         (field t "dscRatio")
         (Some bpc)
         (Some importedFormat)
         pixelClock))%outcome.

(** [items.map((t, i) => ...)], from index [i] on: the first entry that
    throws ends the map. *)
Fixpoint restoreRows (now : float) (items : list jsval) (i : nat)
  : outcome (list TimingRow.t) :=
  match items with
  | [] => Ok []
  | t :: rest =>
      match restoreRow now t i with
      | Thrown => Thrown
      | Ok r =>
          match restoreRows now rest (S i) with
          | Thrown => Thrown
          | Ok rs => Ok (r :: rs)
          end
      end
  end.

(** The lane count an imported [transport.lanes] selects. *)
Definition laneOption (importedLanes : float) : float :=
  if laneIncluded importedLanes then importedLanes else lastLaneOption.

(** The body of the [try] block of [r.onload], given the outcome of
    [JSON.parse(String(r.result||"{}"))].  [Number(j.transport.rate)] and
    [Number(j.transport.lanes)] are evaluated after [setTimings], and the
    latter after [setRate]: a throw there leaves those updates made. *)
Definition onloadBody (now : float) (parseResult : outcome jsval) : M unit :=
  (fun render =>
     (j <- lift parseResult ;;
      jTimings <- lift (getProp j "timings") ;;
      (match jTimings with
       | VArr items =>
           restored <- lift (restoreRows now items 0) ;;
           let restored := firstn 4 restored in
           setTimings (match restored with
                       | [] => [emptyTiming now 0]
                       | _ => restored
                       end)
       | _ => ret tt
       end) ;;
      transport <- lift (getProp j "transport") ;;
      (if ToBoolean transport
       then
         importedRate <- lift (ToNumber (field transport "rate")) ;;
         setRate (num_or importedRate (rate render)) ;;
         importedLanes <- lift (ToNumber (field transport "lanes")) ;;
         setLanes (laneOption importedLanes) ;;
         setCoding (if StrictEquals (field transport "coding") (VStr "8b10b")
                    then "8b10b" else "128b/132b")
       else ret tt) ;;
      jPresetId <- lift (getProp j "presetId") ;;
      match jPresetId with
      | VStr s => setPresetId s
      | _ => ret tt
      end)%update render).

(** [r.onload]: the [try] block, and [alert("Invalid JSON file.")] when it
    throws.  The result is the state after the handler and the alerts shown. *)
Definition onImport (now : float) (parseResult : outcome jsval) (st : AppState)
  : AppState * list string :=
  match onloadBody now parseResult st with
  | (Ok _, st') => (st', [])
  | (Thrown, st') => (st', ["Invalid JSON file."])
  end.

(** *** What an import does, section by section *)

(** The properties of a timing entry the callback converts with [Number] or
    [String]. *)
Definition coercedFields : list string :=
  [ "bpc"; "bpp"; "h"; "v"; "hz"; "hFront"; "hSync"; "hBack"; "vFront"; "vSync";
    "vBack"; "pixelClock"; "label"; "peakBw"; "peakBwDsc" ].

(** A timing entry the callback throws on: [null], or an entry with a
    converted property that is not coercible. *)
Definition malformedEntry (t : jsval) : bool :=
  isNullish t || existsb (fun key => negb (coercible (field t key))) coercedFields.

(** Where the handler stops. *)
Inductive ImportEnd : Type :=
| RejectedWhole      (* a throw before the first update *)
| StoppedAtRate      (* [Number(j.transport.rate)] throws, after [setTimings] *)
| StoppedAtLanes     (* [Number(j.transport.lanes)] throws, after [setRate] *)
| Applied.           (* no throw *)

Definition importEnd (parseResult : outcome jsval) : ImportEnd :=
  match parseResult with
  | Thrown => RejectedWhole
  | Ok j =>
      if isNullish j then RejectedWhole
      else if match field j "timings" with
              | VArr items => existsb malformedEntry items
              | _ => false
              end
      then RejectedWhole
      else
        let transport := field j "transport" in
        if ToBoolean transport && negb (coercible (field transport "rate"))
        then StoppedAtRate
        else if ToBoolean transport && negb (coercible (field transport "lanes"))
        then StoppedAtLanes
        else Applied
  end.

(** The alerts of an import that ends in [e]. *)
Definition alertsOf (e : ImportEnd) : list string :=
  match e with
  | Applied => []
  | _ => ["Invalid JSON file."]
  end.

(** The timings an import with well-formed entries stores: the first four
    restored rows of a [timings] array, one empty timing for an empty array,
    and the rows as they were when [timings] is no array. *)
Definition importedTimings (now : float) (j : jsval) (st : AppState)
  : list TimingRow.t :=
  match field j "timings" with
  | VArr items =>
      match restoreRows now items 0 with
      | Ok restored =>
          match firstn 4 restored with
          | [] => [emptyTiming now 0]
          | kept => kept
          end
      | Thrown => timings st
      end
  | _ => timings st
  end.

(** The rate a truthy [transport] sets: [Number(j.transport.rate) || rate]. *)
Definition importedRate (j : jsval) (st : AppState) : float :=
  num_or (numberOf (field (field j "transport") "rate")) (rate st).

(** The state after an import that did not throw: each of [timings],
    [transport] and [presetId] is applied when the payload has it, and left
    alone otherwise. *)
Definition importedState (now : float) (j : jsval) (st : AppState) : AppState :=
  let transport := field j "transport" in
  mkAppState
    (importedTimings now j st)
    (match field j "presetId" with
     | VStr s => s
     | _ => presetId st
     end)
    (if ToBoolean transport
     then laneOption (numberOf (field transport "lanes"))
     else lanes st)
    (if ToBoolean transport then importedRate j st else rate st)
    (if ToBoolean transport
     then (if StrictEquals (field transport "coding") (VStr "8b10b")
           then "8b10b" else "128b/132b")
     else coding st).

(** The state an import leaves: nothing changed, the timings stored, the
    timings and the rate stored, or every section applied. *)
Definition stoppedState (now : float) (j : jsval) (st : AppState) (e : ImportEnd)
  : AppState :=
  match e with
  | RejectedWhole => st
  | StoppedAtRate =>
      mkAppState (importedTimings now j st) (presetId st) (lanes st) (rate st)
        (coding st)
  | StoppedAtLanes =>
      mkAppState (importedTimings now j st) (presetId st) (lanes st)
        (importedRate j st) (coding st)
  | Applied => importedState now j st
  end.

(** The shape of section 6: an object with a [timings] array, a [transport]
    object and a [presetId] string. *)
Definition expectedShape (j : jsval) : bool :=
  match j with
  | VObj fields =>
      Array_isArray (lookup "timings" fields)
      && match lookup "transport" fields with
         | VObj _ => true
         | _ => false
         end
      && match lookup "presetId" fields with
         | VStr _ => true
         | _ => false
         end
  | _ => false
  end.

(** *** The transitions of the application *)

Inductive step : AppState -> AppState -> Prop :=
| step_addTiming (now : float) (st : AppState) :
    step st (snd (addTiming now st))
| step_removeTiming (id : jsval) (st : AppState) :
    step st (snd (removeTiming id st))
| step_removeRowAt (i : nat) (st : AppState) :
    step st (snd (removeRowAt i st))
| step_updateTiming (id : jsval) (patch : TimingRow.t -> TimingRow.t) (st : AppState) :
    (* updateTiming, onChooseMode and computeAndFill: a map over the rows *)
    step st (snd (updateTiming id patch st))
| step_updateRowAt (i : nat) (patch : TimingRow.t -> TimingRow.t) (st : AppState) :
    step st (snd (updateRowAt i patch st))
| step_selectPreset (p : string) (st : AppState) :
    step st (settle st (snd (setPresetId p st)))
| step_selectLanes (option : float) (st : AppState) :
    (* the Select offers LANE_OPTIONS only *)
    In option LANE_OPTIONS ->
    step st (snd (setLanes option st))
| step_editRate (n : float) (st : AppState) :
    step st (snd (setRate n st))
| step_selectCoding (c : string) (st : AppState) :
    In c ["8b10b"; "128b132b"] ->
    step st (snd (setCoding c st))
| step_import (now : float) (parseResult : outcome jsval) (st : AppState) :
    step st (settle st (fst (onImport now parseResult st))).

(** The two bounds: at most four streams, and a lane count among the
    options. *)
Definition withinBounds (st : AppState) : Prop :=
  (List.length (timings st) <= 4)%nat /\ laneIncluded (lanes st) = true.

Inductive reachable : AppState -> Prop :=
| reachable_initial (now : float) : reachable (initialState now)
| reachable_step (st st' : AppState) : reachable st -> step st st' -> reachable st'.

End Host.

(** *** A host for the examples *)

(** [Number.prototype.toString] on the whole numbers a session meets (time
    stamps and row indices), in decimal; the special values by name.  Any
    other double is printed by its significand and exponent, which stands
    for the digits a host prints. *)
Definition integerText (x : float) : string :=
  match Prim2SF x with
  | S754_nan => "NaN"
  | S754_infinity false => "Infinity"
  | S754_infinity true => "-Infinity"
  | S754_zero _ => "0"
  | S754_finite s m e =>
      if integral m e
      then NilZero.string_of_int (Z.to_int (cond_Zopp s (Z.shiftl (Zpos m) e)))
      else NilZero.string_of_int (Z.to_int (cond_Zopp s (Zpos m)))
           ++ "p" ++ NilZero.string_of_int (Z.to_int e)
  end.

Definition integerHost : Host := {| NumberToString := integerText |}.

End Binary64.
(* ===================================================================== *)
(** * Properties *)
(* ===================================================================== *)

Local Open Scope js_scope.

(* ===================================================================== *)
(** ** Arithmetic of the number model *)
(* ===================================================================== *)

Lemma Qred_ofZ (z : Z) : Qred (z # 1) = z # 1.
Proof.
  unfold Qred.
  pose proof (Z.ggcd_gcd z 1) as Hg.
  pose proof (Z.ggcd_correct_divisors z 1) as Hd.
  destruct (Z.ggcd z 1) as [g [aa bb]]; simpl in *.
  rewrite Z.gcd_1_r in Hg. subst g. destruct Hd as [-> Hb].
  replace bb with 1%Z by lia. f_equal. lia.
Qed.

Lemma fin_compat (p q : Q) : (p == q)%Q -> fin p = fin q.
Proof. intros H. unfold fin. f_equal. now apply Qred_complete. Qed.

Lemma fin_ofZ (z : Z) : fin (z # 1) = ofZ z.
Proof. unfold fin, ofZ. now rewrite Qred_ofZ. Qed.

Lemma fin_is_ofZ (q : Q) (z : Z) : (q == z # 1)%Q -> fin q = ofZ z.
Proof. intros H. rewrite (fin_compat _ _ H). apply fin_ofZ. Qed.


Lemma Math_round_ofZ (z : Z) : Math_round (ofZ z) = ofZ z.
Proof.
  unfold Math_round, ofZ. f_equal. f_equal.
  apply Z.le_antisymm.
  - apply Z.lt_succ_r. rewrite Zlt_Qlt.
    eapply Qle_lt_trans; [apply Qfloor_le|].
    unfold Qlt, Qplus, inject_Z; simpl. lia.
  - apply Z.lt_succ_r. rewrite Zlt_Qlt.
    eapply Qle_lt_trans; [|apply Qlt_floor].
    unfold Qle, Qplus, inject_Z; simpl. lia.
Qed.


Lemma hasVal_Fin (q : Q) : hasVal (Fin q) q.
Proof. simpl. reflexivity. Qed.

Lemma hasVal_fin (q : Q) : hasVal (fin q) q.
Proof. simpl. apply Qred_correct. Qed.

Lemma hasVal_lit (q : Q) : hasVal (lit q) q.
Proof. apply hasVal_fin. Qed.

Lemma hasVal_ofZ (z : Z) : hasVal (ofZ z) (inject_Z z).
Proof. simpl. reflexivity. Qed.

Lemma hasVal_eq (a : num) (x y : Q) : hasVal a x -> (x == y)%Q -> hasVal a y.
Proof. destruct a; simpl; try tauto. intros H1 H2. now rewrite H1. Qed.

Lemma nadd_val (a b : num) (x y : Q) :
  hasVal a x -> hasVal b y -> a + b = fin (x + y).
Proof.
  destruct a, b; simpl; try tauto. intros Ha Hb. apply fin_compat. now rewrite Ha, Hb.
Qed.

Lemma nsub_val (a b : num) (x y : Q) :
  hasVal a x -> hasVal b y -> a - b = fin (x - y).
Proof.
  destruct a, b; simpl; try tauto. intros Ha Hb. apply fin_compat. now rewrite Ha, Hb.
Qed.

Lemma nmul_val (a b : num) (x y : Q) :
  hasVal a x -> hasVal b y -> a * b = fin (x * y).
Proof.
  destruct a, b; simpl; try tauto. intros Ha Hb. apply fin_compat. now rewrite Ha, Hb.
Qed.

Lemma ndiv_val (a b : num) (x y : Q) :
  hasVal a x -> hasVal b y -> ~ (y == 0)%Q -> a / b = fin (x / y).
Proof.
  destruct a as [| | |p], b as [| | |q]; simpl; try tauto. intros Ha Hb Hy.
  destruct (Qeq_bool q 0) eqn:E.
  - apply Qeq_bool_eq in E. rewrite Hb in E. contradiction.
  - apply fin_compat. now rewrite Ha, Hb.
Qed.

Lemma floor_val (a : num) (x : Q) : hasVal a x -> Math_floor a = ofZ (Qfloor x).
Proof. destruct a; simpl; try tauto. intros H. now rewrite (Qfloor_comp _ _ H). Qed.

Lemma nltb_val (a b : num) (x y : Q) :
  hasVal a x -> hasVal b y ->
  (a <? b) = match (x ?= y)%Q with Lt => true | _ => false end.
Proof.
  destruct a, b; simpl; try tauto. intros Ha Hb. now rewrite Ha, Hb.
Qed.

Lemma nltb_val_true (a b : num) (x y : Q) :
  hasVal a x -> hasVal b y -> (a <? b) = true -> (x < y)%Q.
Proof.
  intros Ha Hb. rewrite (nltb_val _ _ _ _ Ha Hb).
  destruct (x ?= y)%Q eqn:E; try discriminate. intros _. now apply Qlt_alt.
Qed.

Lemma nltb_val_false (a b : num) (x y : Q) :
  hasVal a x -> hasVal b y -> (a <? b) = false -> (y <= x)%Q.
Proof.
  intros Ha Hb. rewrite (nltb_val _ _ _ _ Ha Hb).
  destruct (x ?= y)%Q eqn:E; try discriminate; intros _.
  - apply Qeq_alt in E. rewrite E. apply Qle_refl.
  - apply Qgt_alt in E. now apply Qlt_le_weak.
Qed.


Lemma canonical_fin (q : Q) : canonical (fin q).
Proof. simpl. apply Qred_complete. apply Qred_correct. Qed.


Lemma hasVal_add (a b : num) (x y : Q) :
  hasVal a x -> hasVal b y -> hasVal (a + b) (x + y).
Proof. intros Ha Hb. rewrite (nadd_val _ _ _ _ Ha Hb). apply hasVal_fin. Qed.

Lemma hasVal_sub (a b : num) (x y : Q) :
  hasVal a x -> hasVal b y -> hasVal (a - b) (x - y).
Proof. intros Ha Hb. rewrite (nsub_val _ _ _ _ Ha Hb). apply hasVal_fin. Qed.

Lemma hasVal_mul (a b : num) (x y : Q) :
  hasVal a x -> hasVal b y -> hasVal (a * b) (x * y).
Proof. intros Ha Hb. rewrite (nmul_val _ _ _ _ Ha Hb). apply hasVal_fin. Qed.

Lemma hasVal_div (a b : num) (x y : Q) :
  hasVal a x -> hasVal b y -> ~ (y == 0)%Q -> hasVal (a / b) (x / y).
Proof. intros Ha Hb Hy. rewrite (ndiv_val _ _ _ _ Ha Hb Hy). apply hasVal_fin. Qed.


(** Integers. *)
Lemma ofZ_add (a b : Z) : ofZ a + ofZ b = ofZ (a + b).
Proof.
  rewrite (nadd_val _ _ _ _ (hasVal_ofZ a) (hasVal_ofZ b)).
  apply fin_is_ofZ. unfold Qeq, Qplus, inject_Z; simpl; lia.
Qed.

Lemma ofZ_sub (a b : Z) : ofZ a - ofZ b = ofZ (a - b).
Proof.
  rewrite (nsub_val _ _ _ _ (hasVal_ofZ a) (hasVal_ofZ b)).
  apply fin_is_ofZ. unfold Qeq, Qminus, Qplus, Qopp, inject_Z; simpl; lia.
Qed.

Lemma ofZ_mul (a b : Z) : ofZ a * ofZ b = ofZ (a * b).
Proof.
  rewrite (nmul_val _ _ _ _ (hasVal_ofZ a) (hasVal_ofZ b)).
  apply fin_is_ofZ. unfold Qeq, Qmult, inject_Z; simpl; lia.
Qed.


(* ===================================================================== *)
(** ** Vertical sync width selection *)
(* ===================================================================== *)

Lemma cellGran_value : Math_floor CVT_CELL_GRAN = lit 8.
Proof. reflexivity. Qed.


(* ===================================================================== *)
(** ** Reduced blanking *)
(* ===================================================================== *)

Lemma Qcompare_pos (y : Q) : (0 < y)%Q -> (y ?= 0)%Q = Gt.
Proof. intros H. now apply Qgt_alt. Qed.


(* ===================================================================== *)
(** ** Blanking consistency *)
(* ===================================================================== *)


#[local] Hint Constructors whole : core.

Lemma whole_floor (a : num) : whole (Math_floor a).
Proof. destruct a; simpl; auto. Qed.

Lemma whole_add_int (a : num) (c : Z) : whole a -> whole (a + ofZ c).
Proof. intros [| | |z]; try (simpl; auto; fail). rewrite ofZ_add. auto. Qed.


Lemma whole_if (b : bool) (x y : num) : whole x -> whole y -> whole (if b then x else y).
Proof. now destruct b. Qed.

Lemma Math_round_whole (a : num) : whole a -> Math_round a = a.
Proof. intros [| | |z]; try reflexivity. apply Math_round_ofZ. Qed.

(** Three parts of a whole number, rounded, add up to it. *)
Lemma parts_of_whole (a : num) (c d : Z) :
  whole a ->
  Math_round (ofZ c) + Math_round (ofZ d) + Math_round (a - ofZ c - ofZ d)
  = Math_round a.
Proof.
  intros [| | |z]; rewrite !Math_round_ofZ, ofZ_add; try reflexivity.
  rewrite !ofZ_sub, !Math_round_ofZ, ofZ_add. f_equal. lia.
Qed.

Lemma parts_of_whole' (a : num) (c d : Z) :
  whole a ->
  Math_round (a - ofZ c - ofZ d) + Math_round (ofZ c) + Math_round (ofZ d)
  = Math_round a.
Proof.
  intros [| | |z]; rewrite !Math_round_ofZ; try reflexivity.
  rewrite !ofZ_sub, !Math_round_ofZ, !ofZ_add. f_equal. lia.
Qed.

Lemma parts_of_whole_plus (a : num) (c d : Z) :
  whole a ->
  Math_round (ofZ c) + Math_round (ofZ d) + Math_round (a - ofZ d)
  = Math_round (a + ofZ c).
Proof.
  intros [| | |z]; rewrite !Math_round_ofZ, ofZ_add; try reflexivity.
  rewrite !ofZ_sub, !Math_round_ofZ, !ofZ_add, Math_round_ofZ. f_equal. lia.
Qed.

Lemma vSyncRounded_int (p : CvtProfile) (aspect : string) :
  exists k : Z, vSyncRounded p aspect = ofZ k.
Proof.
  unfold vSyncRounded.
  destruct p; [| |exists 8%Z; reflexivity];
    repeat match goal with
           | |- context [String.eqb ?a ?b] => destruct (String.eqb a b)
           end;
    first [exists 4%Z; reflexivity | exists 5%Z; reflexivity | exists 6%Z; reflexivity
          | exists 7%Z; reflexivity | exists 10%Z; reflexivity].
Qed.

(** The reduced-blanking arm, on any input. *)
Lemma reducedArm_consistent (p : CvtProfile) (videoOptimized : bool)
    (rate activePixels lines top bottom halfLine : num) (k : Z) :
  p <> cvt ->
  let r := reducedArm p (clockParams p videoOptimized) rate activePixels lines
             top bottom halfLine (ofZ k) in
  hFront r + hSync r + hBack r = hBlank r
  /\ vFront r + vSync r + vBack r = vBlank r.
Proof.
  intros Hp. unfold reducedArm. cbv zeta.
  change CVT_MIN_V_BPORCH with (ofZ 6).
  set (vbi := Math_floor _ + lit 1).
  assert (Hvbi : whole vbi) by (apply (whole_add_int _ 1), whole_floor).
  destruct p; [congruence | |].
  - cbn [clockParams rbVFrontPorch rbHBlank rbHSync hFront hSync hBack hBlank
         vFront vSync vBack vBlank].
    split; [reflexivity|].
    change (lit 3) with (ofZ 3). rewrite !ofZ_add.
    apply parts_of_whole. apply whole_if; auto.
  - cbn [clockParams rbVFrontPorch rbHBlank rbHSync hFront hSync hBack hBlank
         vFront vSync vBack vBlank].
    split; [reflexivity|].
    change (lit 1) with (ofZ 1). change (lit 6) with (ofZ 6). rewrite !ofZ_add.
    apply parts_of_whole'. apply whole_if; auto.
Qed.

(** The horizontal split of the standard arm, for a duty cycle below 100%. *)
Lemma hblank_split (t : Z) (duty : num) (d : Q) :
  hasVal duty d -> (d < 100)%Q ->
  let hBlank :=
    Math_floor (ofZ t * duty / (lit 100 - duty) / (lit 2 * lit 8)) * (lit 2 * lit 8) in
  let totalPixels := ofZ t + hBlank in
  let hSync := Math_floor (CVT_HSYNC_PERCENT * totalPixels / lit 8) * lit 8 in
  let hBackPorch := hBlank / lit 2 in
  let hFrontPorch := hBlank - hSync - hBackPorch in
  Math_round hFrontPorch + Math_round hSync + Math_round hBackPorch
  = Math_round hBlank.
Proof.
  intros Hd Hlt. cbv zeta.
  change (lit 2 * lit 8) with (ofZ 16). change (lit 8) with (ofZ 8).
  assert (Hx : hasVal (ofZ t * duty / (lit 100 - duty) / ofZ 16)
                 (inject_Z t * d / (100 - d) / inject_Z 16)).
  { apply hasVal_div; [apply hasVal_div| apply hasVal_ofZ | discriminate].
    - apply hasVal_mul; [apply hasVal_ofZ | exact Hd].
    - apply hasVal_sub; [apply hasVal_lit | exact Hd].
    - lra. }
  rewrite (floor_val _ _ Hx).
  set (b := Qfloor _). rewrite ofZ_mul, ofZ_add.
  assert (Hs : hasVal (CVT_HSYNC_PERCENT * ofZ (t + b * 16) / ofZ 8)
                 (0.08 * inject_Z (t + b * 16) / inject_Z 8)).
  { apply hasVal_div; [apply hasVal_mul| apply hasVal_ofZ | discriminate].
    - apply hasVal_lit.
    - apply hasVal_ofZ. }
  rewrite (floor_val _ _ Hs).
  set (c := Qfloor _). rewrite ofZ_mul.
  assert (Hhalf : ofZ (b * 16) / lit 2 = ofZ (b * 8)).
  { rewrite (ndiv_val _ _ _ _ (hasVal_ofZ _) (hasVal_lit 2)) by discriminate.
    apply fin_is_ofZ. unfold Qeq, Qdiv, Qmult, Qinv, inject_Z; simpl. lia. }
  rewrite Hhalf, !ofZ_sub, !Math_round_ofZ, !ofZ_add. f_equal. lia.
Qed.

(** The line estimate of the standard arm and its duty cycle, for a positive
    field rate and at least three lines. *)
Lemma idealDutyCycle_below_100 (rate lines : num) (r n : Q) :
  hasVal rate r -> (0 < r)%Q -> hasVal lines n -> (3 <= n)%Q ->
  exists d : Q,
    hasVal (CVT_C_PRIME
            - (CVT_M_PRIME
               * (((lit 1 / rate) - CVT_MIN_VSYNC_BP / lit 1000000) / lines
                  * lit 1000000)
               / lit 1000)) d
    /\ (d < 100)%Q.
Proof.
  intros Hr Hrpos Hn Hnpos.
  exists (30 - 300 * ((1 / r - 550 / 1000000) / n * 1000000) / 1000)%Q.
  split.
  - apply hasVal_sub; [apply hasVal_lit|].
    apply hasVal_div; [| apply hasVal_lit | discriminate].
    apply hasVal_mul; [apply hasVal_lit|].
    apply hasVal_mul; [| apply hasVal_lit].
    apply hasVal_div; [| exact Hn | lra].
    apply hasVal_sub.
    + apply hasVal_div; [apply hasVal_lit | exact Hr | lra].
    + apply hasVal_div; [apply hasVal_lit | apply hasVal_lit | discriminate].
  - assert (Hi : (0 < / r)%Q) by (apply Qinv_lt_0_compat; exact Hrpos).
    assert (Hj : (0 < / n)%Q) by (apply Qinv_lt_0_compat; lra).
    assert (Hj3 : (/ n <= 1 # 3)%Q).
    { apply Qle_shift_inv_r; lra. }
    assert (Hij : (0 < / r * / n)%Q) by (apply Qmult_lt_0_compat; assumption).
    assert (E : (30 - 300 * ((1 / r - 550 / 1000000) / n * 1000000) / 1000
                 == 30 - 300000 * (/ r * / n) + 165 * / n)%Q) by (field; lra).
    rewrite E. lra.
Qed.

(** The standard arm, for a positive field rate and whole, non-negative
    line counts. *)
Lemma standardArm_consistent (videoOptimized : bool)
    (rate halfLine : num) (r i : Q) (t l m k : Z) :
  hasVal rate r -> (0 < r)%Q -> hasVal halfLine i -> (0 <= i)%Q ->
  (0 <= l)%Z -> (0 <= m)%Z ->
  let res := standardArm (clockParams cvt videoOptimized) (lit 8) rate
               (ofZ t) (ofZ l) (ofZ m) (ofZ m) halfLine (ofZ k) in
  hFront res + hSync res + hBack res = hBlank res
  /\ vFront res + vSync res + vBack res = vBlank res.
Proof.
  intros Hr Hrpos Hi Hipos Hl Hm. unfold standardArm. cbv zeta.
  cbn [hFront hSync hBack hBlank vFront vSync vBack vBlank].
  split.
  - assert (Hn : hasVal (ofZ l + lit 2 * ofZ m + CVT_MIN_V_PORCH + halfLine)
                   (inject_Z l + 2 * inject_Z m + 3 + i)).
    { change CVT_MIN_V_PORCH with (lit 3).
      repeat apply hasVal_add; try apply hasVal_mul;
        auto using hasVal_ofZ, hasVal_lit. }
    assert (Hn3 : (3 <= inject_Z l + 2 * inject_Z m + 3 + i)%Q).
    { assert (0 <= inject_Z l)%Q by (unfold Qle, inject_Z; simpl; lia).
      assert (0 <= inject_Z m)%Q by (unfold Qle, inject_Z; simpl; lia).
      lra. }
    destruct (idealDutyCycle_below_100 _ _ _ _ Hr Hrpos Hn Hn3) as [d [Hd Hlt]].
    destruct (_ <? lit 20).
    + apply (hblank_split t (lit 20) 20); [apply hasVal_lit | reflexivity].
    + apply (hblank_split t _ d Hd Hlt).
  - change CVT_MIN_V_PORCH with (ofZ 3). change CVT_MIN_V_BPORCH with (ofZ 6).
    rewrite ofZ_add.
    apply parts_of_whole_plus. apply whole_if; auto.
    apply (whole_add_int _ 1), whole_floor.
Qed.

Lemma Qfloor_nonneg (q : Q) : (0 <= q)%Q -> (0 <= Qfloor q)%Z.
Proof. intros H. change 0%Z with (Qfloor 0). now apply Qfloor_resp_le. Qed.

Lemma inject_Z_nonneg (z : Z) : (0 <= z)%Z -> (0 <= inject_Z z)%Q.
Proof. intros H. unfold Qle, inject_Z; simpl. lia. Qed.

Lemma hPixelsRounded_int (h : Q) :
  exists a : Z, Math_floor (Fin h / lit 8) * lit 8 = ofZ a.
Proof.
  rewrite (floor_val _ (h / 8)).
  - change (lit 8) with (ofZ 8). rewrite ofZ_mul. eauto.
  - apply hasVal_div; [apply hasVal_Fin | apply hasVal_lit | discriminate].
Qed.

Lemma leftMargin_int (a : Z) (margins : bool) :
  exists b : Z,
    (if margins
     then Math_floor ((ofZ a * CVT_MARGIN_PERCENT / lit 100) / lit 8) * lit 8
     else lit 0) = ofZ b.
Proof.
  destruct margins; [|exists 0%Z; reflexivity].
  change CVT_MARGIN_PERCENT with (lit 1.8).
  rewrite (floor_val _ (inject_Z a * 1.8 / 100 / 8)).
  - change (lit 8) with (ofZ 8). rewrite ofZ_mul. eauto.
  - repeat apply hasVal_div; try apply hasVal_mul;
      auto using hasVal_ofZ, hasVal_lit; discriminate.
Qed.


Lemma topMargin_int (l : Z) (margins : bool) :
  (0 <= l)%Z ->
  exists m : Z,
    (0 <= m)%Z
    /\ (if margins then Math_floor (ofZ l * CVT_MARGIN_PERCENT / lit 100) else lit 0)
       = ofZ m.
Proof.
  intros Hl. destruct margins; [|exists 0%Z; split; [lia | reflexivity]].
  change CVT_MARGIN_PERCENT with (lit 1.8).
  exists (Qfloor (inject_Z l * 1.8 / 100)). split.
  - apply Qfloor_nonneg. pose proof (inject_Z_nonneg l Hl).
    apply Qle_shift_div_l; [reflexivity|]. lra.
  - apply floor_val.
    apply hasVal_div; [apply hasVal_mul | apply hasVal_lit | discriminate];
      auto using hasVal_ofZ, hasVal_lit.
Qed.


(** *** The same sums under the equality of JavaScript

    [a === a] fails for NaN only.  With at least one active line per field
    the blanks of the descriptor are numbers, so the two sums are equal in
    the sense of [===] as well. *)

Lemma neqb_refl (a : num) : a <> NaN -> (a === a) = true.
Proof.
  destruct a as [| | |q]; try congruence; intros _; try reflexivity.
  apply Qeq_eq_bool. reflexivity.
Qed.

Lemma whole_round_not_NaN (a : num) : whole a -> a <> NaN -> Math_round a <> NaN.
Proof. intros Hw Ha. now rewrite (Math_round_whole a Hw). Qed.

(** [floor(c / a) + 1] for a positive constant [c] and a finite [a]. *)
Lemma lines_for_time_not_NaN (c a : num) (x y : Q) :
  hasVal c x -> (0 < x)%Q -> hasVal a y -> Math_floor (c / a) + lit 1 <> NaN.
Proof.
  intros Hc Hx Ha. destruct c as [| | |p]; simpl in Hc; try tauto.
  destruct a as [| | |q]; simpl in Ha; try tauto.
  cbn [ndiv]. destruct (Qeq_bool q 0).
  - rewrite Hc, (Qcompare_pos _ Hx). discriminate.
  - discriminate.
Qed.

Lemma if_not_NaN (b : bool) (x y : num) :
  x <> NaN -> y <> NaN -> (if b then x else y) <> NaN.
Proof. now destruct b. Qed.

Lemma floored_lines_not_NaN (minLines : Z) (c a : num) (x y : Q) :
  hasVal c x -> (0 < x)%Q -> hasVal a y ->
  Math_round (if Math_floor (c / a) + lit 1 <? ofZ minLines
              then ofZ minLines
              else Math_floor (c / a) + lit 1) <> NaN.
Proof.
  intros Hc Hx Ha. apply whole_round_not_NaN.
  - apply whole_if; [apply whole_ofZ | apply (whole_add_int _ 1), whole_floor].
  - apply if_not_NaN; [discriminate|]. eapply lines_for_time_not_NaN; eauto.
Qed.

Lemma reducedArm_vBlank_not_NaN (p : CvtProfile) (videoOptimized : bool)
    (rate activePixels halfLine : num) (r : Q) (l m k : Z) :
  p <> cvt -> hasVal rate r -> (0 < r)%Q -> (1 <= l)%Z -> (0 <= m)%Z ->
  let res := reducedArm p (clockParams p videoOptimized) rate activePixels
               (ofZ l) (ofZ m) (ofZ m) halfLine (ofZ k) in
  hBlank res <> NaN /\ vBlank res <> NaN.
Proof.
  intros Hp Hr Hrpos Hl Hm. unfold reducedArm. cbv zeta.
  assert (Hden : ~ (inject_Z l + inject_Z m + inject_Z m == 0)%Q).
  { pose proof (inject_Z_nonneg m Hm).
    assert (1 <= inject_Z l)%Q by (unfold Qle, inject_Z; simpl; lia). lra. }
  assert (HP : hasVal ((lit 1000000 / rate - lit 460) / (ofZ l + ofZ m + ofZ m))
                 ((1000000 / r - 460) / (inject_Z l + inject_Z m + inject_Z m))).
  { apply hasVal_div; [| |exact Hden].
    - apply hasVal_sub; [|apply hasVal_lit].
      apply hasVal_div; [apply hasVal_lit | exact Hr | lra].
    - repeat apply hasVal_add; apply hasVal_ofZ. }
  change CVT_MIN_V_BPORCH with (ofZ 6).
  destruct p; [congruence | |].
  - cbn [clockParams rbVFrontPorch rbHBlank rbMinVBlank hBlank vBlank].
    split; [discriminate|].
    change (lit 3) with (ofZ 3). rewrite !ofZ_add in *.
    eapply floored_lines_not_NaN; [apply (hasVal_lit 460) | reflexivity | exact HP].
  - cbn [clockParams rbVFrontPorch rbHBlank rbMinVBlank hBlank vBlank].
    split; [discriminate|].
    change (lit 1 + ofZ k) with (ofZ 1 + ofZ k). rewrite !ofZ_add in *.
    eapply floored_lines_not_NaN; [apply (hasVal_lit 460) | reflexivity | exact HP].
Qed.

Lemma standardArm_vBlank_not_NaN (videoOptimized : bool)
    (rate halfLine : num) (r i : Q) (t l m k : Z) :
  hasVal rate r -> (0 < r)%Q -> hasVal halfLine i -> (0 <= i)%Q ->
  (0 <= l)%Z -> (0 <= m)%Z ->
  let res := standardArm (clockParams cvt videoOptimized) (lit 8) rate
               (ofZ t) (ofZ l) (ofZ m) (ofZ m) halfLine (ofZ k) in
  vBlank res <> NaN.
Proof.
  intros Hr Hrpos Hi Hipos Hl Hm. unfold standardArm. cbv zeta. cbn [vBlank].
  change CVT_MIN_V_PORCH with (ofZ 3). change CVT_MIN_V_BPORCH with (ofZ 6).
  change CVT_MIN_VSYNC_BP with (lit 550).
  assert (Hden : ~ (inject_Z l + 2 * inject_Z m + inject_Z 3 + i == 0)%Q).
  { pose proof (inject_Z_nonneg l Hl). pose proof (inject_Z_nonneg m Hm).
    change (inject_Z 3) with 3%Q. lra. }
  assert (HP : hasVal
                 ((lit 1 / rate - lit 550 / lit 1000000)
                  / (ofZ l + lit 2 * ofZ m + ofZ 3 + halfLine) * lit 1000000)
                 ((1 / r - 550 / 1000000)
                  / (inject_Z l + 2 * inject_Z m + inject_Z 3 + i) * 1000000)).
  { apply hasVal_mul; [|apply hasVal_lit].
    apply hasVal_div; [| |exact Hden].
    - apply hasVal_sub.
      + apply hasVal_div; [apply hasVal_lit | exact Hr | lra].
      + apply hasVal_div; [apply hasVal_lit | apply hasVal_lit | discriminate].
    - repeat apply hasVal_add; try apply hasVal_mul;
        auto using hasVal_ofZ, hasVal_lit. }
  rewrite ofZ_add.
  set (vsbp := if _ <? _ then _ else _).
  assert (Hw : whole vsbp).
  { apply whole_if; [apply whole_ofZ | apply (whole_add_int _ 1), whole_floor]. }
  assert (Hn : vsbp <> NaN).
  { apply if_not_NaN; [discriminate|].
    eapply lines_for_time_not_NaN; [apply hasVal_lit | reflexivity | apply HP]. }
  apply whole_round_not_NaN; [now apply whole_add_int|].
  destruct Hw; try congruence; try discriminate.
Qed.

Lemma standardArm_hBlank_not_NaN (videoOptimized : bool)
    (rate halfLine : num) (r i : Q) (t l m k : Z) :
  hasVal rate r -> (0 < r)%Q -> hasVal halfLine i -> (0 <= i)%Q ->
  (0 <= l)%Z -> (0 <= m)%Z ->
  let res := standardArm (clockParams cvt videoOptimized) (lit 8) rate
               (ofZ t) (ofZ l) (ofZ m) (ofZ m) halfLine (ofZ k) in
  hBlank res <> NaN.
Proof.
  intros Hr Hrpos Hi Hipos Hl Hm. unfold standardArm. cbv zeta. cbn [hBlank].
  assert (Hn : hasVal (ofZ l + lit 2 * ofZ m + CVT_MIN_V_PORCH + halfLine)
                 (inject_Z l + 2 * inject_Z m + 3 + i)).
  { change CVT_MIN_V_PORCH with (lit 3).
    repeat apply hasVal_add; try apply hasVal_mul;
      auto using hasVal_ofZ, hasVal_lit. }
  assert (Hn3 : (3 <= inject_Z l + 2 * inject_Z m + 3 + i)%Q).
  { pose proof (inject_Z_nonneg l Hl). pose proof (inject_Z_nonneg m Hm). lra. }
  destruct (idealDutyCycle_below_100 _ _ _ _ Hr Hrpos Hn Hn3) as [d [Hd Hlt]].
  assert (Hfin : forall (duty : num) (x : Q),
             hasVal duty x -> (x < 100)%Q ->
             Math_round
               (Math_floor (ofZ t * duty / (lit 100 - duty) / (lit 2 * lit 8))
                * (lit 2 * lit 8)) <> NaN).
  { intros duty x Hx Hx100. change (lit 2 * lit 8) with (ofZ 16).
    rewrite (floor_val _ (inject_Z t * x / (100 - x) / inject_Z 16)).
    - rewrite ofZ_mul, Math_round_ofZ. discriminate.
    - apply hasVal_div; [apply hasVal_div| apply hasVal_ofZ | discriminate].
      + apply hasVal_mul; [apply hasVal_ofZ | exact Hx].
      + apply hasVal_sub; [apply hasVal_lit | exact Hx].
      + lra. }
  destruct (_ <? lit 20).
  - apply (Hfin (lit 20) 20); [apply hasVal_lit | reflexivity].
  - apply (Hfin _ d Hd Hlt).
Qed.


(* ===================================================================== *)
(** ** Aggregation *)
(* ===================================================================== *)

Lemma nadd_comm (a b : num) : a + b = b + a.
Proof.
  destruct a, b; simpl; try reflexivity. apply fin_compat. ring.
Qed.

Lemma nadd_assoc (a b c : num) : a + (b + c) = (a + b) + c.
Proof.
  destruct a, b, c; cbn [nadd fin]; try reflexivity.
  apply fin_compat. rewrite !Qred_correct. ring.
Qed.

Lemma canonical_nadd (a b : num) : canonical (a + b).
Proof. destruct a, b; simpl; try exact I. apply (canonical_fin (q + q0)). Qed.

Lemma nadd_0_r (a : num) : canonical a -> a + lit 0 = a.
Proof.
  destruct a as [| | |q]; simpl; try reflexivity. intros H.
  rewrite <- H at 2. apply fin_compat. ring.
Qed.


(** The running total of [reduce] is the sum of the selected rates. *)
Lemma totalGbps_sum (st : AppState) :
  totalGbps st = Spec.totalRequired (map selectedRate (parsed (timings st))).
Proof.
  unfold totalGbps, Spec.totalRequired.
  rewrite <- (fold_symmetric nadd).
  - generalize (lit 0). induction (parsed (timings st)) as [|p l IH]; intros a.
    + reflexivity.
    + simpl. apply IH.
  - intros x y z. apply nadd_assoc.
  - intros y. apply nadd_comm.
Qed.


Lemma num_or_not_NaN (a : num) : num_or a (lit 0) <> NaN.
Proof. unfold num_or. destruct a; simpl; try discriminate. now destruct (Qeq_bool q 0). Qed.

Lemma selectedRate_not_NaN (t : TimingRow.t) : selectedRate (parseRow t) <> NaN.
Proof.
  unfold selectedRate, parseRow. cbn [row peak peakDsc].
  destruct (TimingRow.useDsc t); apply num_or_not_NaN.
Qed.

Lemma canonical_totalRequired (rates : list num) : canonical (Spec.totalRequired rates).
Proof.
  destruct rates as [|r l]; cbn [Spec.totalRequired fold_right].
  - reflexivity.
  - apply canonical_nadd.
Qed.

Lemma totalRequired_skip_zero (l1 l2 : list num) :
  Spec.totalRequired (l1 ++ lit 0 :: l2) = Spec.totalRequired (l1 ++ l2).
Proof.
  unfold Spec.totalRequired.
  induction l1 as [|a l1 IH]; cbn [app fold_right].
  - rewrite nadd_comm. apply nadd_0_r. apply canonical_totalRequired.
  - now rewrite IH.
Qed.


(* ===================================================================== *)
(** ** Import *)
(* ===================================================================== *)


Section HostProperties.

Context {host : Host}.

Lemma getProp_throws (v : jsval) (key : string) :
  getProp v key = Thrown <-> isNullish v = true.
Proof. destruct v; simpl; split; congruence. Qed.

Lemma getProp_field (v : jsval) (key : string) :
  isNullish v = false -> getProp v key = Ok (field v key).
Proof. unfold field. destruct v; try discriminate; reflexivity. Qed.

(** *** Coercions that throw *)

Lemma ToNumber_throws (v : jsval) : ToNumber v = Thrown <-> coercible v = false.
Proof.
  unfold coercible.
  destruct v as [| |[]| | |items|fields]; cbn [ToNumber];
    try (cbn [ToString]; split; discriminate).
  - destruct (ToString (VArr items)); split; congruence.
  - destruct (ToString (VObj fields)); split; congruence.
Qed.

Lemma ToString_throws (v : jsval) : ToString v = Thrown <-> coercible v = false.
Proof. unfold coercible. destruct (ToString v); split; congruence. Qed.

Lemma ToNumber_numberOf (v : jsval) : coercible v = true -> ToNumber v = Ok (numberOf v).
Proof.
  intros H. unfold numberOf. destruct (ToNumber v) eqn:E; [reflexivity|].
  apply ToNumber_throws in E. congruence.
Qed.

Lemma coercible_nullish (v : jsval) (s : string) :
  coercible (nullish v (VStr s)) = coercible v.
Proof. destruct v; reflexivity. Qed.


Lemma ToString_ok (v : jsval) :
  coercible v = true -> ToString v = Ok (valueOr "" (ToString v)).
Proof.
  intros H. destruct (ToString v) eqn:E; [reflexivity|].
  apply ToString_throws in E. congruence.
Qed.

(** One conversion of the callback: it throws, or it gives its value. *)
Ltac convert_field :=
  match goal with
  | |- context [andThen (ToNumber (field ?t ?k))] =>
      let C := fresh "C" in
      destruct (coercible (field t k)) eqn:C;
      [ rewrite (ToNumber_numberOf _ C); cbn [andThen negb orb]
      | apply ToNumber_throws in C; rewrite C; cbn [andThen negb orb];
        split; reflexivity ]
  | |- context [andThen (ToString (nullish (field ?t ?k) (VStr ?d)))] =>
      let C := fresh "C" in
      destruct (coercible (field t k)) eqn:C;
      [ rewrite (ToString_ok (nullish (field t k) (VStr d)))
          by (rewrite coercible_nullish; exact C);
        cbn [andThen negb orb]
      | rewrite <- (coercible_nullish _ d) in C;
        apply ToString_throws in C; rewrite C; cbn [andThen negb orb];
        split; reflexivity ]
  end.

(** The callback throws exactly on a malformed entry. *)
Lemma restoreRow_throws (now : num) (t : jsval) (i : nat) :
  restoreRow now t i = Thrown <-> malformedEntry t = true.
Proof.
  unfold malformedEntry. destruct (isNullish t) eqn:N.
  - unfold restoreRow.
    assert (E : getProp t "colorFormat" = Thrown) by now apply getProp_throws.
    rewrite E. split; reflexivity.
  - unfold restoreRow. rewrite (getProp_field t "colorFormat" N).
    cbn [andThen orb existsb coercedFields].
    do 15 convert_field.
    split; discriminate.
Qed.

Lemma restoreRows_throws (now : num) (items : list jsval) (i : nat) :
  restoreRows now items i = Thrown <-> existsb malformedEntry items = true.
Proof.
  revert i. induction items as [|t items IH]; intros i; simpl.
  - split; discriminate.
  - rewrite orb_true_iff, <- (IH (S i)), <- (restoreRow_throws now t i).
    destruct (restoreRow now t i); [|tauto].
    destruct (restoreRows now items (S i)); split; try tauto; try discriminate.
    intros [H | H]; discriminate.
Qed.

Lemma restoreRows_length (now : num) (items : list jsval) (i : nat)
    (rs : list TimingRow.t) :
  restoreRows now items i = Ok rs -> List.length rs = List.length items.
Proof.
  revert i rs. induction items as [|t items IH]; intros i rs; simpl.
  - intros H. injection H as <-. reflexivity.
  - destruct (restoreRow now t i); [|discriminate].
    destruct (restoreRows now items (S i)) eqn:E; [|discriminate].
    intros H. injection H as <-. simpl. f_equal. eapply IH. exact E.
Qed.


(** Where the handler stops decides the state it leaves and the alert. *)
Lemma onImport_outcome
    (now : num) (parseResult : outcome jsval) (st : AppState) :
  onImport now parseResult st
  = match parseResult with
    | Ok j =>
        (stoppedState now j st (importEnd parseResult),
         alertsOf (importEnd parseResult))
    | Thrown => (st, ["Invalid JSON file."])
    end.
Proof.
  destruct parseResult as [j|]; [|reflexivity].
  unfold onImport, onloadBody, importEnd.
  destruct (isNullish j) eqn:N.
  { destruct j; try discriminate; reflexivity. }
  unfold bind at 1. unfold lift at 1. cbv beta iota.
  unfold bind at 1. unfold lift at 1. rewrite (getProp_field j "timings" N). cbv beta iota.
  destruct st as [ts pid ln rt cd].
  unfold stoppedState, importedState, importedTimings, importedRate.
  destruct (field j "timings") as [| |b|n|s|items|fs] eqn:Et.
  all: try (unfold bind, lift, ret, setRate, setLanes, setCoding, setPresetId;
            rewrite (getProp_field j "transport" N), (getProp_field j "presetId" N);
            cbv beta iota;
            destruct (ToBoolean (field j "transport")); cbn [andb];
            [ destruct (coercible (field (field j "transport") "rate")) eqn:Cr;
              [ rewrite (ToNumber_numberOf _ Cr); cbn [negb];
                destruct (coercible (field (field j "transport") "lanes")) eqn:Cl;
                [ rewrite (ToNumber_numberOf _ Cl); cbn [negb];
                  destruct (field j "presetId"); reflexivity
                | apply ToNumber_throws in Cl; rewrite Cl; reflexivity ]
              | apply ToNumber_throws in Cr; rewrite Cr; reflexivity ]
            | destruct (field j "presetId"); reflexivity ]; fail).
  destruct (existsb malformedEntry items) eqn:Ex.
  - apply restoreRows_throws with (now := now) (i := 0%nat) in Ex.
    unfold bind, lift. now rewrite Ex.
  - destruct (restoreRows now items 0) as [rs|] eqn:Er;
      [|apply restoreRows_throws in Er; congruence].
    unfold bind, lift, ret, setTimings, setRate, setLanes, setCoding, setPresetId.
    rewrite (getProp_field j "transport" N), (getProp_field j "presetId" N).
    cbv beta iota.
    destruct (ToBoolean (field j "transport")); cbn [andb].
    + destruct (coercible (field (field j "transport") "rate")) eqn:Cr.
      * rewrite (ToNumber_numberOf _ Cr); cbn [negb].
        destruct (coercible (field (field j "transport") "lanes")) eqn:Cl.
        -- rewrite (ToNumber_numberOf _ Cl); cbn [negb].
           destruct (firstn 4 rs); destruct (field j "presetId"); reflexivity.
        -- apply ToNumber_throws in Cl; rewrite Cl.
           destruct (firstn 4 rs); reflexivity.
      * apply ToNumber_throws in Cr; rewrite Cr.
        destruct (firstn 4 rs); reflexivity.
    + destruct (firstn 4 rs); destruct (field j "presetId"); reflexivity.
Qed.


(** *** Reading an exported row back *)

Lemma lookup_cons_ne (k key : string) (x : jsval) (rest : list (string * jsval)) :
  (k =? key) = false -> lookup key ((k, x) :: rest) = lookup key rest.
Proof. intros H. cbn [lookup]. now rewrite H. Qed.

Lemma lookup_cons_eq (key : string) (x : jsval) (rest : list (string * jsval)) :
  lookup key ((key, x) :: rest) = x.
Proof. cbn [lookup]. now rewrite String.eqb_refl. Qed.

Lemma lookup_numProp_ne (name key : string) (o : option num)
    (rest : list (string * jsval)) :
  (name =? key) = false -> lookup key (numProp name o ++ rest) = lookup key rest.
Proof. intros H. destruct o; [apply lookup_cons_ne, H | reflexivity]. Qed.

Lemma lookup_boolProp_ne (name key : string) (o : option bool)
    (rest : list (string * jsval)) :
  (name =? key) = false -> lookup key (boolProp name o ++ rest) = lookup key rest.
Proof. intros H. destruct o; [apply lookup_cons_ne, H | reflexivity]. Qed.

Lemma lookup_strProp_ne (name key : string) (o : option string)
    (rest : list (string * jsval)) :
  (name =? key) = false -> lookup key (strProp name o ++ rest) = lookup key rest.
Proof. intros H. destruct o; [apply lookup_cons_ne, H | reflexivity]. Qed.

Lemma lookup_valProp_ne (name key : string) (x : jsval)
    (rest : list (string * jsval)) :
  (name =? key) = false -> lookup key (valProp name x ++ rest) = lookup key rest.
Proof. intros H. destruct x; try apply lookup_cons_ne, H. reflexivity. Qed.

Lemma lookup_numProp_eq (key : string) (o : option num)
    (rest : list (string * jsval)) :
  lookup key (numProp key o ++ rest)
  = match o with
    | Some n => jsonNumber n
    | None => lookup key rest
    end.
Proof. destruct o; [apply lookup_cons_eq | reflexivity]. Qed.

Ltac skip_props :=
  repeat first
    [ rewrite lookup_numProp_ne by reflexivity
    | rewrite lookup_boolProp_ne by reflexivity
    | rewrite lookup_strProp_ne by reflexivity
    | rewrite lookup_valProp_ne by reflexivity
    | rewrite lookup_cons_ne by reflexivity ].

(** A finite number that was set comes back; an unset field stays unset. *)
Lemma numProp_restored (key : string) (o : option num)
    (rest : list (string * jsval)) :
  finiteOrUnset o -> lookup key rest = VUndef ->
  finiteOrUndefined (numberOf (lookup key (numProp key o ++ rest))) = o.
Proof.
  intros Ho Hrest. rewrite lookup_numProp_eq. destruct o as [n|].
  - simpl in Ho. unfold jsonNumber. rewrite Ho. unfold numberOf. cbn [ToNumber valueOr].
    unfold finiteOrUndefined. now rewrite Ho.
  - now rewrite Hrest.
Qed.

(** The value an export writes for a number is coercible. *)
Lemma coercible_jsonNumber (n : num) : coercible (jsonNumber n) = true.
Proof. unfold jsonNumber. now destruct (Number_isFinite n). Qed.

Lemma coercible_numProp (key : string) (o : option num)
    (rest : list (string * jsval)) :
  coercible (lookup key rest) = true ->
  coercible (lookup key (numProp key o ++ rest)) = true.
Proof.
  intros H. rewrite lookup_numProp_eq. destruct o; [apply coercible_jsonNumber | exact H].
Qed.

(** No converted field of an exported row is an object. *)
Lemma exported_field_coercible (p : ParsedRow) (key : string) :
  In key coercedFields -> coercible (field (exportRow p) key) = true.
Proof.
  unfold coercedFields, field, exportRow. cbn [getProp In].
  intros H.
  repeat match type of H with
         | _ \/ _ => destruct H as [<-|H]
         end;
    try contradiction;
    skip_props; cbn [app]; skip_props;
    try (apply coercible_numProp; skip_props; reflexivity);
    try (rewrite lookup_cons_eq; reflexivity).
Qed.

Lemma exported_row_well_formed (p : ParsedRow) : malformedEntry (exportRow p) = false.
Proof.
  unfold malformedEntry. change (isNullish (exportRow p)) with false. cbn [orb].
  apply not_true_is_false. intros H. apply existsb_exists in H.
  destruct H as [key [Hin Hc]]. now rewrite (exported_field_coercible p key Hin) in Hc.
Qed.

Lemma exported_rows_well_formed (ps : list ParsedRow) :
  existsb malformedEntry (map exportRow ps) = false.
Proof.
  induction ps as [|p ps IH]; [reflexivity|].
  cbn [map existsb]. now rewrite exported_row_well_formed, IH.
Qed.

(** The export of a state is imported to the end. *)
Lemma exported_state_is_applied (st : AppState) : importEnd (Ok (exportJson st)) = Applied.
Proof.
  unfold importEnd.
  change (isNullish (exportJson st)) with false.
  change (field (exportJson st) "timings")
    with (VArr (map exportRow (parsed (timings st)))).
  cbv iota. rewrite exported_rows_well_formed.
  change (field (field (exportJson st) "transport") "rate") with (jsonNumber (rate st)).
  change (field (field (exportJson st) "transport") "lanes") with (jsonNumber (lanes st)).
  rewrite !coercible_jsonNumber. cbn [negb]. rewrite !andb_false_r. reflexivity.
Qed.

(** The row restored from an entry that is not malformed: every conversion
    gives its value. *)
Ltac restored_row Hr Hm :=
  let Hnull := fresh "Hnull" in
  unfold malformedEntry in Hm; apply orb_false_elim in Hm; destruct Hm as [Hnull Hm];
  cbn [existsb coercedFields] in Hm;
  repeat match type of Hm with
         | (_ || _)%bool = false => apply orb_false_elim in Hm; destruct Hm as [? Hm]
         end;
  repeat match goal with
         | H : negb (coercible _) = false |- _ => apply negb_false_iff in H
         end;
  unfold restoreRow in Hr; rewrite (getProp_field _ "colorFormat" Hnull) in Hr;
  cbn [andThen] in Hr;
  repeat match type of Hr with
         | context [andThen (ToNumber (field ?x ?k))] =>
             rewrite (ToNumber_numberOf (field x k)) in Hr by assumption;
             cbn [andThen] in Hr
         | context [andThen (ToString (nullish (field ?x ?k) (VStr ?d)))] =>
             rewrite (ToString_ok (nullish (field x k) (VStr d))) in Hr
               by (rewrite coercible_nullish; assumption);
             cbn [andThen] in Hr
         end.

Lemma restoreRow_exportRow (now : num) (r : TimingRow.t) (i : nat) :
  wellTyped r ->
  exists r' : TimingRow.t,
    restoreRow now (exportRow (parseRow r)) i = Ok r' /\ sameTiming r r'.
Proof.
  intros [[k [Hk Hk0]] [Hh [Hv [Hhz [Hhf [Hhs [Hhb [Hvf [Hvs Hvb]]]]]]]]].
  pose proof (exported_row_well_formed (parseRow r)) as Hm.
  destruct (restoreRow now (exportRow (parseRow r)) i) as [r'|] eqn:Hr;
    [|apply restoreRow_throws in Hr; congruence].
  exists r'. split; [reflexivity|].
  restored_row Hr Hm. injection Hr as <-.
  unfold sameTiming, field, exportRow. change (row (parseRow r)) with r.
  cbn [getProp TimingRow.cvtKind TimingRow.h TimingRow.v TimingRow.hz
       TimingRow.hFront TimingRow.hSync TimingRow.hBack TimingRow.vFront
       TimingRow.vSync TimingRow.vBack TimingRow.peakBw TimingRow.peakBwDsc
       TimingRow.useDsc app].
  repeat split.
  - skip_props. rewrite Hk. cbn [valProp jsonValue app]. rewrite lookup_cons_eq.
    unfold js_or. cbn [ToBoolean].
    destruct (k =? "") eqn:E; [apply String.eqb_eq in E; contradiction | reflexivity].
  - skip_props. symmetry. apply numProp_restored; [exact Hh|]. skip_props. reflexivity.
  - skip_props. symmetry. apply numProp_restored; [exact Hv|]. skip_props. reflexivity.
  - skip_props. symmetry. apply numProp_restored; [exact Hhz|]. skip_props. reflexivity.
  - skip_props. symmetry. apply numProp_restored; [exact Hhf|]. skip_props. reflexivity.
  - skip_props. symmetry. apply numProp_restored; [exact Hhs|]. skip_props. reflexivity.
  - skip_props. symmetry. apply numProp_restored; [exact Hhb|]. skip_props. reflexivity.
  - skip_props. symmetry. apply numProp_restored; [exact Hvf|]. skip_props. reflexivity.
  - skip_props. symmetry. apply numProp_restored; [exact Hvs|]. skip_props. reflexivity.
  - skip_props. symmetry. apply numProp_restored; [exact Hvb|]. skip_props. reflexivity.
  - skip_props. rewrite lookup_cons_eq. reflexivity.
  - skip_props. rewrite lookup_cons_eq. reflexivity.
  - skip_props. rewrite lookup_cons_eq. cbn [ToBoolean]. reflexivity.
Qed.

Lemma restoreRows_export (now : num) (ts : list TimingRow.t) (i : nat) :
  Forall wellTyped ts ->
  exists rs : list TimingRow.t,
    restoreRows now (map exportRow (parsed ts)) i = Ok rs /\ Forall2 sameTiming ts rs.
Proof.
  intros H. revert i. induction H as [|t ts Ht _ IH]; intros i.
  - exists []. split; [reflexivity | constructor].
  - destruct (restoreRow_exportRow now t i Ht) as [r [Hr Hs]].
    destruct (IH (S i)) as [rs [Hrs Hss]].
    exists (r :: rs). split; [|now constructor].
    cbn [parsed map restoreRows]. unfold parsed in Hrs. now rewrite Hr, Hrs.
Qed.

(** X1.  The part of the round trip that holds: the timings of a well-typed state
    with one to four rows come back from an export with the same profile,
    resolution and refresh, blanking fields and selected rates, without an
    error, and so does the preset. *)
Theorem roundtrip_timings (now : num) (st st0 : AppState) :
  timings st <> [] -> (List.length (timings st) <= 4)%nat ->
  Forall wellTyped (timings st) ->
  let r := onImport now (Ok (exportJson st)) st0 in
  snd r = []
  /\ Forall2 sameTiming (timings st) (timings (fst r))
  /\ presetId (fst r) = presetId st.
Proof.
  intros Hne Hlen Hwt. cbv zeta. rewrite onImport_outcome, exported_state_is_applied.
  cbn [fst snd alertsOf stoppedState]. split; [reflexivity|].
  destruct (restoreRows_export now (timings st) 0 Hwt) as [rs [Hrs Hss]].
  unfold importedState, importedTimings.
  change (field (exportJson st) "timings")
    with (VArr (map exportRow (parsed (timings st)))).
  change (field (exportJson st) "presetId") with (VStr (presetId st)).
  cbn [timings presetId].
  rewrite Hrs. split; [|reflexivity].
  assert (Hl : List.length rs = List.length (timings st)).
  { symmetry. eapply Forall2_length. exact Hss. }
  rewrite firstn_all2 by lia.
  destruct rs as [|r rs]; [|exact Hss].
  inversion Hss as [E|]. congruence.
Qed.

(** The timings after an import: those of before, or the rows restored. *)
Lemma imported_timings_cases (now : num) (j : jsval) (st : AppState) :
  importedTimings now j st = timings st
  \/ exists restored : list TimingRow.t,
       importedTimings now j st
       = match firstn 4 restored with
         | [] => [emptyTiming now 0]
         | kept => kept
         end.
Proof.
  unfold importedTimings.
  destruct (field j "timings") as [| | | | |items|]; auto.
  destruct (restoreRows now items 0) as [restored|] eqn:E; auto.
  right. exists restored. reflexivity.
Qed.

(** X19.  An import never leaves the application without a timing: from a state
    with at least one row, the state after an import, accepted or rejected,
    has at least one row. *)
Theorem import_keeps_a_timing (now : num) (parseResult : outcome jsval) (st : AppState) :
  timings st <> [] ->
  timings (settle st (fst (onImport now parseResult st))) <> [].
Proof.
  intros Hne.
  assert (Hs : forall a b, timings (settle a b) = timings b).
  { intros a b. unfold settle. now destruct (presetId a =? presetId b). }
  rewrite Hs, onImport_outcome.
  destruct parseResult as [j|]; [|exact Hne]. cbn [fst].
  assert (Hi : importedTimings now j st <> []).
  { destruct (imported_timings_cases now j st) as [-> | [restored ->]]; [exact Hne|].
    destruct (firstn 4 restored); discriminate. }
  destruct (importEnd (Ok j)); cbn [stoppedState timings importedState]; assumption.
Qed.

(** X21.  What the application exports, it accepts: importing the export of any
    state, into any state, shows no alert, and restores the preset id and at
    most four rows, one for each exported row. *)
Theorem export_is_always_accepted (now : num) (st st0 : AppState) :
  let r := onImport now (Ok (exportJson st)) st0 in
  snd r = []
  /\ presetId (fst r) = presetId st
  /\ List.length (timings (fst r))
     = Nat.max 1 (Nat.min 4 (List.length (timings st))).
Proof.
  cbv zeta. rewrite onImport_outcome, exported_state_is_applied.
  cbn [fst snd alertsOf stoppedState]. split; [reflexivity|]. split; [reflexivity|].
  unfold importedState, importedTimings. cbn [timings].
  change (field (exportJson st) "timings")
    with (VArr (map exportRow (parsed (timings st)))).
  cbv iota.
  destruct (restoreRows now (map exportRow (parsed (timings st))) 0) as [rs|] eqn:E.
  - apply restoreRows_length in E. unfold parsed in E. rewrite !length_map in E.
    assert (Hl : List.length (firstn 4 rs) = Nat.min 4 (List.length (timings st))).
    { rewrite length_firstn, E. reflexivity. }
    destruct (firstn 4 rs) as [|x l]; cbn [List.length] in *; lia.
  - apply restoreRows_throws in E. rewrite exported_rows_well_formed in E. discriminate.
Qed.


End HostProperties.

(** C4: the round trip loses the coding.  From the initial state, select the
    preset UHBR20, export, and import the exported value again: the coding
    128b132b comes back as the string 128b/132b, which is no coding. *)
Lemma roundtrip_changes_coding :
  let st0 := @initialState integerHost (lit 0) in
  let st := settle st0 (snd (setPresetId "dp20_uhbr20" st0)) in
  let r := @onImport integerHost (lit 1) (Ok (exportJson st)) st in
  coding st = "128b132b"
  /\ snd r = []
  /\ coding (fst r) = "128b/132b"
  /\ lookup "coding" [("coding", VStr (coding st))] = VStr "128b132b".
Proof. vm_compute. repeat split; reflexivity. Qed.



Lemma roundtrip_timings_witness :
  let st := @initialState integerHost (lit 0) in
  let r := @onImport integerHost (lit 1) (Ok (exportJson st)) st in
  snd r = []
  /\ Forall2 sameTiming (timings st) (timings (fst r))
  /\ presetId (fst r) = presetId st.
Proof.
  apply (@roundtrip_timings integerHost (lit 1)
           (@initialState integerHost (lit 0)) (@initialState integerHost (lit 0))).
  - discriminate.
  - simpl. lia.
  - constructor; [|constructor]. split.
    + exists "cvt_rb2"%string. split; [reflexivity | discriminate].
    + repeat split; reflexivity.
Defined.


(* ===================================================================== *)
(** ** Utilization, margin and status *)
(* ===================================================================== *)

Lemma Math_max_l (a b : num) (x y : Q) :
  hasVal a x -> hasVal b y -> (y <= x)%Q -> Math_max a b = a.
Proof.
  intros Ha Hb Hle. destruct a as [| | |p], b as [| | |q]; simpl in Ha, Hb; try tauto.
  unfold Math_max. destruct (Fin p <? Fin q) eqn:E; [|reflexivity].
  apply (nltb_val_true _ _ p q) in E; try reflexivity.
  rewrite Ha, Hb in E. lra.
Qed.

Lemma Math_max_r (a b : num) (x y : Q) :
  hasVal a x -> hasVal b y -> (x < y)%Q -> Math_max a b = b.
Proof.
  intros Ha Hb Hlt. destruct a as [| | |p], b as [| | |q]; simpl in Ha, Hb; try tauto.
  unfold Math_max. destruct (Fin p <? Fin q) eqn:E; [reflexivity|].
  apply (nltb_val_false _ _ p q) in E; try reflexivity.
  rewrite Ha, Hb in E. lra.
Qed.

Lemma Math_min_l (a b : num) (x y : Q) :
  hasVal a x -> hasVal b y -> (x <= y)%Q -> Math_min a b = a.
Proof.
  intros Ha Hb Hle. destruct a as [| | |p], b as [| | |q]; simpl in Ha, Hb; try tauto.
  unfold Math_min. destruct (Fin q <? Fin p) eqn:E; [|reflexivity].
  apply (nltb_val_true _ _ q p) in E; try reflexivity.
  rewrite Ha, Hb in E. lra.
Qed.

Lemma Math_min_r (a b : num) (x y : Q) :
  hasVal a x -> hasVal b y -> (y < x)%Q -> Math_min a b = b.
Proof.
  intros Ha Hb Hlt. destruct a as [| | |p], b as [| | |q]; simpl in Ha, Hb; try tauto.
  unfold Math_min. destruct (Fin q <? Fin p) eqn:E; [reflexivity|].
  apply (nltb_val_false _ _ q p) in E; try reflexivity.
  rewrite Ha, Hb in E. lra.
Qed.


Lemma clamp_percent (n : num) :
  match n with
  | NaN => clamp n (lit 0) (lit 100) = NaN
  | _ => exists u : Q, hasVal (clamp n (lit 0) (lit 100)) u /\ (0 <= u <= 100)%Q
  end.
Proof.
  destruct n as [| | |q].
  - reflexivity.
  - exists 100%Q. split; [reflexivity | lra].
  - exists 0%Q. split; [reflexivity | lra].
  - unfold clamp.
    destruct (Qlt_le_dec q 0) as [Hneg | Hpos].
    + exists 0%Q. split; [|lra].
      rewrite (Math_min_r _ _ 100 q (hasVal_lit 100) (hasVal_Fin q)) by lra.
      rewrite (Math_max_l _ _ 0 q (hasVal_lit 0) (hasVal_Fin q)) by lra.
      apply hasVal_lit.
    + destruct (Qlt_le_dec 100 q) as [Hbig | Hsmall].
      * exists 100%Q. split; [|lra].
        rewrite (Math_min_l _ _ 100 q (hasVal_lit 100) (hasVal_Fin q)) by lra.
        rewrite (Math_max_r _ _ 0 100 (hasVal_lit 0) (hasVal_lit 100)) by lra.
        apply hasVal_lit.
      * exists q. split; [|lra].
        destruct (Qlt_le_dec q 100) as [Hlt | Hge].
        -- rewrite (Math_min_r _ _ 100 q (hasVal_lit 100) (hasVal_Fin q) Hlt).
           destruct (Qlt_le_dec 0 q) as [Hp | Hn].
           ++ rewrite (Math_max_r _ _ 0 q (hasVal_lit 0) (hasVal_Fin q) Hp). apply hasVal_Fin.
           ++ rewrite (Math_max_l _ _ 0 q (hasVal_lit 0) (hasVal_Fin q) Hn).
              apply (hasVal_eq _ 0); [apply hasVal_lit | lra].
        -- rewrite (Math_min_l _ _ 100 q (hasVal_lit 100) (hasVal_Fin q) Hge).
           rewrite (Math_max_r _ _ 0 100 (hasVal_lit 0) (hasVal_lit 100)) by lra.
           apply (hasVal_eq _ 100); [apply hasVal_lit | lra].
Qed.

Lemma nltb_lt (a b : num) (x y : Q) :
  hasVal a x -> hasVal b y -> (x < y)%Q -> (a <? b) = true.
Proof.
  intros Ha Hb H. rewrite (nltb_val _ _ _ _ Ha Hb).
  destruct (x ?= y)%Q eqn:E; [| reflexivity |].
  - apply Qeq_alt in E. lra.
  - apply Qgt_alt in E. lra.
Qed.


(** X3.  The utilization shown by the bar is a percentage: for every state it is
    a number between 0 and 100, or NaN; and it is NaN only when the total is
    not finite or the capacity is NaN. *)
Theorem utilization_is_a_percentage (st : AppState) :
  (utilPct st = NaN
   \/ exists u : Q, hasVal (utilPct st) u /\ (0 <= u <= 100)%Q)
  /\ (Number_isFinite (totalGbps st) = true -> payloadCapacityGbps st <> NaN ->
      utilPct st <> NaN).
Proof.
  unfold utilPct.
  set (x := totalGbps st / Math_max (payloadCapacityGbps st) (lit 1e-6) * lit 100).
  pose proof (clamp_percent x) as Hc.
  split.
  - destruct x; [left; exact Hc | right; exact Hc ..].
  - intros Hfin Hcap.
    assert (Hx : x <> NaN).
    { subst x. destruct (totalGbps st) as [| | |t]; try discriminate.
      destruct (payloadCapacityGbps st) as [| | |c]; try congruence.
      - vm_compute. discriminate.
      - change (Math_max NInf (lit 1e-6)) with (lit 1e-6).
        rewrite (ndiv_val _ _ t 1e-6 (hasVal_Fin t) (hasVal_lit _)) by discriminate.
        discriminate.
      - assert (Hm : exists m : Q, hasVal (Math_max (Fin c) (lit 1e-6)) m /\ (0 < m)%Q).
        { destruct (Qlt_le_dec c 0.000001) as [Hlt | Hge].
          - exists 0.000001%Q. split; [|reflexivity].
            rewrite (Math_max_r _ _ c 0.000001 (hasVal_Fin c) (hasVal_lit 1e-6) Hlt).
            apply (hasVal_lit 1e-6).
          - exists c. split; [|lra].
            rewrite (Math_max_l _ _ c 0.000001 (hasVal_Fin c) (hasVal_lit 1e-6) Hge).
            apply hasVal_Fin. }
        destruct Hm as [m [Hm Hpos]].
        rewrite (ndiv_val _ _ t m (hasVal_Fin t) Hm) by lra.
        discriminate. }
    destruct x; try congruence; destruct Hc as [u [Hu _]];
      intros E; rewrite E in Hu; exact Hu.
Qed.


(* ===================================================================== *)
(** ** The chart *)
(* ===================================================================== *)

Lemma num_le_refl (a : num) : a <> NaN -> Spec.num_le a a.
Proof. destruct a; simpl; try tauto. intros _. apply Qle_refl. Qed.

Lemma num_le_trans (a b c : num) :
  Spec.num_le a b -> Spec.num_le b c -> Spec.num_le a c.
Proof.
  destruct a, b, c; simpl; try tauto. apply Qle_trans.
Qed.


Lemma nltb_true_le (a b : num) : (a <? b) = true -> Spec.num_le a b.
Proof.
  destruct a as [| | |x], b as [| | |y]; simpl; try discriminate; try tauto.
  destruct (x ?= y)%Q eqn:E; try discriminate. intros _.
  apply Qlt_le_weak. now apply Qlt_alt.
Qed.

Lemma nltb_false_le (a b : num) :
  a <> NaN -> b <> NaN -> (a <? b) = false -> Spec.num_le b a.
Proof.
  destruct a as [| | |x], b as [| | |y]; simpl; try discriminate; try tauto.
  intros _ _. destruct (x ?= y)%Q eqn:E; try discriminate; intros _.
  - apply Qeq_alt in E. rewrite E. apply Qle_refl.
  - apply Qgt_alt in E. now apply Qlt_le_weak.
Qed.

Lemma nltb_le_trans (a b c : num) :
  (a <? b) = true -> Spec.num_le b c -> (a <? c) = true.
Proof.
  destruct a as [| | |x], b as [| | |y], c as [| | |z]; simpl;
    try discriminate; try tauto.
  intros H1 H2.
  apply (nltb_val_true _ _ x y (hasVal_Fin x) (hasVal_Fin y)) in H1.
  apply (nltb_lt _ _ x z (hasVal_Fin x) (hasVal_Fin z)). lra.
Qed.

Lemma Math_max_upper (a b : num) :
  a <> NaN -> b <> NaN ->
  Math_max a b <> NaN /\ Spec.num_le a (Math_max a b) /\ Spec.num_le b (Math_max a b).
Proof.
  intros Ha Hb.
  assert (E : Math_max a b = if a <? b then b else a).
  { destruct a, b; try reflexivity; congruence. }
  rewrite E. destruct (a <? b) eqn:L.
  - split; [exact Hb|]. split; [now apply nltb_true_le | now apply num_le_refl].
  - split; [exact Ha|]. split; [now apply num_le_refl | now apply nltb_false_le].
Qed.

(** The running maximum of [chartPeak] covers its start and every bar. *)
Lemma chart_fold_upper (rows : list ChartRow) (m : num) :
  m <> NaN ->
  (forall row, In row rows -> selected row <> NaN /\ raw row <> NaN) ->
  let top := fold_left (fun max row => Math_max (Math_max max (selected row)) (raw row))
               rows m in
  top <> NaN /\ Spec.num_le m top
  /\ (forall row, In row rows ->
        Spec.num_le (selected row) top /\ Spec.num_le (raw row) top).
Proof.
  revert m. induction rows as [|r rows IH]; intros m Hm Hrows; cbn [fold_left].
  - split; [exact Hm|]. split; [now apply num_le_refl | intros row []].
  - destruct (Hrows r (or_introl eq_refl)) as [Hs Hr].
    destruct (Math_max_upper m (selected r) Hm Hs) as [H1 [H2 H3]].
    destruct (Math_max_upper _ (raw r) H1 Hr) as [H4 [H5 H6]].
    destruct (IH _ H4 (fun row Hin => Hrows row (or_intror Hin))) as [I1 [I2 I3]].
    split; [exact I1|]. split.
    + eapply num_le_trans; [exact H2|]. eapply num_le_trans; [exact H5 | exact I2].
    + intros row [<- | Hin].
      * split.
        -- eapply num_le_trans; [exact H3|]. eapply num_le_trans; [exact H5 | exact I2].
        -- eapply num_le_trans; [exact H6 | exact I2].
      * now apply I3.
Qed.

(** With no empty label the rows of the chart are the rates of the slots. *)
Lemma chartRowsOf_labelled (ts : list TimingRow.t) :
  Forall (fun t => TimingRow.label t <> "") ts ->
  chartRowsOf (parsed ts)
  = Ok (map (fun t => mkChartRow (TimingRow.label t) (selectedRate (parseRow t))
                        (peak (parseRow t))) ts).
Proof.
  induction 1 as [|t ts Ht _ IH]; [reflexivity|].
  cbn [parsed map chartRowsOf]. unfold chartName. change (row (parseRow t)) with t.
  destruct (TimingRow.label t =? "") eqn:E; [apply String.eqb_eq in E; contradiction|].
  cbn [andThen]. unfold parsed in IH. rewrite IH. reflexivity.
Qed.

(** An empty label ends the render. *)
Lemma chartRowsOf_unlabelled (ts : list TimingRow.t) :
  Exists (fun t => TimingRow.label t = "") ts -> chartRowsOf (parsed ts) = Thrown.
Proof.
  induction ts as [|t ts IH]; intros H; [inversion H|].
  cbn [parsed map chartRowsOf]. unfold chartName. change (row (parseRow t)) with t.
  destruct (TimingRow.label t =? "") eqn:E; [reflexivity|].
  cbn [andThen]. inversion H as [? ? H0|? ? H0]; subst.
  - rewrite H0 in E. discriminate.
  - unfold parsed in IH. now rewrite (IH H0).
Qed.

Lemma chartRows_not_NaN (ts : list TimingRow.t) (row : ChartRow) :
  In row (map (fun t => mkChartRow (TimingRow.label t) (selectedRate (parseRow t))
                          (peak (parseRow t))) ts) ->
  selected row <> NaN /\ raw row <> NaN.
Proof.
  intros Hin. apply in_map_iff in Hin. destruct Hin as [t [<- _]].
  cbn [selected raw]. split; [apply selectedRate_not_NaN|].
  unfold parseRow. cbn [peak]. apply num_or_not_NaN.
Qed.

Lemma scaled_up (m : num) :
  (lit 0 <? m) = true ->
  Spec.num_le m (m * lit 1.1) /\ (lit 0 <? m * lit 1.1) = true.
Proof.
  destruct m as [| | |x]; try discriminate.
  - intros _. split; [exact I | reflexivity].
  - intros H. apply (nltb_val_true _ _ 0 x (hasVal_lit 0) (hasVal_Fin x)) in H.
    rewrite (nmul_val _ _ x 1.1 (hasVal_Fin x) (hasVal_lit 1.1)). split.
    + cbn [Spec.num_le fin]. rewrite Qred_correct. lra.
    + apply (nltb_lt _ _ 0 (x * 1.1) (hasVal_lit 0) (hasVal_fin _)). lra.
Qed.

(** X8.  When no label is empty the chart is drawn, and the upper end of its
    axis is positive and covers every bar and the capacity line, whenever
    the capacity is a number.  With an empty label the name of the row,
    [t.label || Timing], throws, and there is no chart. *)
Theorem chart_axis_covers_bars_and_capacity (st : AppState) :
  payloadCapacityGbps st <> NaN ->
  (Exists (fun t => TimingRow.label t = "") (timings st) ->
   chartRows st = Thrown /\ chartDomainUpper st = Thrown)
  /\ (Forall (fun t => TimingRow.label t <> "") (timings st) ->
      exists (data : list ChartRow) (upper : num),
        chartData st = Ok data /\ chartDomainUpper st = Ok upper
        /\ (forall row, In row data ->
              Spec.num_le (selected row) upper /\ Spec.num_le (raw row) upper)
        /\ Spec.num_le (payloadCapacityGbps st) upper
        /\ (lit 0 <? upper) = true).
Proof.
  intros Hc. split.
  - intros He. unfold chartDomainUpper, chartPeak, chartData, chartRows.
    rewrite (chartRowsOf_unlabelled _ He). split; reflexivity.
  - intros Hl. unfold chartDomainUpper, chartPeak, chartData, chartRows.
    rewrite (chartRowsOf_labelled _ Hl). cbn [andThen].
    set (rows := map _ (timings st)).
    set (data := match rows with [] => [mkChartRow "Timing 1" (lit 0) (lit 0)] | _ => rows end).
    assert (Hdata : forall row, In row data -> selected row <> NaN /\ raw row <> NaN).
    { intros row Hin. subst data. destruct rows as [|r rs] eqn:Er.
      - destruct Hin as [<- | []]. split; discriminate.
      - apply (chartRows_not_NaN (timings st)). fold rows. now rewrite Er. }
    destruct (chart_fold_upper data (lit 0) ltac:(discriminate) Hdata) as [Hp [H0 Hbars]].
    set (peak := fold_left _ data (lit 0)) in *.
    exists data. eexists. split; [reflexivity|]. split; [reflexivity|].
    destruct (Math_max_upper _ _ Hp Hc) as [Hm [HmP HmC]].
    destruct ((peak >? lit 0) || (payloadCapacityGbps st >? lit 0)) eqn:E.
    + assert (Hpos : (lit 0 <? Math_max peak (payloadCapacityGbps st)) = true).
      { apply orb_true_iff in E. unfold ngtb in E. destruct E as [E | E].
        - eapply nltb_le_trans; eauto.
        - eapply nltb_le_trans; eauto. }
      destruct (scaled_up _ Hpos) as [Hle Htop].
      split; [|split].
      * intros row Hin. destruct (Hbars row Hin) as [Hs Hr]. split.
        -- eapply num_le_trans; [exact Hs|]. eapply num_le_trans; [exact HmP | exact Hle].
        -- eapply num_le_trans; [exact Hr|]. eapply num_le_trans; [exact HmP | exact Hle].
      * eapply num_le_trans; [exact HmC | exact Hle].
      * exact Htop.
    + apply orb_false_iff in E. unfold ngtb in E. destruct E as [EP EC].
      apply (nltb_false_le (lit 0) _ ltac:(discriminate) Hp) in EP.
      apply (nltb_false_le (lit 0) _ ltac:(discriminate) Hc) in EC.
      assert (H01 : Spec.num_le (lit 0) (lit 1)) by (vm_compute; discriminate).
      split; [|split].
      * intros row Hin. destruct (Hbars row Hin) as [Hs Hr]. split.
        -- eapply num_le_trans; [exact Hs|]. eapply num_le_trans; [exact EP | exact H01].
        -- eapply num_le_trans; [exact Hr|]. eapply num_le_trans; [exact EP | exact H01].
      * eapply num_le_trans; [exact EC | exact H01].
      * reflexivity.
Qed.

(* ===================================================================== *)
(** ** Clock and stream rate from totals *)
(* ===================================================================== *)

Lemma num_le_val (a b : num) (x y : Q) :
  hasVal a x -> hasVal b y -> (x <= y)%Q -> Spec.num_le a b.
Proof.
  destruct a, b; simpl; try tauto. intros Ha Hb H. now rewrite Ha, Hb.
Qed.


(* ===================================================================== *)
(** ** The reduced-blanking profiles: porches and clock *)
(* ===================================================================== *)

(** The blanking lines: the estimate, but no less than the minimum. *)
Lemma floored_lines (vbi : num) (M : Z) :
  whole vbi -> vbi <> NaN ->
  let act := if vbi <? ofZ M then ofZ M else vbi in
  act = PInf \/ exists A : Z, (M <= A)%Z /\ act = ofZ A.
Proof.
  intros [| | |z] Hn; cbv zeta; try congruence.
  - left. reflexivity.
  - right. exists M. split; [lia | reflexivity].
  - right. destruct (ofZ z <? ofZ M) eqn:E.
    + exists M. split; [lia | reflexivity].
    + exists z. split; [|reflexivity].
      apply (nltb_val_false _ _ _ _ (hasVal_ofZ z) (hasVal_ofZ M)) in E.
      now rewrite <- Zle_Qle in E.
Qed.

Lemma reducedArm_porches (p : CvtProfile) (videoOptimized : bool)
    (rate activePixels : num) (r : Q) (l m k : Z) :
  hasVal rate r -> (0 < r)%Q -> (1 <= l)%Z -> (0 <= m)%Z ->
  let res := reducedArm p (clockParams p videoOptimized) rate activePixels
               (ofZ l) (ofZ m) (ofZ m) (lit 0) (ofZ k) in
  match p with
  | cvt => True
  | cvt_rb =>
      hFront res = lit 48 /\ hSync res = lit 32 /\ hBack res = lit 80
      /\ vFront res = lit 3 /\ Spec.num_le (lit 6) (vBack res)
  | cvt_rb2 =>
      hFront res = lit 8 /\ hSync res = lit 32 /\ hBack res = lit 40
      /\ Spec.num_le (lit 1) (vFront res) /\ vBack res = lit 6
  end.
Proof.
  intros Hr Hrpos Hl Hm. unfold reducedArm. cbv zeta.
  assert (Hden : ~ (inject_Z l + inject_Z m + inject_Z m == 0)%Q).
  { pose proof (inject_Z_nonneg m Hm).
    assert (1 <= inject_Z l)%Q by (unfold Qle, inject_Z; simpl; lia). lra. }
  assert (HP : hasVal ((lit 1000000 / rate - lit 460) / (ofZ l + ofZ m + ofZ m))
                 ((1000000 / r - 460) / (inject_Z l + inject_Z m + inject_Z m))).
  { apply hasVal_div; [| |exact Hden].
    - apply hasVal_sub; [|apply hasVal_lit].
      apply hasVal_div; [apply hasVal_lit | exact Hr | lra].
    - repeat apply hasVal_add; apply hasVal_ofZ. }
  assert (Hvbi : Math_floor (lit 460 / ((lit 1000000 / rate - lit 460)
                                         / (ofZ l + ofZ m + ofZ m))) + lit 1 <> NaN).
  { eapply lines_for_time_not_NaN; [apply (hasVal_lit 460) | reflexivity | exact HP]. }
  assert (Hw : whole (Math_floor (lit 460 / ((lit 1000000 / rate - lit 460)
                                         / (ofZ l + ofZ m + ofZ m))) + lit 1)).
  { apply (whole_add_int _ 1), whole_floor. }
  change CVT_MIN_V_BPORCH with (ofZ 6).
  destruct p; [exact I | |].
  - cbn [clockParams rbVFrontPorch rbHBlank rbHSync rbMinVBlank
         hFront hSync hBack vFront vBack].
    repeat (split; [reflexivity|]).
    change (lit 3) with (ofZ 3). rewrite !ofZ_add in *.
    destruct (floored_lines _ (3 + k + 6) Hw Hvbi) as [-> | [A [HA ->]]].
    + exact I.
    + rewrite !ofZ_sub, Math_round_ofZ.
      apply (num_le_val _ _ 6 (inject_Z (A - 3 - k)) (hasVal_lit 6) (hasVal_ofZ _)).
      change 6%Q with (inject_Z 6). rewrite <- Zle_Qle. lia.
  - cbn [clockParams rbVFrontPorch rbHBlank rbHSync rbMinVBlank
         hFront hSync hBack vFront vBack].
    repeat (split; [reflexivity|]).
    change (lit 1 + ofZ k) with (ofZ 1 + ofZ k). change (lit 6) with (ofZ 6).
    rewrite !ofZ_add in *.
    destruct (floored_lines _ (1 + k + 6) Hw Hvbi) as [-> | [A [HA ->]]].
    + split; [exact I | reflexivity].
    + split; [|reflexivity]. rewrite !ofZ_sub, Math_round_ofZ.
      apply (num_le_val _ _ 1 (inject_Z (A - k - 6)) (hasVal_lit 1) (hasVal_ofZ _)).
      change 1%Q with (inject_Z 1). rewrite <- Zle_Qle. lia.
Qed.


Lemma Qfloor_inject (z : Z) : Qfloor (inject_Z z) = z.
Proof. apply Qfloor_Z. Qed.


(* ===================================================================== *)
(** ** The calculator *)
(* ===================================================================== *)


Lemma num_or_idem (x d : num) :
  num_truthy d = true -> num_or (num_or x d) d = num_or x d.
Proof.
  intros Hd. unfold num_or. destruct (num_truthy x) eqn:E.
  - now rewrite E.
  - now rewrite Hd.
Qed.

Lemma colorFormatOrDefault_idem (o : option string) :
  colorFormatOrDefault (Some (colorFormatOrDefault o)) = colorFormatOrDefault o.
Proof.
  unfold colorFormatOrDefault. destruct o as [s|]; [|reflexivity].
  destruct (s =? "") eqn:E; [reflexivity|]. now rewrite E.
Qed.

Section CalculatorProperties.

Context {host : Host}.

Lemma dscRatioOrDefault_idem (d : jsval) :
  dscRatioOrDefault (dscRatioOrDefault d) = dscRatioOrDefault d.
Proof.
  unfold dscRatioOrDefault.
  destruct (ToBoolean d && (numberOf d >? lit 0)) eqn:E.
  - now rewrite E.
  - reflexivity.
Qed.

Lemma recompute_idem (t : TimingRow.t) : recompute (recompute t) = recompute t.
Proof.
  destruct t. unfold recompute. cbn [TimingRow.id TimingRow.label TimingRow.useDsc
    TimingRow.calcOpen TimingRow.modeIndex TimingRow.cvtKind TimingRow.h TimingRow.v
    TimingRow.hz TimingRow.hFront TimingRow.hSync TimingRow.hBack TimingRow.vFront
    TimingRow.vSync TimingRow.vBack TimingRow.bpp TimingRow.dscRatio TimingRow.bpc
    TimingRow.colorFormat TimingRow.pixelClock].
  destruct (StrictEquals (js_or cvtKind (VStr "cvt_rb2")) (VStr "manual")) eqn:K;
    cbn [TimingRow.id TimingRow.label TimingRow.useDsc
    TimingRow.calcOpen TimingRow.modeIndex TimingRow.cvtKind TimingRow.h TimingRow.v
    TimingRow.hz TimingRow.hFront TimingRow.hSync TimingRow.hBack TimingRow.vFront
    TimingRow.vSync TimingRow.vBack TimingRow.bpp TimingRow.dscRatio TimingRow.bpc
    TimingRow.colorFormat TimingRow.pixelClock optNumber];
    rewrite ?K; cbn [optNumber];
    rewrite !num_or_idem, colorFormatOrDefault_idem, dscRatioOrDefault_idem
      by reflexivity;
    reflexivity.
Qed.

Lemma recompute_keeps (t : TimingRow.t) :
  TimingRow.id (recompute t) = TimingRow.id t
  /\ TimingRow.useDsc (recompute t) = TimingRow.useDsc t
  /\ TimingRow.cvtKind (recompute t) = TimingRow.cvtKind t.
Proof.
  unfold recompute.
  destruct (StrictEquals (js_or (TimingRow.cvtKind t) (VStr "cvt_rb2")) (VStr "manual"));
    repeat split.
Qed.

(** X13.  Recompute is idempotent: pressing it a second time changes nothing, for
    every state and every id. *)
Theorem recompute_twice_is_recompute_once (id : jsval) (st : AppState) :
  computeAndFill id (snd (computeAndFill id st)) = computeAndFill id st.
Proof.
  unfold computeAndFill, setTimings. cbn [snd timings presetId lanes rate coding].
  do 2 f_equal. rewrite map_map. apply map_ext. intros t.
  destruct (StrictEquals (TimingRow.id t) id) eqn:E; cbn [negb].
  - destruct (recompute_keeps t) as [Hid _]. rewrite Hid, E. cbn [negb]. apply recompute_idem.
  - now rewrite E.
Qed.

Lemma num_or_l (a d : num) : num_truthy a = true -> num_or a d = a.
Proof. unfold num_or. now intros ->. Qed.

Lemma modeAt_truthy (idx : num) (m : PredefinedMode) :
  modeAt idx = Some m ->
  num_truthy (mode_h m) = true /\ num_truthy (mode_v m) = true
  /\ num_truthy (mode_hz m) = true.
Proof.
  unfold modeAt. destruct idx as [| | |q]; try discriminate.
  destruct (Qeq_bool q (inject_Z (Qfloor q)) && (0 <=? Qfloor q)%Z); [|discriminate].
  generalize (Z.to_nat (Qfloor q)). intros n H.
  do 10 (destruct n as [|n]; [inversion H; subst; repeat split|]).
  destruct n; discriminate.
Qed.

Lemma modeAt_None (idx : num) :
  modeAt idx = None
  <-> ~ exists i : Z, (0 <= i < 10)%Z /\ hasVal idx (inject_Z i).
Proof.
  unfold modeAt. destruct idx as [| | |q].
  - split; [intros _ [i [_ []]] | reflexivity].
  - split; [intros _ [i [_ []]] | reflexivity].
  - split; [intros _ [i [_ []]] | reflexivity].
  - destruct (Qeq_bool q (inject_Z (Qfloor q))) eqn:E; cbn [andb].
    + apply Qeq_bool_eq in E.
      destruct (0 <=? Qfloor q)%Z eqn:P.
      * apply Z.leb_le in P. rewrite nth_error_None.
        change (List.length PREDEFINED_MODES) with 10%nat. split.
        -- intros Hlen [i [Hi Hq]]. cbn [hasVal] in Hq.
           rewrite Hq, Qfloor_inject in Hlen. lia.
        -- intros Hno.
           destruct (Nat.le_gt_cases 10 (Z.to_nat (Qfloor q))) as [H | H]; [exact H|].
           exfalso. apply Hno. exists (Qfloor q). split; [lia | exact E].
      * apply Z.leb_gt in P. split; [|reflexivity].
        intros _ [i [Hi Hq]]. cbn [hasVal] in Hq. rewrite Hq, Qfloor_inject in P. lia.
    + split; [|reflexivity]. intros _ [i [Hi Hq]]. cbn [hasVal] in Hq.
      apply Qeq_bool_neq in E. apply E. rewrite Hq, Qfloor_inject. reflexivity.
Qed.




(** X16.  A generator kind that is none of the four names (an import can store
    one): Recompute takes the clock parameters of RB2 with the porch layout of
    RB, and stores a horizontal front porch of -32 pixels, whatever the active
    size and the refresh rate. *)
Theorem unknown_generator_kind_gives_negative_front_porch (t : TimingRow.t) :
  let kind := js_or (TimingRow.cvtKind t) (VStr "cvt_rb2") in
  StrictEquals kind (VStr "manual") = false ->
  StrictEquals kind (VStr "cvt") = false ->
  StrictEquals kind (VStr "cvt_rb") = false ->
  StrictEquals kind (VStr "cvt_rb2") = false ->
  TimingRow.hFront (recompute t) = Some (ofZ (-32))
  /\ TimingRow.hSync (recompute t) = Some (lit 32)
  /\ TimingRow.hBack (recompute t) = Some (lit 80)
  /\ shownHBlank (recompute t) = lit 80.
Proof.
  cbv zeta. intros Hm H1 H2 H3. unfold shownHBlank, recompute. rewrite Hm.
  cbn [TimingRow.hFront TimingRow.hSync TimingRow.hBack orElse].
  unfold calculateCvtTimingOf, profileParams, profileLayout. rewrite H1, H2, H3.
  cbv zeta. unfold reducedArm. cbn [clockParams rbHBlank rbHSync hFront hSync hBack].
  repeat split.
Qed.


End CalculatorProperties.

(* ===================================================================== *)
(** ** Printing a rate and reading it back *)
(* ===================================================================== *)


Section PrintingProperties.

Context {host : Host}.


End PrintingProperties.

(* ===================================================================== *)
(** ** Capacity, new rows and the pixel depth *)
(* ===================================================================== *)


Section RowProperties.

Context {host : Host}.

(** X25.  A new row counts for nothing: adding a timing changes neither the total
    nor the fit decision, and adds one row while there are fewer than four
    and none otherwise. *)
Theorem adding_a_timing_keeps_the_total (now : num) (st : AppState) :
  let st' := snd (addTiming now st) in
  totalGbps st' = totalGbps st
  /\ fits st' = fits st
  /\ List.length (timings st')
     = (if (List.length (timings st) <? 4)%nat
        then S (List.length (timings st)) else List.length (timings st)).
Proof.
  cbv zeta. unfold addTiming.
  destruct (List.length (timings st) <? 4)%nat; [|repeat split].
  unfold setTimings. cbn [snd].
  assert (Ht : totalGbps
                 (mkAppState (timings st ++ [emptyTiming now (List.length (timings st))])
                    (presetId st) (lanes st) (rate st) (coding st))
               = totalGbps st).
  { rewrite !totalGbps_sum. cbn [timings]. unfold parsed. rewrite !map_app.
    cbn [map].
    change (selectedRate (parseRow (emptyTiming now (List.length (timings st)))))
      with (lit 0).
    rewrite totalRequired_skip_zero, app_nil_r. reflexivity. }
  split; [exact Ht|]. split.
  - unfold fits. rewrite Ht. reflexivity.
  - cbn [timings]. rewrite length_app. cbn [List.length]. lia.
Qed.

Lemma formatFactor_of_value (value : string) :
  formatFactor (colorFormatOrDefault (Some value)) = formatFactor value.
Proof.
  unfold colorFormatOrDefault. destruct (value =? "") eqn:E; [|reflexivity].
  apply String.eqb_eq in E. now subst.
Qed.

Lemma patched_rows (id : jsval) (patch : TimingRow.t -> TimingRow.t)
    (t : TimingRow.t) (st : AppState) (P : TimingRow.t -> Prop) :
  (forall r, TimingRow.id (patch r) = TimingRow.id r) ->
  (forall r, In r (timings st) -> StrictEquals (TimingRow.id r) id = true -> r = t) ->
  P (patch t) ->
  forall r', In r' (timings (snd (updateTiming id patch st))) ->
             StrictEquals (TimingRow.id r') id = true -> P r'.
Proof.
  intros Hid Hrows HP r'. unfold updateTiming, setTimings. cbn [snd timings].
  intros Hin Heq. apply in_map_iff in Hin. destruct Hin as [r [<- Hr]].
  destruct (StrictEquals (TimingRow.id r) id) eqn:E.
  - now rewrite (Hrows r Hr E).
  - congruence.
Qed.

(** X26.  The pixel depth stays consistent: a new row, a recomputed row, and the
    row that choosing a mode, a bit depth or a colour format patches all have
    bpp = (bpc || 8) x the factor of the colour format (RGB when unset);
    for the three handlers, when the handler does not throw and the rows of
    the state with the id of [t] are [t] itself. *)
Theorem pixel_depth_stays_consistent :
  (forall now i, depthConsistent (emptyTiming now i))
  /\ (forall t, depthConsistent (recompute t))
  /\ (forall (t : TimingRow.t) (st : AppState),
        (forall r, In r (timings st) ->
                   StrictEquals (TimingRow.id r) (TimingRow.id t) = true -> r = t) ->
        forall (handler : M unit),
          (exists modeIdx, handler = onChooseMode t modeIdx)
          \/ (exists value, handler = onBpcChange t value)
          \/ (exists value, handler = onColorFormatChange t value) ->
          fst (handler st) = Ok tt ->
          forall r', In r' (timings (snd (handler st))) ->
                     StrictEquals (TimingRow.id r') (TimingRow.id t) = true ->
                     depthConsistent r').
Proof.
  split; [|split].
  - intros now i. reflexivity.
  - intros t. unfold depthConsistent, recompute.
    destruct (StrictEquals (js_or (TimingRow.cvtKind t) (VStr "cvt_rb2")) (VStr "manual"));
      cbn [TimingRow.bpp TimingRow.bpc TimingRow.colorFormat optNumber];
      rewrite num_or_idem, colorFormatOrDefault_idem by reflexivity; reflexivity.
  - intros t st Hrows handler [[modeIdx ->] | [[value ->] | [value ->]]] Hok r' Hin Heq.
    + unfold onChooseMode in Hin, Hok. destruct (modeAt modeIdx) as [m|].
      * cbv zeta in Hin. revert r' Hin Heq. apply patched_rows with (t := t);
          [reflexivity | exact Hrows |].
        unfold depthConsistent.
        cbn [TimingRow.bpp TimingRow.bpc TimingRow.colorFormat optNumber].
        rewrite num_or_idem, colorFormatOrDefault_idem by reflexivity. reflexivity.
      * discriminate Hok.
    + unfold onBpcChange in Hin. cbv zeta in Hin.
      revert r' Hin Heq. apply patched_rows with (t := t); [reflexivity | exact Hrows |].
      unfold depthConsistent.
      cbn [TimingRow.bpp TimingRow.bpc TimingRow.colorFormat optNumber].
      rewrite num_or_idem by reflexivity. reflexivity.
    + unfold onColorFormatChange in Hin. cbv zeta in Hin.
      revert r' Hin Heq. apply patched_rows with (t := t); [reflexivity | exact Hrows |].
      unfold depthConsistent.
      cbn [TimingRow.bpp TimingRow.bpc TimingRow.colorFormat optNumber].
      rewrite formatFactor_of_value. reflexivity.
Qed.

End RowProperties.

(* ===================================================================== *)
(** ** Instances *)


Lemma chart_axis_covers_bars_and_capacity_witness :
  let st := mkAppState [slot "30" "10" true] "dp13_hbr3" (lit 4) (lit 8.1) "8b10b" in
  chartDomainUpper st = Ok (lit 33)
  /\ exists (data : list ChartRow) (upper : num),
       chartData st = Ok data /\ chartDomainUpper st = Ok upper
       /\ (forall row, In row data ->
             Spec.num_le (selected row) upper /\ Spec.num_le (raw row) upper)
       /\ Spec.num_le (payloadCapacityGbps st) upper
       /\ (lit 0 <? upper) = true.
Proof.
  cbv zeta. split; [reflexivity|].
  refine (proj2 (chart_axis_covers_bars_and_capacity _ _) _).
  - vm_compute. discriminate.
  - repeat constructor. discriminate.
Defined.






Lemma unknown_generator_kind_gives_negative_front_porch_witness :
  let t := TimingRow.mk (VStr "a") "Timing 1" "" "" true None None (VStr "CVT")
             (Some (lit 1920)) (Some (lit 1080)) (Some (lit 60))
             None None None None None None None VUndef None None None in
  StrictEquals (js_or (TimingRow.cvtKind t) (VStr "cvt_rb2")) (VStr "cvt") = false
  /\ TimingRow.hFront (@recompute integerHost t) = Some (ofZ (-32))
  /\ TimingRow.hSync (@recompute integerHost t) = Some (lit 32)
  /\ TimingRow.hBack (@recompute integerHost t) = Some (lit 80)
  /\ shownHBlank (@recompute integerHost t) = lit 80.
Proof.
  cbv zeta. split; [reflexivity|].
  apply (@unknown_generator_kind_gives_negative_front_porch integerHost); reflexivity.
Defined.


Lemma import_keeps_a_timing_witness :
  let st := @initialState integerHost (lit 0) in
  let payload := Ok (VObj [("timings", VArr [])]) in
  timings st <> []
  /\ timings (settle st (fst (@onImport integerHost (lit 1) payload st))) <> [].
Proof.
  cbv zeta. split; [discriminate|].
  apply (@import_keeps_a_timing integerHost). discriminate.
Defined.


(* ===================================================================== *)
(** ** Changing the generator *)
(* ===================================================================== *)

Section GeneratorProperties.

Context {host : Host}.

(** X27.  Changing the generator of a row that has a mode index, when the rows
    of the state with the id of [t] are [t] itself.  With an index off the
    list of modes the handler throws after the new kind is stored: the state
    is the one with the kind changed and nothing else, so the blanking shown
    is that of the old kind.  With an index on the list and one of the three
    profiles the handler does not throw, and the row ends with the new kind
    and with the porches and the clock of that profile's descriptor for the
    mode. *)
Theorem changing_the_generator
    (t : TimingRow.t) (next : string) (modeIdx : num) (st : AppState) :
  (forall r, In r (timings st) ->
             StrictEquals (TimingRow.id r) (TimingRow.id t) = true -> r = t) ->
  TimingRow.modeIndex t = Some modeIdx ->
  (modeAt modeIdx = None ->
   onGeneratorChange t next st
   = (Thrown, snd (updateTiming (TimingRow.id t) (withKind next) st)))
  /\ (forall (m : PredefinedMode) (profile : CvtProfile),
        modeAt modeIdx = Some m ->
        In (next, profile) [("cvt", cvt); ("cvt_rb", cvt_rb); ("cvt_rb2", cvt_rb2)] ->
        fst (onGeneratorChange t next st) = Ok tt
        /\ forall r', In r' (timings (snd (onGeneratorChange t next st))) ->
             StrictEquals (TimingRow.id r') (TimingRow.id t) = true ->
             let d := calculateCvtTiming (mode_h m) (mode_v m) (mode_hz m) profile
                        false false false in
             TimingRow.cvtKind r' = VStr next
             /\ TimingRow.hFront r' = Some (hFront d)
             /\ TimingRow.hSync r' = Some (hSync d)
             /\ TimingRow.hBack r' = Some (hBack d)
             /\ TimingRow.vFront r' = Some (vFront d)
             /\ TimingRow.vSync r' = Some (vSync d)
             /\ TimingRow.vBack r' = Some (vBack d)
             /\ TimingRow.pixelClock r' = Some (pixelClockMHz d)).
Proof.
  intros Hrows Hidx. unfold onGeneratorChange, bind. rewrite Hidx.
  unfold updateTiming at 1. unfold setTimings at 1.
  split.
  - intros Hnone. unfold onChooseMode. rewrite Hnone. reflexivity.
  - intros m profile Hm Hin. unfold onChooseMode. rewrite Hm. cbv zeta.
    split; [reflexivity|].
    assert (Hof : js_or (TimingRow.cvtKind (withKind next t)) (VStr "cvt_rb2") = VStr next
                  /\ StrictEquals (VStr next) (VStr "manual") = false
                  /\ calculateCvtTimingOf (VStr next) (mode_h m) (mode_v m) (mode_hz m)
                       false false false
                     = calculateCvtTiming (mode_h m) (mode_v m) (mode_hz m) profile
                         false false false).
    { destruct Hin as [E | [E | [E | []]]]; inversion E; subst; repeat split. }
    destruct Hof as [Hkind [Hman Hcalc]].
    rewrite Hkind, Hman, Hcalc. cbn [negb].
    unfold updateTiming, setTimings. cbn [snd timings withKind TimingRow.id].
    intros r' Hr' Heq. rewrite map_map in Hr'.
    apply in_map_iff in Hr'. destruct Hr' as [r [<- Hr]].
    destruct (StrictEquals (TimingRow.id r) (TimingRow.id t)) eqn:E.
    + cbn [withKind TimingRow.id]. rewrite E. repeat split.
    + rewrite E in Heq. cbv iota in Heq. rewrite E in Heq. cbv iota in Heq.
      congruence.
Qed.

End GeneratorProperties.

Lemma changing_the_generator_witness :
  let t := @emptyTiming integerHost (lit 0) 0 in
  let st := @initialState integerHost (lit 0) in
  let d := calculateCvtTiming (lit 1920) (lit 1080) (lit 60) cvt false false false in
  TimingRow.modeIndex t = Some (lit 0)
  /\ fst (@onGeneratorChange integerHost t "cvt" st) = Ok tt
  /\ forall r', In r' (timings (snd (@onGeneratorChange integerHost t "cvt" st))) ->
       StrictEquals (TimingRow.id r') (TimingRow.id t) = true ->
       TimingRow.cvtKind r' = VStr "cvt"
       /\ TimingRow.hFront r' = Some (hFront d)
       /\ TimingRow.hSync r' = Some (hSync d)
       /\ TimingRow.hBack r' = Some (hBack d)
       /\ TimingRow.vFront r' = Some (vFront d)
       /\ TimingRow.vSync r' = Some (vSync d)
       /\ TimingRow.vBack r' = Some (vBack d)
       /\ TimingRow.pixelClock r' = Some (pixelClockMHz d).
Proof.
  cbv zeta. split; [reflexivity|].
  apply (proj2 (@changing_the_generator integerHost
                  (@emptyTiming integerHost (lit 0) 0) "cvt" (lit 0)
                  (@initialState integerHost (lit 0))
                  (fun r Hin _ => match Hin with
                                  | or_introl e => eq_sym e
                                  | or_intror f => match f with end
                                  end)
                  eq_refl)
          (mkPredefinedMode (lit 1920) (lit 1080) (lit 60)) cvt eq_refl
          (or_introl eq_refl)).
Defined.

(* ===================================================================== *)
(** * Properties of the program in binary64 *)
(* ===================================================================== *)

Section FloatFacts.

Import Binary64.
Local Open Scope Z_scope.

(** digits *)
Lemma digits2_pos_size (p : positive) : digits2_pos p = Pos.size p.
Proof. induction p; cbn; now rewrite ?IHp. Qed.

Lemma digits2_bounds (p : positive) :
  2 ^ (Zpos (digits2_pos p) - 1) <= Zpos p < 2 ^ Zpos (digits2_pos p).
Proof.
  induction p as [p IH|p IH|]; cbn [digits2_pos].
  - rewrite Pos2Z.inj_succ.
    replace (Z.succ (Zpos (digits2_pos p)) - 1) with (Z.succ (Zpos (digits2_pos p) - 1)) by lia.
    rewrite !Z.pow_succ_r by lia. lia.
  - rewrite Pos2Z.inj_succ.
    replace (Z.succ (Zpos (digits2_pos p)) - 1) with (Z.succ (Zpos (digits2_pos p) - 1)) by lia.
    rewrite !Z.pow_succ_r by lia. lia.
  - cbn. lia.
Qed.

(** validity *)
Lemma valid_finite (s : bool) (m : positive) (e : Z) :
  valid_binary (S754_finite s m e) = true ->
  -1074 <= e <= 971 /\ Zpos (digits2_pos m) <= 53
  /\ (-1074 < e -> Zpos (digits2_pos m) = 53).
Proof.
  cbn [SpecFloat.valid_binary]. unfold bounded, canonical_mantissa, fexp, SpecFloat.emin.
  change prec with 53. change emax with 1024.
  intros H. apply andb_true_iff in H. destruct H as [H1 H2].
  apply Z.eqb_eq in H1. apply Z.leb_le in H2. lia.
Qed.



Lemma units_lt_of_exp (m1 m2 : positive) (e1 e2 : Z) (s1 s2 : bool) :
  valid_binary (S754_finite s1 m1 e1) = true ->
  valid_binary (S754_finite s2 m2 e2) = true ->
  e1 < e2 ->
  Zpos m1 * 2 ^ (e1 + 1074) < Zpos m2 * 2 ^ (e2 + 1074).
Proof.
  intros V1 V2 He.
  apply valid_finite in V1. apply valid_finite in V2.
  destruct V1 as (R1 & D1 & _). destruct V2 as (R2 & _ & N2).
  specialize (N2 ltac:(lia)).
  pose proof (digits2_bounds m1) as B1. pose proof (digits2_bounds m2) as B2.
  rewrite N2 in B2. change (2 ^ (53 - 1)) with 4503599627370496 in B2.
  assert (Zpos m1 < 9007199254740992).
  { destruct B1 as [_ B1]. eapply Z.lt_le_trans; [exact B1|].
    change 9007199254740992 with (2 ^ 53). apply Z.pow_le_mono_r; lia. }
  replace (e2 + 1074) with ((e2 - e1) + (e1 + 1074)) by lia.
  rewrite (Z.pow_add_r 2 (e2 - e1) (e1 + 1074)) by lia.
  assert (2 <= 2 ^ (e2 - e1)).
  { change 2 with (2 ^ 1) at 1. apply Z.pow_le_mono_r; lia. }
  assert (0 < 2 ^ (e1 + 1074)) by (apply Z.pow_pos_nonneg; lia).
  assert (Zpos m1 < Zpos m2 * 2 ^ (e2 - e1)) by nia.
  rewrite Z.mul_assoc. now apply Z.mul_lt_mono_pos_r.
Qed.

Lemma SFcompare_units (s1 s2 : bool) (m1 m2 : positive) (e1 e2 : Z) :
  valid_binary (S754_finite s1 m1 e1) = true ->
  valid_binary (S754_finite s2 m2 e2) = true ->
  SFcompare (S754_finite s1 m1 e1) (S754_finite s2 m2 e2)
  = Some (Spec.units s1 m1 e1 ?= Spec.units s2 m2 e2).
Proof.
  intros V1 V2. unfold Spec.units.
  assert (P1 : 0 < Zpos m1 * 2 ^ (e1 + 1074)).
  { apply valid_finite in V1. apply Z.mul_pos_pos; [lia|apply Z.pow_pos_nonneg; lia]. }
  assert (P2 : 0 < Zpos m2 * 2 ^ (e2 + 1074)).
  { apply valid_finite in V2. apply Z.mul_pos_pos; [lia|apply Z.pow_pos_nonneg; lia]. }
  assert (K : forall c, (e1 ?= e2) = c ->
            match c with
            | Lt => Lt
            | Gt => Gt
            | Eq => Pos.compare_cont Eq m1 m2
            end = (Zpos m1 * 2 ^ (e1 + 1074) ?= Zpos m2 * 2 ^ (e2 + 1074))).
  { intros c Hc. destruct c.
    - apply Z.compare_eq in Hc. subst e2.
      change (Pos.compare_cont Eq m1 m2) with (Zpos m1 ?= Zpos m2).
      apply Zmult_compare_compat_r. apply Z.lt_gt.
      apply valid_finite in V1. apply Z.pow_pos_nonneg; lia.
    - symmetry. apply Z.compare_lt_iff.
      apply (units_lt_of_exp m1 m2 e1 e2 s1 s2 V1 V2). now apply Z.compare_lt_iff.
    - symmetry. apply Z.compare_gt_iff.
      apply (units_lt_of_exp m2 m1 e2 e1 s2 s1 V2 V1). apply Z.compare_gt_iff in Hc. lia. }
  cbn [SFcompare cond_Zopp]. destruct s1, s2; cbn [cond_Zopp].
  - f_equal. rewrite Z.compare_opp.
    rewrite (Z.compare_antisym (Z.pos m1 * 2 ^ (e1 + 1074))), <- (K _ eq_refl).
    now destruct (e1 ?= e2).
  - f_equal. symmetry. apply Z.compare_lt_iff. lia.
  - f_equal. symmetry. apply Z.compare_gt_iff. lia.
  - f_equal. apply K. reflexivity.
Qed.


(** shifting right *)
Lemma iter_pos_invariant {A : Type} (P : A -> Prop) (f : A -> A) :
  (forall x, P x -> P (f x)) -> forall n x, P x -> P (SpecFloat.iter_pos f n x).
Proof.
  intros Hf. induction n as [n IH|n IH|]; intros x Hx; cbn [SpecFloat.iter_pos]; auto.
Qed.

Lemma shr_1_m (r : shr_record) : 0 <= shr_m r -> shr_m (shr_1 r) = shr_m r / 2.
Proof.
  destruct r as [m r s]. cbn [shr_m shr_1]. intros Hm.
  destruct m as [|p|p]; [reflexivity| |lia].
  destruct p as [p|p|]; cbn [shr_m].
  - rewrite Pos2Z.inj_xI. apply Z.div_unique with (r := 1); lia.
  - rewrite Pos2Z.inj_xO. apply Z.div_unique with (r := 0); lia.
  - reflexivity.
Qed.

Lemma shr_iter_m (n : positive) (r : shr_record) :
  0 <= shr_m r -> shr_m (SpecFloat.iter_pos shr_1 n r) = shr_m r / 2 ^ Zpos n.
Proof.
  revert r. induction n as [n IH|n IH|]; intros r Hr; cbn [SpecFloat.iter_pos].
  - assert (H1 : 0 <= shr_m (shr_1 r)).
    { rewrite shr_1_m by exact Hr. apply Z.div_pos; lia. }
    assert (H2 : 0 <= shr_m (SpecFloat.iter_pos shr_1 n (shr_1 r))).
    { rewrite IH by exact H1. apply Z.div_pos; [exact H1|]. apply Z.pow_pos_nonneg; lia. }
    rewrite IH, IH, shr_1_m by assumption.
    rewrite !Z.div_div by (try apply Z.pow_pos_nonneg; lia).
    f_equal. rewrite Pos2Z.inj_xI.
    replace (2 * Zpos n + 1) with (1 + Zpos n + Zpos n) by lia.
    rewrite !Z.pow_add_r by lia. change (2 ^ 1) with 2. ring.
  - assert (H2 : 0 <= shr_m (SpecFloat.iter_pos shr_1 n r)).
    { rewrite IH by exact Hr. apply Z.div_pos; [exact Hr|]. apply Z.pow_pos_nonneg; lia. }
    rewrite IH, IH by assumption.
    rewrite !Z.div_div by (try apply Z.pow_pos_nonneg; lia).
    f_equal. rewrite <- Z.pow_add_r by lia. f_equal. lia.
  - rewrite shr_1_m by exact Hr. reflexivity.
Qed.

Lemma shr_record_of_loc_m (m : Z) (l : location) : shr_m (shr_record_of_loc m l) = m.
Proof. destruct l as [|[]]; reflexivity. Qed.

(** The first component of [shr_fexp]: the mantissa is divided by the power
    of two that brings it down to 53 digits, and the exponent moves with it. *)
Lemma shr_fexp_m (m : positive) (e : Z) (l : location) :
  let n := Z.max (Zpos (digits2_pos m) - 53) (-1074 - e) in
  shr_m (fst (shr_fexp prec emax (Zpos m) e l)) = Zpos m / 2 ^ Z.max n 0
  /\ snd (shr_fexp prec emax (Zpos m) e l) = e + Z.max n 0.
Proof.
  cbv zeta. unfold shr_fexp, shr, fexp, SpecFloat.emin.
  change prec with 53. change emax with 1024. cbn [Zdigits2].
  replace (Z.max (Zpos (digits2_pos m) + e - 53) (3 - 1024 - 53) - e)
    with (Z.max (Zpos (digits2_pos m) - 53) (-1074 - e)) by lia.
  destruct (Z.max (Zpos (digits2_pos m) - 53) (-1074 - e)) as [|p|p] eqn:E;
    cbn [fst snd].
  - rewrite shr_record_of_loc_m. cbn. rewrite Z.div_1_r. split; [reflexivity|lia].
  - rewrite shr_iter_m by (rewrite shr_record_of_loc_m; lia).
    rewrite shr_record_of_loc_m. rewrite Z.max_l by lia. split; reflexivity.
  - rewrite shr_record_of_loc_m. rewrite Z.max_r by lia. cbn. rewrite Z.div_1_r.
    split; [reflexivity|lia].
Qed.

Lemma shr_fexp_pos (m : positive) (e : Z) (l : location) :
  -1074 <= e ->
  0 < shr_m (fst (shr_fexp prec emax (Zpos m) e l))
  /\ -1074 <= snd (shr_fexp prec emax (Zpos m) e l).
Proof.
  intros He. destruct (shr_fexp_m m e l) as [Hm Hs]. rewrite Hm, Hs.
  split; [|lia].
  pose proof (digits2_bounds m) as [B _].
  apply Z.div_str_pos. split; [apply Z.pow_pos_nonneg; lia|].
  eapply Z.le_trans; [|exact B].
  apply Z.pow_le_mono_r; lia.
Qed.

Lemma round_nearest_even_bounds (m : Z) (l : location) :
  m <= round_nearest_even m l <= m + 1.
Proof.
  destruct l as [|[]]; cbn [round_nearest_even]; try lia.
  destruct (Z.even m); lia.
Qed.

(** Rounding a positive mantissa gives a finite double of the same sign or
    the infinity of that sign: never a zero, never NaN. *)
Lemma binary_round_aux_cases (s : bool) (m : positive) (e : Z) (l : location) :
  -1074 <= e ->
  binary_round_aux prec emax s (Zpos m) e l = S754_infinity s
  \/ exists m' e', binary_round_aux prec emax s (Zpos m) e l = S754_finite s m' e'.
Proof.
  intros He. unfold binary_round_aux.
  destruct (shr_fexp_pos m e l He) as [P1 E1].
  destruct (shr_fexp prec emax (Zpos m) e l) as [mrs' e'] eqn:S1.
  cbn [fst snd] in P1, E1.
  pose proof (round_nearest_even_bounds (shr_m mrs') (loc_of_shr_record mrs')) as [R _].
  destruct (round_nearest_even (shr_m mrs') (loc_of_shr_record mrs')) as [|m1|m1] eqn:R1;
    try lia.
  destruct (shr_fexp_pos m1 e' loc_Exact E1) as [P2 _].
  destruct (shr_fexp prec emax (Zpos m1) e' loc_Exact) as [mrs'' e''].
  cbn [fst] in P2.
  destruct (shr_m mrs'') as [|m2|m2]; try lia.
  destruct (e'' <=? emax - prec); [right; eauto | left; reflexivity].
Qed.

Lemma shl_align_exp (m : positive) (e e' : Z) :
  snd (shl_align m e e') = Z.min e e'.
Proof.
  unfold shl_align. destruct (e' - e) eqn:E; cbn [snd]; lia.
Qed.

Lemma binary_round_cases (s : bool) (m : positive) (e : Z) :
  -1074 <= e ->
  binary_round prec emax s m e = S754_infinity s
  \/ exists m' e', binary_round prec emax s m e = S754_finite s m' e'.
Proof.
  intros He. unfold binary_round.
  pose proof (shl_align_exp m e (fexp prec emax (Zpos (digits2_pos m) + e))) as A.
  destruct (shl_align m e (fexp prec emax (Zpos (digits2_pos m) + e))) as [mz ez].
  cbn [snd] in A.
  apply binary_round_aux_cases. subst ez.
  unfold fexp, SpecFloat.emin. change prec with 53. change emax with 1024. lia.
Qed.

Lemma binary_normalize_cases (z : Z) (e : Z) :
  -1074 <= e ->
  binary_normalize prec emax z e false = S754_zero false
  \/ (exists s, binary_normalize prec emax z e false = S754_infinity s)
  \/ exists s m' e', binary_normalize prec emax z e false = S754_finite s m' e'.
Proof.
  intros He. destruct z as [|p|p]; cbn [binary_normalize].
  - now left.
  - right. destruct (binary_round_cases false p e He) as [H|(m' & e' & H)];
      rewrite H; eauto.
  - right. destruct (binary_round_cases true p e He) as [H|(m' & e' & H)];
      rewrite H; eauto.
Qed.

(** The sum of two finite doubles is +0, a finite double or an infinity. *)
Lemma SFadd_finite_cases (s1 s2 : bool) (m1 m2 : positive) (e1 e2 : Z) :
  valid_binary (S754_finite s1 m1 e1) = true ->
  valid_binary (S754_finite s2 m2 e2) = true ->
  let r := SF64add (S754_finite s1 m1 e1) (S754_finite s2 m2 e2) in
  r = S754_zero false \/ (exists s, r = S754_infinity s)
  \/ exists s m' e', r = S754_finite s m' e'.
Proof.
  intros V1 V2. cbv zeta. unfold SF64add, SFadd.
  apply binary_normalize_cases.
  apply valid_finite in V1. apply valid_finite in V2. lia.
Qed.

End FloatFacts.

Section Binary64Order.

Import Binary64.
Local Open Scope float_scope.

Lemma SFcompare_refl (x : spec_float) : x <> S754_nan -> SFcompare x x = Some Eq.
Proof.
  destruct x as [s|s| |s m e]; cbn [SFcompare]; try congruence.
  - now destruct s.
  - intros _. rewrite Z.compare_refl.
    change (Pos.compare_cont Eq m m) with (Pos.compare m m).
    rewrite Pos.compare_refl. now destruct s.
Qed.

Lemma is_nan_spec (x : float) : is_nan x = true <-> Prim2SF x = S754_nan.
Proof.
  unfold is_nan. rewrite FloatAxioms.eqb_spec. unfold SFeqb. split.
  - intros H. destruct (Prim2SF x) eqn:E; try reflexivity;
      rewrite SFcompare_refl in H by discriminate; discriminate.
  - intros ->. reflexivity.
Qed.

Lemma is_infinity_spec (x : float) :
  is_infinity x = true <-> exists s, Prim2SF x = S754_infinity s.
Proof.
  unfold is_infinity. rewrite FloatAxioms.eqb_spec, FloatAxioms.abs_spec.
  change (Prim2SF infinity) with (S754_infinity false).
  destruct (Prim2SF x) as [s|s| |s m e]; cbn; split; intros H;
    try discriminate; try (destruct H; discriminate); eauto.
Qed.

Lemma is_zero_spec (x : float) :
  is_zero x = true <-> exists s, Prim2SF x = S754_zero s.
Proof.
  unfold is_zero. rewrite FloatAxioms.eqb_spec.
  change (Prim2SF PrimFloat.zero) with (S754_zero false).
  destruct (Prim2SF x) as [s|s| |s m e]; cbn; split; intros H;
    try discriminate; try (destruct H; discriminate); eauto.
  - now destruct s.
  - now destruct s.
Qed.

(** The comparison [<=] of two doubles is the order of the real numbers they
    stand for. *)
Lemma units_pos (s : bool) (m : positive) (e : Z) :
  valid_binary (S754_finite s m e) = true ->
  (0 < Zpos m * 2 ^ (e + 1074))%Z.
Proof.
  intros V. apply valid_finite in V.
  apply Z.mul_pos_pos; [lia|apply Z.pow_pos_nonneg; lia].
Qed.

Lemma leb_le (a b : float) : (a <=? b) = true <-> Spec.le a b.
Proof.
  rewrite FloatAxioms.leb_spec. unfold Spec.le, SFleb.
  pose proof (Prim2SF_valid a) as Va. pose proof (Prim2SF_valid b) as Vb.
  destruct (Prim2SF a) as [sa|sa| |sa ma ea], (Prim2SF b) as [sb|sb| |sb mb eb].
  all: try (cbn; try destruct sa; try destruct sb; intuition (try discriminate; auto); fail).
  - pose proof (units_pos _ _ _ Vb).
    cbn [SFcompare]. unfold Spec.units.
    destruct sb; cbn [cond_Zopp]; split; intros; try discriminate; try lia; auto.
  - pose proof (units_pos _ _ _ Va).
    cbn [SFcompare]. unfold Spec.units.
    destruct sa; cbn [cond_Zopp]; split; intros; try discriminate; try lia; auto.
  - rewrite (SFcompare_units sa sb ma mb ea eb Va Vb).
    unfold Z.le.
    destruct (Spec.units sa ma ea ?= Spec.units sb mb eb)%Z;
      split; intros; congruence.
Qed.

Lemma leb_refl (a : float) : is_nan a = false -> (a <=? a) = true.
Proof.
  intros H. rewrite FloatAxioms.leb_spec. unfold SFleb. rewrite SFcompare_refl; [reflexivity|].
  intros E. apply is_nan_spec in E. congruence.
Qed.

End Binary64Order.

Section Binary64Aggregation.

#[local] Set Warnings "-inexact-float".

Import Binary64.
Local Open Scope float_scope.

Lemma Prim2SF_zero : Prim2SF 0 = S754_zero false.
Proof. reflexivity. Qed.

(** [x + 0] is [x], unless [x] is -0. *)
Lemma add_zero_r (x : float) : Prim2SF x <> S754_zero true -> x + 0 = x.
Proof.
  intros H. apply Prim2SF_inj. rewrite add_spec, Prim2SF_zero.
  destruct (Prim2SF x) as [[]|s| |s m e]; try reflexivity. congruence.
Qed.

(** A sum is -0 only when its first term is. *)
Lemma add_not_neg_zero (x y : float) :
  Prim2SF x <> S754_zero true -> Prim2SF (x + y) <> S754_zero true.
Proof.
  intros H. rewrite add_spec.
  pose proof (Prim2SF_valid x) as Vx. pose proof (Prim2SF_valid y) as Vy.
  destruct (Prim2SF x) as [[]|sx| |sx mx ex], (Prim2SF y) as [[]|sy| |sy my ey];
    try congruence; try discriminate;
    try (destruct sx; try destruct sy; discriminate).
  destruct (SFadd_finite_cases sx sy mx my ex ey Vx Vy) as [E|[(s & E)|(s & m & e & E)]];
    rewrite E; discriminate.
Qed.

(** Adding a finite number to a number that is not NaN does not give NaN. *)
Lemma add_finite_not_nan (x y : float) :
  is_nan x = false -> Number_isFinite y = true -> is_nan (x + y) = false.
Proof.
  intros Hx Hy.
  assert (Nx : Prim2SF x <> S754_nan).
  { intros E. apply is_nan_spec in E. congruence. }
  assert (Fy : forall s, Prim2SF y <> S754_infinity s).
  { intros s E. unfold Number_isFinite in Hy.
    assert (I : is_infinity y = true) by (apply is_infinity_spec; eauto).
    rewrite I in Hy. now destruct (is_nan y). }
  assert (Ny : Prim2SF y <> S754_nan).
  { intros E. apply is_nan_spec in E. unfold Number_isFinite in Hy.
    rewrite E in Hy. discriminate. }
  destruct (is_nan (x + y)) eqn:N; [|reflexivity].
  apply is_nan_spec in N. rewrite add_spec in N.
  pose proof (Prim2SF_valid x) as Vx. pose proof (Prim2SF_valid y) as Vy.
  destruct (Prim2SF x) as [sx|sx| |sx mx ex], (Prim2SF y) as [sy|sy| |sy my ey];
    try congruence; try (specialize (Fy sy); congruence);
    try (destruct sx; try destruct sy; discriminate).
  destruct (SFadd_finite_cases sx sy mx my ex ey Vx Vy) as [E|[(s & E)|(s & m & e & E)]];
    rewrite E in N; discriminate.
Qed.

(** A selected rate is never NaN and never -0: [Number(text) || 0] replaces
    both by 0. *)
Lemma num_or_zero_cases (x : float) :
  (num_truthy x = true /\ num_or x 0 = x
   /\ is_nan x = false /\ is_zero x = false)
  \/ (num_truthy x = false /\ num_or x 0 = 0
      /\ (is_nan x = true \/ is_zero x = true)).
Proof.
  unfold num_or, num_truthy.
  destruct (is_nan x), (is_zero x); cbn; intuition.
Qed.

Lemma selectedRate_cases (t : TimingRow.t) :
  let x := StringToNumber (selectedText t) in
  selectedRate (parseRow t) = num_or x 0.
Proof.
  unfold selectedRate, parseRow, selectedText.
  cbn [row peak peakDsc].
  now destruct (TimingRow.useDsc t).
Qed.

Lemma selectedRate_not_nan (t : TimingRow.t) :
  is_nan (selectedRate (parseRow t)) = false.
Proof.
  rewrite selectedRate_cases. cbv zeta.
  destruct (num_or_zero_cases (StringToNumber (selectedText t)))
    as [(_ & -> & H & _)|(_ & -> & _)]; [exact H|reflexivity].
Qed.

Lemma selectedRate_not_neg_zero (t : TimingRow.t) :
  Prim2SF (selectedRate (parseRow t)) <> S754_zero true.
Proof.
  rewrite selectedRate_cases. cbv zeta.
  destruct (num_or_zero_cases (StringToNumber (selectedText t)))
    as [(_ & -> & _ & H)|(_ & -> & _)]; [|discriminate].
  intros E. assert (is_zero (StringToNumber (selectedText t)) = true).
  { apply is_zero_spec. eauto. }
  congruence.
Qed.

(** The running total of [reduce] adds the selected rates from the first
    row on. *)
Lemma running_total_of_rates (ps : list ParsedRow) (s : float) :
  fold_left (fun s p => s + selectedRate p) ps s
  = fold_left (fun s r => s + r) (map selectedRate ps) s.
Proof. revert s. induction ps as [|p ps IH]; intros s; [reflexivity|apply IH]. Qed.

Lemma totalGbps_sum64 (st : AppState) :
  totalGbps st = Spec.totalRequired (map selectedRate (parsed (timings st))).
Proof. apply running_total_of_rates. Qed.

(** A running total that starts at +0 is never -0. *)
Lemma running_total_not_neg_zero (rates : list float) (s : float) :
  Prim2SF s <> S754_zero true ->
  Prim2SF (fold_left (fun s r => s + r) rates s) <> S754_zero true.
Proof.
  revert s. induction rates as [|r rs IH]; intros s Hs; [exact Hs|].
  cbn [fold_left]. apply IH. now apply add_not_neg_zero.
Qed.

Lemma running_total_not_nan (rates : list float) (s : float) :
  is_nan s = false ->
  Forall (fun r => Number_isFinite r = true) rates ->
  is_nan (fold_left (fun s r => s + r) rates s) = false.
Proof.
  revert s. induction rates as [|r rs IH]; intros s Hs Hr; [exact Hs|].
  inversion Hr; subst. cbn [fold_left]. apply IH; [|assumption].
  now apply add_finite_not_nan.
Qed.

Lemma selectedRate_finite (t : TimingRow.t) :
  is_infinity (StringToNumber (selectedText t)) = false ->
  Number_isFinite (selectedRate (parseRow t)) = true.
Proof.
  intros H. rewrite selectedRate_cases. cbv zeta.
  destruct (num_or_zero_cases (StringToNumber (selectedText t)))
    as [(_ & -> & N & _)|(_ & -> & _)]; [|reflexivity].
  unfold Number_isFinite. now rewrite N, H.
Qed.




(** C1.  The total is the sum of the selected rates, added up from the
    first slot on, and the decision is the comparison of that total with the
    payload capacity plus 1e-9: [fits] holds exactly when the total is at most
    that sum, as real numbers, the total and the sum being the doubles the
    program computes.  A total equal to the threshold fits. *)
Theorem fit_decision (st : AppState) :
  let total := totalGbps st in
  let capacity := payloadCapacityGbps st in
  total = Spec.totalRequired (map selectedRate (parsed (timings st)))
  /\ (fits st = true <-> Spec.fitsWithin total capacity)
  /\ (is_nan total = false -> total = capacity + 1e-9 -> fits st = true).
Proof.
  cbv zeta. split; [apply totalGbps_sum64|]. split.
  - unfold fits, Spec.fitsWithin. apply leb_le.
  - intros Hn He. unfold fits. rewrite <- He. now apply leb_refl.
Qed.

(** C10, as the code has it.  A slot whose selected text is empty or is no
    number has the rate 0, and a slot of rate 0 adds nothing to the total,
    wherever it stands.  The total is not NaN when no selected text reads as
    an infinity; it can be infinite then, by overflow. *)
Theorem unparseable_rate_counts_zero (st : AppState) :
  (forall t : TimingRow.t,
      selectedText t = "" \/ is_nan (StringToNumber (selectedText t)) = true ->
      selectedRate (parseRow t) = 0)
  /\ (forall (t : TimingRow.t) (l1 l2 : list TimingRow.t),
        selectedRate (parseRow t) = 0 ->
        totalGbps (withTimings st (l1 ++ t :: l2)) = totalGbps (withTimings st (l1 ++ l2)))
  /\ ((forall t, In t (timings st) ->
         is_infinity (StringToNumber (selectedText t)) = false) ->
      is_nan (totalGbps st) = false).
Proof.
  split; [|split].
  - intros t H. rewrite selectedRate_cases. cbv zeta.
    destruct H as [-> | H]; [reflexivity|].
    unfold num_or, num_truthy. now rewrite H.
  - intros t l1 l2 Hz. unfold totalGbps, parsed, withTimings. cbn [timings].
    rewrite !map_app, !fold_left_app. cbn [map fold_left]. rewrite Hz.
    rewrite add_zero_r; [reflexivity|].
    rewrite running_total_of_rates.
    apply running_total_not_neg_zero. discriminate.
  - intros H. unfold totalGbps. rewrite running_total_of_rates.
    apply running_total_not_nan; [reflexivity|].
    apply Forall_forall. intros r Hr. unfold parsed in Hr.
    rewrite map_map in Hr. apply in_map_iff in Hr. destruct Hr as [t [<- Ht]].
    apply selectedRate_finite. now apply H.
Qed.

End Binary64Aggregation.

Section Binary64AggregationExamples.

Import Binary64.
#[local] Set Warnings "-inexact-float".
Local Open Scope float_scope.

(** C10 fails as stated.  The texts Infinity and -Infinity are numbers: two
    slots that carry them give the total NaN, and the state does not fit.
    Two slots of 1e308 give the total Infinity. *)
Lemma total_is_NaN_for_opposite_infinities :
  let link := mkAppState [] "dp13_hbr3" 4 8.1 "8b10b" in
  let opposite :=
    withTimings link [slot "" "Infinity" true; slot "-Infinity" "" false] in
  let large := withTimings link [slot "1e308" "" false; slot "1e308" "" false] in
  is_nan (totalGbps opposite) = true
  /\ fits opposite = false
  /\ totalGbps large = infinity.
Proof. vm_compute. auto. Qed.

End Binary64AggregationExamples.

Section Binary64Generator.

Import Binary64.
#[local] Set Warnings "-inexact-float".
Local Open Scope float_scope.

Lemma SFmul_comm (x y : spec_float) : SF64mul x y = SF64mul y x.
Proof.
  destruct x as [sx|sx| |sx mx ex], y as [sy|sy| |sy my ey]; cbn;
    rewrite ?(xorb_comm sx sy); try reflexivity.
  now rewrite (Pos.mul_comm mx my), (Z.add_comm ex ey).
Qed.

Lemma fmul_comm (x y : float) : x * y = y * x.
Proof. apply Prim2SF_inj. rewrite !mul_spec. apply SFmul_comm. Qed.

Lemma cellGran_value64 : Math_floor CVT_CELL_GRAN = 8.
Proof. reflexivity. Qed.

Lemma aspectMatches_ratioFits64 (v h : float) (c : string * float) :
  aspectMatches 8 v h c = Spec.ratioFits v h (snd c).
Proof. unfold aspectMatches, Spec.ratioFits. now rewrite fmul_comm. Qed.

Lemma vSyncRounded_by_aspect64 (p : CvtProfile) (v h : float) :
  p <> cvt_rb2 ->
  vSyncRounded p (aspectRatio 8 v h) = Spec.syncWidthByAspect v h.
Proof.
  intros Hp.
  assert (E : (if String.eqb (aspectRatio 8 v h) "4:3" then 4
              else if String.eqb (aspectRatio 8 v h) "16:9" then 5
              else if String.eqb (aspectRatio 8 v h) "16:10" then 6
              else if String.eqb (aspectRatio 8 v h) "5:4" then 7
              else if String.eqb (aspectRatio 8 v h) "15:9" then 7
              else 10) = Spec.syncWidthByAspect v h).
  { unfold aspectRatio, Spec.syncWidthByAspect, aspectCandidates, Spec.syncWidthTable.
    cbn [find fst snd].
    rewrite !aspectMatches_ratioFits64. cbn [snd].
    repeat match goal with
           | |- context [Spec.ratioFits v h ?r] =>
               destruct (Spec.ratioFits v h r); [reflexivity|]
           end.
    reflexivity. }
  destruct p; [exact E | exact E | congruence].
Qed.

Lemma vSyncRounded_spec64 (p : CvtProfile) (v h : float) :
  vSyncRounded p (aspectRatio 8 v h) = Spec.syncWidth p v h.
Proof.
  destruct p; try (apply vSyncRounded_by_aspect64; discriminate). reflexivity.
Qed.

Lemma verPixels_spec64 (vActive : float) (interlaced : bool) :
  (if interlaced
   then 2 * (if interlaced then Math_floor (vActive / 2) else Math_floor vActive)
   else (if interlaced then Math_floor (vActive / 2) else Math_floor vActive))
  = Spec.activeVLines vActive interlaced.
Proof. now destruct interlaced. Qed.


Lemma syncWidthByAspect_whole64 (v h : float) :
  Math_round (Spec.syncWidthByAspect v h) = Spec.syncWidthByAspect v h.
Proof.
  unfold Spec.syncWidthByAspect, Spec.syncWidthTable. cbn [find fst snd].
  repeat match goal with
         | |- context [Spec.ratioFits v h ?r] =>
             destruct (Spec.ratioFits v h r); [reflexivity|]
         end.
  reflexivity.
Qed.

(** C7.  The vertical sync width of every generated timing: 8 for the RB2
    profile; otherwise the width of the first ratio of the ordered table
    4:3, 16:9, 16:10, 5:4, 15:9, 43:18, 64:27, 12:5 for which
    round(active_v_lines * ratio / 8) * 8 equals the rounded active width,
    namely 4, 5, 6, 7, 7, 10, 10, 10, and 10 when no ratio fits; the test is
    made on the doubles the program computes.  The generator is a total
    function, so no input raises an error. *)
Theorem vsync_width_selection
    (hActive vActive refreshHz : float) (profile : CvtProfile)
    (margins interlaced videoOptimized : bool) :
  vSync (calculateCvtTiming hActive vActive refreshHz profile
             margins interlaced videoOptimized)
  = Spec.syncWidth profile (Spec.activeVLines vActive interlaced)
      (Spec.roundedActiveWidth hActive).
Proof.
  unfold calculateCvtTiming. rewrite cellGran_value64. cbv zeta.
  rewrite verPixels_spec64, vSyncRounded_spec64.
  fold (Spec.quantizeDown 8 hActive). fold (Spec.roundedActiveWidth hActive).
  destruct profile; unfold standardArm, reducedArm; cbn [vSync];
    unfold Spec.syncWidth; solve [apply syncWidthByAspect_whole64 | reflexivity].
Qed.

Lemma standardArm_steps64 (videoOptimized : bool)
    (activePixels lines vMargin vSyncWidth rate halfLine : float) :
  standardArm (clockParams cvt videoOptimized) 8 rate activePixels lines
    vMargin vMargin halfLine vSyncWidth
  = Spec.descriptor
      (Spec.standardSteps activePixels lines vMargin vSyncWidth rate halfLine).
Proof.
  unfold standardArm, Spec.standardSteps, Spec.descriptor,
    Spec.flooredAgainst, Spec.quantizeDown.
  cbv zeta.
  cbn [Spec.t_pixelClock Spec.t_totalPixels Spec.t_totalLines Spec.t_hBlank
       Spec.t_vBlank Spec.t_hFront Spec.t_hSync Spec.t_hBack Spec.t_vFront
       Spec.t_vSync Spec.t_vBack clockParams clockStep].
  change (2 * 8) with 16.
  change CVT_MIN_VSYNC_BP with 550. change CVT_MIN_V_PORCH with 3.
  change CVT_MIN_V_BPORCH with 6. change CVT_C_PRIME with 30.
  change CVT_M_PRIME with 300. change CVT_HSYNC_PERCENT with 0.08.
  set (lineEstimate := (1 / rate - 550 / 1000000)
                       / (lines + 2 * vMargin + 3 + halfLine) * 1000000).
  rewrite (fmul_comm 0.25).
  destruct (30 - 300 * lineEstimate / 1000 <? 20);
    destruct (Math_floor (550 / lineEstimate) + 1 <? vSyncWidth + 6);
    reflexivity.
Qed.

(** C5.  For the [cvt] profile the generator computes exactly the steps of
    the standard-CVT algorithm, each in binary64: the active width rounded
    down to the granularity 8, the 1.8% margin per side (rounded to the
    granularity) when requested, the line duration estimated from the 550 us
    minimum blanking time and the field rate, the sync + back porch lines
    floored against vSync + 6, the total lines, the duty cycle from C' = 30
    and M' = 300 clamped to the 20% floor, the horizontal blank quantized down
    to 16, hSync as 8% of the total pixels quantized to 8, hBack half of
    hBlank, hFront = hBlank - hSync - hBack, and the pixel clock quantized
    down to a multiple of 0.25 MHz. *)
Theorem standard_cvt_steps
    (hActive vActive refreshHz : float) (margins interlaced videoOptimized : bool) :
  calculateCvtTiming hActive vActive refreshHz cvt margins interlaced videoOptimized
  = Spec.descriptor (Spec.standardCvt hActive vActive refreshHz margins interlaced).
Proof.
  unfold calculateCvtTiming. rewrite cellGran_value64. cbv zeta.
  rewrite verPixels_spec64, vSyncRounded_spec64.
  unfold Spec.standardCvt, Spec.syncWidth. cbv zeta.
  rewrite standardArm_steps64.
  unfold Spec.totalActivePixels, Spec.roundedActiveWidth, Spec.sideMargin,
    Spec.marginLines, Spec.linesPerField, Spec.fieldRate, Spec.interlaceHalfLine,
    Spec.quantizeDown.
  reflexivity.
Qed.

Lemma reducedArm_steps64 (profile : CvtProfile) (videoOptimized : bool)
    (activePixels lines vMargin vSyncWidth rate halfLine : float) :
  profile <> cvt ->
  reducedArm profile (clockParams profile videoOptimized) rate activePixels lines
    vMargin vMargin halfLine vSyncWidth
  = Spec.descriptor
      (Spec.reducedSteps profile videoOptimized activePixels lines vMargin
         vSyncWidth rate halfLine).
Proof.
  intros Hp.
  unfold reducedArm, Spec.reducedSteps, Spec.descriptor, Spec.rbPixelClock,
    Spec.clockSteps, Spec.rbBlankingLines, Spec.flooredAgainst.
  cbv zeta.
  cbn [Spec.t_pixelClock Spec.t_totalPixels Spec.t_totalLines Spec.t_hBlank
       Spec.t_vBlank Spec.t_hFront Spec.t_hSync Spec.t_hBack Spec.t_vFront
       Spec.t_vSync Spec.t_vBack].
  change CVT_MIN_V_BPORCH with 6.
  destruct profile; [congruence | |];
    cbn [clockParams clockStepInv rbHBlank rbHSync rbMinVBlank rbVFrontPorch
         refreshMultiplier Spec.rbHBlank Spec.rbStepsPerMHz Spec.rbVFrontPorch
         Spec.refreshMultiplier].
  - reflexivity.
  - destruct videoOptimized; reflexivity.
Qed.

(** C6.  For the reduced-blanking profiles the generator computes the
    reduced-blanking algorithm of the specification, each step in binary64.
    The pixel clock is the whole number of clock steps in field_rate x
    total_lines x total_pixels (in MHz; 4 steps to the MHz for [cvt_rb], 1000
    for [cvt_rb2]), multiplied by 1000/1001 exactly when the profile is
    [cvt_rb2] and [videoOptimized] is set and by 1 otherwise, and divided by
    the number of steps in 1 MHz; 1/4 and 1/1000 are the clock steps 0.25 and
    0.001.  The horizontal blank is 160 for [cvt_rb] and 80 for [cvt_rb2]. *)
Theorem reduced_blanking_clock
    (hActive vActive refreshHz : float) (margins interlaced videoOptimized : bool) :
  let rb := calculateCvtTiming hActive vActive refreshHz cvt_rb
              margins interlaced videoOptimized in
  let rb2 := calculateCvtTiming hActive vActive refreshHz cvt_rb2
               margins interlaced videoOptimized in
  let t := Spec.reducedBlanking cvt_rb hActive vActive refreshHz
             margins interlaced videoOptimized in
  let t2 := Spec.reducedBlanking cvt_rb2 hActive vActive refreshHz
              margins interlaced videoOptimized in
  let rate := Spec.fieldRate refreshHz interlaced in
  (rb = Spec.descriptor t /\ rb2 = Spec.descriptor t2)
  /\ pixelClockMHz rb
     = Spec.clockSteps cvt_rb rate (Spec.t_totalLines t) (Spec.t_totalPixels t)
       * 1 / 4
  /\ pixelClockMHz rb2
     = Spec.clockSteps cvt_rb2 rate (Spec.t_totalLines t2) (Spec.t_totalPixels t2)
       * (if videoOptimized then 1000 / 1001 else 1) / 1000
  /\ (1 / 4 = 0.25 /\ 1 / 1000 = 0.001)
  /\ hBlank rb = 160 /\ hBlank rb2 = 80.
Proof.
  cbv zeta.
  assert (E : forall p, p <> cvt ->
            calculateCvtTiming hActive vActive refreshHz p
              margins interlaced videoOptimized
            = Spec.descriptor (Spec.reducedBlanking p hActive vActive refreshHz
                                 margins interlaced videoOptimized)).
  { intros p Hp. unfold calculateCvtTiming. rewrite cellGran_value64. cbv zeta.
    rewrite verPixels_spec64, vSyncRounded_spec64.
    unfold Spec.reducedBlanking. cbv zeta.
    rewrite <- (reducedArm_steps64 p videoOptimized) by exact Hp.
    destruct p; [congruence | reflexivity | reflexivity]. }
  rewrite !E by discriminate.
  split; [split; reflexivity|].
  unfold Spec.reducedBlanking, Spec.reducedSteps, Spec.descriptor, Spec.rbPixelClock.
  cbv zeta. cbn [pixelClockMHz hBlank Spec.t_pixelClock Spec.t_totalLines
                 Spec.t_totalPixels Spec.t_hBlank Spec.refreshMultiplier
                 Spec.rbStepsPerMHz Spec.rbHBlank].
  split; [reflexivity|].
  split; [now destruct videoOptimized|].
  split; [split; reflexivity|].
  split; reflexivity.
Qed.

End Binary64Generator.
Section Binary64Import.

Import Binary64.
Local Open Scope float_scope.

Context {host : Host}.

Lemma getProp_throws64 (v : jsval) (key : string) :
  getProp v key = Thrown <-> isNullish v = true.
Proof. destruct v; simpl; split; congruence. Qed.

Lemma getProp_field64 (v : jsval) (key : string) :
  isNullish v = false -> getProp v key = Ok (field v key).
Proof. unfold field. destruct v; try discriminate; reflexivity. Qed.

(** *** Coercions that throw *)

Lemma ToNumber_throws64 (v : jsval) : ToNumber v = Thrown <-> coercible v = false.
Proof.
  unfold coercible.
  destruct v as [| |[]| | |items|fields]; cbn [ToNumber];
    try (cbn [ToString]; split; discriminate).
  - destruct (ToString (VArr items)); split; congruence.
  - destruct (ToString (VObj fields)); split; congruence.
Qed.

Lemma ToString_throws64 (v : jsval) : ToString v = Thrown <-> coercible v = false.
Proof. unfold coercible. destruct (ToString v); split; congruence. Qed.

Lemma ToNumber_numberOf64 (v : jsval) : coercible v = true -> ToNumber v = Ok (numberOf v).
Proof.
  intros H. unfold numberOf. destruct (ToNumber v) eqn:E; [reflexivity|].
  apply ToNumber_throws64 in E. congruence.
Qed.

Lemma coercible_nullish64 (v : jsval) (s : string) :
  coercible (nullish v (VStr s)) = coercible v.
Proof. destruct v; reflexivity. Qed.

(** An object is not coercible exactly when it has an own [toString]. *)
Lemma coercible_object64 (fields : list (string * jsval)) :
  coercible (VObj fields) = negb (hasOwn "toString" fields).
Proof. unfold coercible. cbn [ToString]. now destruct (hasOwn "toString" fields). Qed.


Lemma ToString_ok64 (v : jsval) :
  coercible v = true -> ToString v = Ok (valueOr "" (ToString v)).
Proof.
  intros H. destruct (ToString v) eqn:E; [reflexivity|].
  apply ToString_throws64 in E. congruence.
Qed.

(** One conversion of the callback: it throws, or it gives its value. *)
Ltac convert_field64 :=
  match goal with
  | |- context [andThen (ToNumber (field ?t ?k))] =>
      let C := fresh "C" in
      destruct (coercible (field t k)) eqn:C;
      [ rewrite (ToNumber_numberOf64 _ C); cbn [andThen negb orb]
      | apply ToNumber_throws64 in C; rewrite C; cbn [andThen negb orb];
        split; reflexivity ]
  | |- context [andThen (ToString (nullish (field ?t ?k) (VStr ?d)))] =>
      let C := fresh "C" in
      destruct (coercible (field t k)) eqn:C;
      [ rewrite (ToString_ok64 (nullish (field t k) (VStr d)))
          by (rewrite coercible_nullish64; exact C);
        cbn [andThen negb orb]
      | rewrite <- (coercible_nullish64 _ d) in C;
        apply ToString_throws64 in C; rewrite C; cbn [andThen negb orb];
        split; reflexivity ]
  end.

(** The callback throws exactly on a malformed entry. *)
Lemma restoreRow_throws64 (now : float) (t : jsval) (i : nat) :
  restoreRow now t i = Thrown <-> malformedEntry t = true.
Proof.
  unfold malformedEntry. destruct (isNullish t) eqn:N.
  - unfold restoreRow.
    assert (E : getProp t "colorFormat" = Thrown) by now apply getProp_throws64.
    rewrite E. split; reflexivity.
  - unfold restoreRow. rewrite (getProp_field64 t "colorFormat" N).
    cbn [andThen orb existsb coercedFields].
    do 15 convert_field64.
    split; discriminate.
Qed.

Lemma restoreRows_throws64 (now : float) (items : list jsval) (i : nat) :
  restoreRows now items i = Thrown <-> existsb malformedEntry items = true.
Proof.
  revert i. induction items as [|t items IH]; intros i; simpl.
  - split; discriminate.
  - rewrite orb_true_iff, <- (IH (S i)), <- (restoreRow_throws64 now t i).
    destruct (restoreRow now t i); [|tauto].
    destruct (restoreRows now items (S i)); split; try tauto; try discriminate.
    intros [H | H]; discriminate.
Qed.

Lemma restoreRows_length64 (now : float) (items : list jsval) (i : nat)
    (rs : list TimingRow.t) :
  restoreRows now items i = Ok rs -> List.length rs = List.length items.
Proof.
  revert i rs. induction items as [|t items IH]; intros i rs; simpl.
  - intros H. injection H as <-. reflexivity.
  - destruct (restoreRow now t i); [|discriminate].
    destruct (restoreRows now items (S i)) eqn:E; [|discriminate].
    intros H. injection H as <-. simpl. f_equal. eapply IH. exact E.
Qed.





(** Where the handler stops decides the state it leaves and the alert. *)
Lemma onImport_outcome64
    (now : float) (parseResult : outcome jsval) (st : AppState) :
  onImport now parseResult st
  = match parseResult with
    | Ok j =>
        (stoppedState now j st (importEnd parseResult),
         alertsOf (importEnd parseResult))
    | Thrown => (st, ["Invalid JSON file."])
    end.
Proof.
  destruct parseResult as [j|]; [|reflexivity].
  unfold onImport, onloadBody, importEnd.
  destruct (isNullish j) eqn:N.
  { destruct j; try discriminate; reflexivity. }
  unfold bind at 1. unfold lift at 1. cbv beta iota.
  unfold bind at 1. unfold lift at 1. rewrite (getProp_field64 j "timings" N). cbv beta iota.
  destruct st as [ts pid ln rt cd].
  unfold stoppedState, importedState, importedTimings, importedRate.
  destruct (field j "timings") as [| |b|n|s|items|fs] eqn:Et.
  all: try (unfold bind, lift, ret, setRate, setLanes, setCoding, setPresetId;
            rewrite (getProp_field64 j "transport" N), (getProp_field64 j "presetId" N);
            cbv beta iota;
            destruct (ToBoolean (field j "transport")); cbn [andb];
            [ destruct (coercible (field (field j "transport") "rate")) eqn:Cr;
              [ rewrite (ToNumber_numberOf64 _ Cr); cbn [negb];
                destruct (coercible (field (field j "transport") "lanes")) eqn:Cl;
                [ rewrite (ToNumber_numberOf64 _ Cl); cbn [negb];
                  destruct (field j "presetId"); reflexivity
                | apply ToNumber_throws64 in Cl; rewrite Cl; reflexivity ]
              | apply ToNumber_throws64 in Cr; rewrite Cr; reflexivity ]
            | destruct (field j "presetId"); reflexivity ]; fail).
  destruct (existsb malformedEntry items) eqn:Ex.
  - apply restoreRows_throws64 with (now := now) (i := 0%nat) in Ex.
    unfold bind, lift. now rewrite Ex.
  - destruct (restoreRows now items 0) as [rs|] eqn:Er;
      [|apply restoreRows_throws64 in Er; congruence].
    unfold bind, lift, ret, setTimings, setRate, setLanes, setCoding, setPresetId.
    rewrite (getProp_field64 j "transport" N), (getProp_field64 j "presetId" N).
    cbv beta iota.
    destruct (ToBoolean (field j "transport")); cbn [andb].
    + destruct (coercible (field (field j "transport") "rate")) eqn:Cr.
      * rewrite (ToNumber_numberOf64 _ Cr); cbn [negb].
        destruct (coercible (field (field j "transport") "lanes")) eqn:Cl.
        -- rewrite (ToNumber_numberOf64 _ Cl); cbn [negb].
           destruct (firstn 4 rs); destruct (field j "presetId"); reflexivity.
        -- apply ToNumber_throws64 in Cl; rewrite Cl.
           destruct (firstn 4 rs); reflexivity.
      * apply ToNumber_throws64 in Cr; rewrite Cr.
        destruct (firstn 4 rs); reflexivity.
    + destruct (firstn 4 rs); destruct (field j "presetId"); reflexivity.
Qed.







(** *** Bounds *)

Lemma presetOf_lanes64 (p : string) : preset_lanes (presetOf p) = 4.
Proof.
  unfold presetOf, DP_PRESETS. cbn [find preset_id].
  repeat match goal with
         | |- context [String.eqb ?a ?b] => destruct (String.eqb a b); [reflexivity|]
         end.
  reflexivity.
Qed.

Lemma laneOption_included64 (n : float) : laneIncluded (laneOption n) = true.
Proof.
  unfold laneOption. destruct (laneIncluded n) eqn:E; [exact E | reflexivity].
Qed.

Lemma lane_option_included64 (o : float) : In o LANE_OPTIONS -> laneIncluded o = true.
Proof. intros [<- | [<- | [<- | []]]]; reflexivity. Qed.

Lemma settle_bounds64 (before after : AppState) :
  withinBounds after -> withinBounds (settle before after).
Proof.
  intros [Hl Hn]. unfold settle. destruct (String.eqb (presetId before) (presetId after)).
  - now split.
  - split; [exact Hl|]. cbn [presetEffect lanes]. now rewrite presetOf_lanes64.
Qed.

Lemma importedTimings_length64 (now : float) (j : jsval) (st : AppState) :
  (List.length (timings st) <= 4)%nat ->
  (List.length (importedTimings now j st) <= 4)%nat.
Proof.
  intros Hl. unfold importedTimings.
  destruct (field j "timings"); try exact Hl.
  destruct (restoreRows now items 0) as [rs|]; [|exact Hl].
  pose proof (firstn_le_length 4 rs) as Hf.
  destruct (firstn 4 rs); [simpl; lia | exact Hf].
Qed.

(** An import keeps the bounds wherever it stops. *)
Lemma onImport_bounds64 (now : float) (parseResult : outcome jsval) (st : AppState) :
  withinBounds st -> withinBounds (fst (onImport now parseResult st)).
Proof.
  intros [Hl Hn]. rewrite onImport_outcome64.
  destruct parseResult as [j|]; [|now split]. cbn [fst].
  destruct (importEnd (Ok j)); cbn [stoppedState]; unfold importedState, withinBounds;
    cbn [timings lanes]; try (now split);
    try (split; [now apply importedTimings_length64 | exact Hn]).
  split; [now apply importedTimings_length64|].
  destruct (ToBoolean (field j "transport")); [apply laneOption_included64 | exact Hn].
Qed.

Lemma step_bounds64 (st st' : AppState) :
  step st st' -> withinBounds st -> withinBounds st'.
Proof.
  intros Hs [Hl Hn]. destruct Hs.
  - unfold addTiming. destruct (List.length (timings st) <? 4)%nat eqn:E.
    + split; [|exact Hn]. cbn [setTimings snd timings].
      rewrite length_app. apply Nat.ltb_lt in E. simpl. lia.
    + now split.
  - split; [|exact Hn]. cbn [removeTiming setTimings snd timings].
    eapply Nat.le_trans; [apply filter_length_le | exact Hl].
  - split; [|exact Hn]. cbn [removeRowAt setTimings snd timings].
    rewrite length_app, length_firstn, length_skipn. lia.
  - split; [|exact Hn]. cbn [updateTiming setTimings snd timings].
    now rewrite length_map.
  - split; [|exact Hn]. cbn [updateRowAt setTimings snd timings].
    destruct (nth_error (timings st) i) as [t|] eqn:E; [|exact Hl].
    apply nth_error_split in E. destruct E as (l1 & l2 & E & Hi).
    rewrite E in Hl |- *. subst i.
    rewrite firstn_app, Nat.sub_diag, firstn_all, firstn_O, app_nil_r.
    change (S (List.length l1)) with (1 + List.length l1)%nat.
    rewrite <- skipn_skipn, skipn_app, Nat.sub_diag, skipn_all, skipn_O.
    cbn [app skipn]. rewrite length_app in *. exact Hl.
  - apply settle_bounds64. now split.
  - split; [exact Hl|]. cbn [setLanes snd lanes]. now apply lane_option_included64.
  - now split.
  - now split.
  - apply settle_bounds64, onImport_bounds64. now split.
Qed.

Lemma reachable_bounds64 (st : AppState) : reachable st -> withinBounds st.
Proof.
  induction 1 as [now | st st' _ IH Hs].
  - split; [simpl; lia | reflexivity].
  - eapply step_bounds64; eauto.
Qed.

(** C8.  In every reachable state there are at most four timings and the
    lane count is one of 1, 2 and 4.  An import that does not throw, which is
    every import without a malformed entry and without a transport rate or
    lanes that is not coercible, is applied whatever the number of its
    entries and whatever its lane count: no alert is shown, a timings array
    is restored entry by entry and cut to its first four rows, and a lane
    count outside the options is replaced by 4. *)
Theorem import_is_clamped :
  (forall st : AppState, reachable st -> withinBounds st)
  /\ (forall (now : float) (j : jsval) (st : AppState),
        importEnd (Ok j) = Applied ->
        let st' := fst (onImport now (Ok j) st) in
        snd (onImport now (Ok j) st) = []
        /\ (forall items : list jsval,
              field j "timings" = VArr items ->
              exists restored : list TimingRow.t,
                restoreRows now items 0 = Ok restored
                /\ List.length restored = List.length items
                /\ (List.length (timings st') <= 4)%nat
                /\ (items <> [] -> timings st' = firstn 4 restored))
        /\ (ToBoolean (field j "transport") = true ->
            let importedLanes := numberOf (field (field j "transport") "lanes") in
            lanes st' = laneOption importedLanes
            /\ laneIncluded (lanes st') = true
            /\ (laneIncluded importedLanes = false -> lanes st' = 4))).
Proof.
  split; [exact reachable_bounds64|].
  intros now j st Hok. cbv zeta. rewrite onImport_outcome64, Hok.
  cbn [fst snd stoppedState alertsOf]. split; [reflexivity|]. split.
  - intros items Ej.
    assert (Hm : existsb malformedEntry items = false).
    { unfold importEnd in Hok. rewrite Ej in Hok.
      destruct (isNullish j); [discriminate|].
      destruct (existsb malformedEntry items); [discriminate | reflexivity]. }
    destruct (restoreRows now items 0) as [restored|] eqn:Er;
      [|apply restoreRows_throws64 in Er; congruence].
    exists restored. split; [reflexivity|].
    pose proof (restoreRows_length64 now items 0 restored Er) as Hlen.
    split; [exact Hlen|].
    unfold importedState, importedTimings. cbn [timings]. rewrite Ej, Er. split.
    + pose proof (firstn_le_length 4 restored) as Hf.
      destruct (firstn 4 restored); [simpl; lia | exact Hf].
    + intros Hne. destruct restored as [|r rs]; [|reflexivity].
      destruct items; [congruence | discriminate].
  - intros Ht. unfold importedState. cbn [lanes]. rewrite Ht.
    split; [reflexivity|]. split; [apply laneOption_included64|].
    intros Hout. unfold laneOption. now rewrite Hout.
Qed.

End Binary64Import.

Section Binary64ImportExamples.

Import Binary64.
Local Open Scope float_scope.





(** An import with five timing entries and the lane count 3: four rows are
    kept, the lane count becomes 4, and no alert is shown. *)
Example import_with_extra_entry_is_truncated :
  let st := @initialState integerHost 0 in
  let e := VObj [("label", VStr "a")] in
  let j := VObj [("timings", VArr [e; e; e; e; e]);
                 ("transport", VObj [("lanes", VNum 3)])] in
  let r := @onImport integerHost 1 (Ok j) st in
  @importEnd integerHost (Ok j) = Applied
  /\ snd r = [] /\ List.length (timings (fst r)) = 4%nat /\ lanes (fst r) = 4.
Proof. vm_compute. repeat split; reflexivity. Qed.

End Binary64ImportExamples.
Section Binary64Examples.

Import Binary64.
#[local] Set Warnings "-inexact-float".
Local Open Scope float_scope.

(** 1920x1080 at 60 Hz: the three profiles give the timings of the CVT
    standard (173.00, 138.50 and 133.32 MHz). *)
Example cvt_1920x1080_60 :
  calculateCvtTiming 1920 1080 60 cvt false false false
  = mkCvtTimingResult 173 2576 1120 656 40 128 200 328 3 5 32
  /\ calculateCvtTiming 1920 1080 60 cvt_rb false false false
     = mkCvtTimingResult 138.5 2080 1111 160 31 48 32 80 3 5 23
  /\ calculateCvtTiming 1920 1080 60 cvt_rb2 false false false
     = mkCvtTimingResult 133.32 2000 1111 80 31 8 32 40 17 8 6.
Proof. vm_compute. repeat split; reflexivity. Qed.

Example default_preset_timing :
  DEFAULT_PRESET_TIMING
  = mkCvtTimingResult 1306.206 3920 2314 80 154 8 32 40 140 8 6.
Proof. vm_compute. reflexivity. Qed.

(** Modes on which the rounding of the doubles decides: 550 / hPeriodEst is
    just below 99 at 1920x1698 at 100 Hz, and the clock of 1920x1080 at
    174.42 Hz is a step below the product of the exact numbers. *)
Example rounding_decides :
  vBlank (calculateCvtTiming 1920 1698 100 cvt false false false) = 102
  /\ vBlank (calculateCvtTiming 1920 2155 300 cvt_rb false false false) = 345
  /\ pixelClockMHz (calculateCvtTiming 1920 2155 300 cvt_rb false false false) = 1560
  /\ pixelClockMHz (calculateCvtTiming 1920 1080 174.42 cvt_rb2 false false false)
     = 409.886
  /\ vSync (calculateCvtTiming 11077793861766464 6646676317059880 60 cvt
              false false false) = 10.
Proof. vm_compute. repeat split; reflexivity. Qed.

(** [Number] of a text: the nearest double, an infinity past the largest
    double, and -0 for a negative zero. *)
Example StringToNumber_examples :
  map StringToNumber
    [""; "  "; "12"; "-12.50"; " 3.564 "; "1e3"; ".5"; "5."; "."; "abc";
     "Infinity"; "-Infinity"; "0x1F"; "-0x10"; "1e"; "12px"; "1e999"; "1e-400"; "-0"]
  = [0; 0; 12; -12.5; 3.564; 1000; 0.5; 5; nan; nan;
     infinity; neg_infinity; 31; nan; nan; nan; infinity; 0; -0].
Proof. vm_compute. reflexivity. Qed.

(** HBR3 with four lanes carries 25.92 Gbps; a rate an ulp above the sum
    of the capacity and 1e-9 as real numbers still fits, and the order of the
    slots changes the total and the decision. *)
Example fit_at_the_threshold :
  let link := mkAppState [] "dp13_hbr3" 4 8.1 "8b10b" in
  let rows :=
    [slot "1.621" "" false; slot "10.1707" "" false;
     slot "14.128300001000003" "" false] in
  payloadCapacityGbps link = 25.92
  /\ fits (withTimings link [slot "25.920000001000002" "" false]) = true
  /\ fits (withTimings link rows) = false
  /\ fits (withTimings link (rev rows)) = true.
Proof. vm_compute. repeat split; reflexivity. Qed.


End Binary64Examples.
